(** * Skillzy Arena: wallet, match and withdrawal handlers

    A shallow embedding of the request handlers of [wallet.js], [match.js]
    and [withdrawal.js].  The in-process [Map]s are explicit state, every
    handler is a function from a request and a state to a new state and a
    response, and the callbacks the handlers hand to [setTimeout] are kept in
    the state as pending timers that fire as separate events.

    JavaScript numbers are IEEE 754 binary64 values: they are modelled by the
    primitive floats of the kernel, so that every amount computed here is the
    amount the handlers compute.  Numeric body fields are JSON numbers.
    [Date.now()], the strings returned by the uuid package and the value of
    [Math.random()] are inputs of the events.  Loggers, rate limiters and
    WebSocket broadcasts do not feed back into the stores and are left
    out. *)

From Stdlib Require Import ZArith List Floats Uint63.
From stdpp Require Import base option list gmap strings relations.

Set Warnings "-inexact-float".
Set Default Proof Using "Type".

Local Open Scope string_scope.
Local Open Scope Z_scope.

(** ** JavaScript numbers *)

Module Js.

(** [Math.round]: the closest integral number, ties towards +infinity;
    NaN, the infinities and the zeros are returned as they are, and a
    negative argument that rounds to zero gives -0. *)
Definition Math_round (x : float) : float :=
  match Prim2SF x with
  | S754_finite s m e =>
      if 0 <=? e then x
      else
        let d := 2 ^ (- e) in
        let sm := if s then Z.neg m else Z.pos m in
        let n := (2 * sm + d) / (2 * d) in
        if n <? 0 then PrimFloat.opp (PrimFloat.of_uint63 (Uint63.of_Z (- n)))
        else if s then PrimFloat.neg_zero
        else PrimFloat.of_uint63 (Uint63.of_Z n)
  | _ => x
  end.

Definition isFinite (x : float) : bool :=
  match Prim2SF x with
  | S754_finite _ _ _ | S754_zero _ => true
  | _ => false
  end.

Definition isNaN (x : float) : bool := PrimFloat.is_nan x.

(** express-validator's [isFloat({ min })] on a JSON number. *)
Definition isFloat_min (lo x : float) : bool :=
  isFinite x && PrimFloat.leb lo x.

(** [isLength({ min: 1 })]. *)
Definition nonEmpty (s : string) : bool := negb (String.eqb s "").

(** [Array.prototype.includes] on an array of strings. *)
Definition includes (l : list string) (x : string) : bool :=
  existsb (String.eqb x) l.

(** *** Maps and object tables *)

Section OrderedMap.
Context {V : Type}.

(** A JavaScript [Map] with string keys, in insertion order: [values()]
    iterates in that order, [set] on a present key keeps its position.  The
    same lists serve as the constant object tables, [omap_get] being the
    property lookup. *)
Definition omap := list (string * V).

Fixpoint omap_get (k : string) (m : omap) : option V :=
  match m with
  | [] => None
  | (k', v) :: t => if String.eqb k' k then Some v else omap_get k t
  end.

Fixpoint omap_set (k : string) (v : V) (m : omap) : omap :=
  match m with
  | [] => [(k, v)]
  | (k', v') :: t =>
      if String.eqb k' k then (k, v) :: t else (k', v') :: omap_set k v t
  end.

Fixpoint omap_delete (k : string) (m : omap) : omap :=
  match m with
  | [] => []
  | (k', v') :: t =>
      if String.eqb k' k then t else (k', v') :: omap_delete k t
  end.

Definition omap_values (m : omap) : list V := map snd m.

End OrderedMap.
Arguments omap V : clear implicits.

End Js.

(** ** Currency table and conversion

  [wallet.js], [match.js] and [withdrawal.js] each carry the same
  [CURRENCY_RATES] object and the same [convertCurrency]. *)

Module Currency.

Definition CURRENCY_RATES : list (string * float) :=
  [ ("INR", 1%float); ("USD", 0.012%float); ("EUR", 0.011%float);
    ("GBP", 0.0095%float); ("CNY", 0.086%float); ("JPY", 1.8%float);
    ("KRW", 16.2%float); ("BRL", 0.062%float); ("RUB", 1.1%float);
    ("AED", 0.044%float); ("SAR", 0.045%float); ("CAD", 0.016%float);
    ("AUD", 0.018%float) ].

(** [Object.keys(CURRENCY_RATES)] *)
Definition keys : list string := map fst CURRENCY_RATES.

(** [CURRENCY_RATES[c]] inside an arithmetic expression: a key that is not
    in the table gives [undefined], which arithmetic turns into NaN. *)
Definition rate (c : string) : float :=
  default PrimFloat.nan (Js.omap_get c CURRENCY_RATES).

Definition convertCurrency (amount : float) (fromCurrency toCurrency : string) : float :=
  let inrAmount := (amount / rate fromCurrency)%float in
  (Js.Math_round (inrAmount * rate toCurrency * 100) / 100)%float.

End Currency.

Export Currency.

(** Responses of the handlers: a JSON body on success, or an HTTP status
    with the [code] of the error body (its [error] text where the body has
    no code). *)
Inductive response (A : Type) : Type :=
| Ok (body : A)
| Err (httpStatus : Z) (code : string).
Arguments Ok {A} body.
Arguments Err {A} httpStatus code.

(** ** wallet.js *)

Module Wallet.

Record wallet := mkWallet {
  userId : string;
  balance : float;
  currency : string;
  totalDeposits : float;
  totalWithdrawals : float;
  totalWinnings : float;
  kycStatus : string;
  createdAt : Z;
  lastActivity : Z
}.

Record developer := mkDeveloper {
  dev_balance : float;
  dev_currency : string;
  dev_totalEarnings : float;
  dev_pendingWithdrawals : list string
}.

Record gateway := mkGateway {
  gw_id : string;
  gw_name : string;
  gw_currencies : list string;
  gw_methods : list string;
  minDeposit : float;
  maxDeposit : float;
  gw_fees : float
}.

Definition PAYMENT_GATEWAYS : list gateway :=
  [ mkGateway "razorpay" "Razorpay" ["INR"]
      ["UPI"; "Cards"; "NetBanking"; "Wallets"] 10 100000 0.02;
    mkGateway "stripe" "Stripe" ["USD"; "EUR"; "GBP"; "CAD"; "AUD"]
      ["Cards"; "Digital Wallets"] 1 50000 0.029;
    mkGateway "alipay" "Alipay" ["CNY"]
      ["Alipay"; "WeChat Pay"] 10 50000 0.015;
    mkGateway "pix" "PIX" ["BRL"]
      ["PIX"; "Credit Cards"] 5 25000 0.01 ]%float.

(** The callback [/deposit] hands to [setTimeout]: it closes over the wallet
    object, the request currency and the net amount.  A wallet object is
    stored under its user id once and never replaced or removed, so the
    closure's wallet is the one stored under [dt_userId]. *)
Record depositTimer := mkDepositTimer {
  dt_userId : string;
  dt_currency : string;
  dt_netAmount : float
}.

(** The stores of the module.  The [transactions] and [pendingWithdrawals]
    maps are written by the handlers and read only by the history and
    statistics routes; they are not part of the model. *)
Record state := mkState {
  userWallets : gmap string wallet;
  developerWallet : developer;
  depositTimers : list depositTimer
}.

Definition initial : state :=
  mkState ∅ (mkDeveloper 45280 "INR" 125840 []) [].

Definition createWallet (now : Z) (uid : string) (cur : string) : wallet :=
  mkWallet uid 0 cur 0 0 0 "pending" now now.

Definition validateKYC (amount : float) (cur : string) (kyc : string) : bool :=
  let limitINR := convertCurrency amount cur "INR" in
  if (10000 <? limitINR)%float && negb (String.eqb kyc "verified") then false
  else true.

Definition set_wallet (uid : string) (w : wallet) (s : state) : state :=
  mkState (<[uid := w]> (userWallets s)) (developerWallet s) (depositTimers s).

(** [let wallet = userWallets.get(userId); if (!wallet) { wallet =
    createWallet(userId, currency); userWallets.set(userId, wallet); }] *)
Definition getOrCreate (now : Z) (uid cur : string) (s : state) : state * wallet :=
  match userWallets s !! uid with
  | Some w => (s, w)
  | None => let w := createWallet now uid cur in (set_wallet uid w s, w)
  end.

(** *** GET /:userId *)

Record walletInfo := mkWalletInfo {
  wi_userId : string;
  wi_balance : float;
  wi_currency : string;
  wi_nativeBalance : float;
  wi_nativeCurrency : string;
  wi_totalDeposits : float;
  wi_totalWithdrawals : float;
  wi_totalWinnings : float;
  wi_kycStatus : string;
  wi_lastActivity : Z
}.

(** [query] is the [currency] query parameter, [None] when it is absent.
    The route validates [userId] only. *)
Definition getWallet (now : Z) (uid : string) (query : option string) (s : state)
  : state * response walletInfo :=
  if negb (Js.nonEmpty uid) then (s, Err 400 "Validation failed")
  else
    let cur := default "INR" query in
    let '(s', w) := getOrCreate now uid cur s in
    let displayBalance :=
      if String.eqb (currency w) cur then balance w
      else convertCurrency (balance w) (currency w) cur in
    (s', Ok (mkWalletInfo (userId w) displayBalance cur (balance w) (currency w)
               (totalDeposits w) (totalWithdrawals w) (totalWinnings w)
               (kycStatus w) (lastActivity w))).

(** *** POST /deposit *)

Record depositReq := mkDepositReq {
  d_userId : string;
  d_amount : float;
  d_currency : string;
  d_paymentMethod : string
}.

Record depositInfo := mkDepositInfo {
  di_transactionId : string;
  di_amount : float;
  di_netAmount : float;
  di_fees : float;
  di_currency : string;
  di_gateway : string
}.

Definition deposit_valid (r : depositReq) : bool :=
  Js.nonEmpty (d_userId r)
  && Js.isFloat_min 1 (d_amount r)
  && Js.includes Currency.keys (d_currency r)
  && Js.includes ["UPI"; "Cards"; "NetBanking"; "Wallets"; "PIX"; "Alipay"]
       (d_paymentMethod r).

Definition deposit (now : Z) (txn : string) (r : depositReq) (s : state)
  : state * response depositInfo :=
  if negb (deposit_valid r) then (s, Err 400 "Validation failed")
  else
    let '(s1, w) := getOrCreate now (d_userId r) (d_currency r) s in
    match List.find (fun g => Js.includes (gw_currencies g) (d_currency r)
                              && Js.includes (gw_methods g) (d_paymentMethod r))
            PAYMENT_GATEWAYS with
    | None => (s1, Err 400 "PAYMENT_METHOD_NOT_SUPPORTED")
    | Some g =>
        if (d_amount r <? minDeposit g)%float || (maxDeposit g <? d_amount r)%float
        then (s1, Err 400 "AMOUNT_OUT_OF_RANGE")
        else
          let fees := (Js.Math_round (d_amount r * gw_fees g * 100) / 100)%float in
          let netAmount := (d_amount r - fees)%float in
          (mkState (userWallets s1) (developerWallet s1)
             (depositTimers s1 ++ [mkDepositTimer (d_userId r) (d_currency r) netAmount]),
           Ok (mkDepositInfo txn (d_amount r) netAmount fees (d_currency r) (gw_name g)))
    end.

(** The [setTimeout] callback of [/deposit], for the [k]-th pending timer. *)
Definition depositCompleted (now : Z) (t : depositTimer) (w : wallet) : wallet :=
  let walletAmount :=
    if String.eqb (dt_currency t) (currency w) then dt_netAmount t
    else convertCurrency (dt_netAmount t) (dt_currency t) (currency w) in
  mkWallet (userId w) (balance w + walletAmount) (currency w)
    (totalDeposits w + walletAmount) (totalWithdrawals w) (totalWinnings w)
    (kycStatus w) (createdAt w) now.

Definition depositTimerFires (now : Z) (k : nat) (s : state) : state :=
  match depositTimers s !! k with
  | None => s
  | Some t =>
      mkState (alter (depositCompleted now t) (dt_userId t) (userWallets s))
        (developerWallet s) (delete k (depositTimers s))
  end.

(** *** POST /withdraw *)

Record withdrawReq := mkWithdrawReq {
  w_userId : string;
  w_amount : float;
  w_currency : option string;
  w_withdrawalMethod : string
}.

Record withdrawInfo := mkWithdrawInfo {
  wd_transactionId : string;
  wd_amount : float;
  wd_netAmount : float;
  wd_fees : float;
  wd_currency : string
}.

Definition withdraw_valid (r : withdrawReq) : bool :=
  Js.nonEmpty (w_userId r)
  && Js.isFloat_min 1 (w_amount r)
  && match w_currency r with
     | None => true
     | Some c => Js.includes Currency.keys c
     end
  && Js.includes ["UPI"; "BankTransfer"; "Cards"; "PIX"; "Alipay"]
       (w_withdrawalMethod r).

(** [currency || wallet.currency]: a validated currency is a non-empty
    string, hence truthy. *)
Definition withdrawCurrency (r : withdrawReq) (w : wallet) : string :=
  default (currency w) (w_currency r).

(** The amount in the wallet's native currency, as the balance check and the
    deduction use it. *)
Definition withdrawAmount (r : withdrawReq) (w : wallet) : float :=
  if String.eqb (withdrawCurrency r w) (currency w) then w_amount r
  else convertCurrency (w_amount r) (withdrawCurrency r w) (currency w).

Definition withdraw (now : Z) (txn : string) (r : withdrawReq) (s : state)
  : state * response withdrawInfo :=
  if negb (withdraw_valid r) then (s, Err 400 "Validation failed")
  else
    match userWallets s !! w_userId r with
    | None => (s, Err 404 "WALLET_NOT_FOUND")
    | Some w =>
        let cur := withdrawCurrency r w in
        let walletAmount := withdrawAmount r w in
        if (balance w <? walletAmount)%float
        then (s, Err 400 "INSUFFICIENT_BALANCE")
        else if negb (validateKYC (w_amount r) cur (kycStatus w))
        then (s, Err 400 "KYC_REQUIRED")
        else
          match List.find (fun g => Js.includes (gw_currencies g) cur)
                  PAYMENT_GATEWAYS with
          | None => (s, Err 400 "WITHDRAWAL_NOT_SUPPORTED")
          | Some g =>
              let fees := (Js.Math_round (w_amount r * gw_fees g * 100) / 100)%float in
              let netAmount := (w_amount r - fees)%float in
              let w' := mkWallet (userId w) (balance w - walletAmount) (currency w)
                          (totalDeposits w) (totalWithdrawals w) (totalWinnings w)
                          (kycStatus w) (createdAt w) now in
              (set_wallet (w_userId r) w' s,
               Ok (mkWithdrawInfo txn (w_amount r) netAmount fees cur))
          end
    end.

(** *** POST /process-winnings

    The handler on a body whose [amount] and [platformFee] are JSON
    numbers.  The validators also accept numerals sent as strings and leave
    them strings; [WalletBody.processWinnings] below is the handler on
    both kinds of body. *)

Record winningsReq := mkWinningsReq {
  pw_matchId : string;
  pw_winner : string;
  pw_amount : float;
  pw_currency : string;
  pw_platformFee : float
}.

Record winningsInfo := mkWinningsInfo {
  pi_transactionId : string;
  pi_winnerBalance : float;
  pi_currency : string;
  pi_platformEarnings : float
}.

Definition winnings_valid (r : winningsReq) : bool :=
  Js.nonEmpty (pw_matchId r)
  && Js.nonEmpty (pw_winner r)
  && Js.isFloat_min 0 (pw_amount r)
  && Js.includes Currency.keys (pw_currency r)
  && Js.isFloat_min 0 (pw_platformFee r).

(** The winnings in the currency of the winner's wallet. *)
Definition winningsAmount (r : winningsReq) (w : wallet) : float :=
  if String.eqb (pw_currency r) (currency w) then pw_amount r
  else convertCurrency (pw_amount r) (pw_currency r) (currency w).

Definition processWinnings (now : Z) (txn : string) (r : winningsReq) (s : state)
  : state * response winningsInfo :=
  if negb (winnings_valid r) then (s, Err 400 "Validation failed")
  else
    let '(s1, w) := getOrCreate now (pw_winner r) (pw_currency r) s in
    let walletAmount := winningsAmount r w in
    let w' := mkWallet (userId w) (balance w + walletAmount) (currency w)
                (totalDeposits w) (totalWithdrawals w)
                (totalWinnings w + walletAmount)
                (kycStatus w) (createdAt w) now in
    let developerFeeINR := convertCurrency (pw_platformFee r) (pw_currency r) "INR" in
    let dev := developerWallet s1 in
    let dev' := mkDeveloper (dev_balance dev + developerFeeINR) (dev_currency dev)
                  (dev_totalEarnings dev + developerFeeINR)
                  (dev_pendingWithdrawals dev) in
    (mkState (<[pw_winner r := w']> (userWallets s1)) dev' (depositTimers s1),
     Ok (mkWinningsInfo txn (balance w') (currency w') developerFeeINR)).

(** *** Runs of the module *)

Inductive event :=
| GetWallet (now : Z) (uid : string) (query : option string)
| Deposit (now : Z) (txn : string) (r : depositReq)
| DepositTimer (now : Z) (k : nat)
| Withdraw (now : Z) (txn : string) (r : withdrawReq)
| ProcessWinnings (now : Z) (txn : string) (r : winningsReq).

Definition step (e : event) (s : state) : state :=
  match e with
  | GetWallet now uid q => fst (getWallet now uid q s)
  | Deposit now txn r => fst (deposit now txn r s)
  | DepositTimer now k => depositTimerFires now k s
  | Withdraw now txn r => fst (withdraw now txn r s)
  | ProcessWinnings now txn r => fst (processWinnings now txn r s)
  end.

Definition run (es : list event) (s : state) : state :=
  fold_left (fun s e => step e s) es s.

(** *** Consistency of the wallets *)

(** What the stored wallets and the pending deposit timers satisfy in every
    state the handlers reach. *)
Record Kept (s : state) : Prop := mkKept {
  kept_key : ∀ u w, userWallets s !! u = Some w -> userId w = u;
  kept_kyc : ∀ u w, userWallets s !! u = Some w -> kycStatus w = "pending";
  kept_withdrawn : ∀ u w, userWallets s !! u = Some w -> totalWithdrawals w = 0%float;
  kept_timers : ∀ t, t ∈ depositTimers s -> is_Some (userWallets s !! dt_userId t)
}.

(** What every event keeps of a stored wallet. *)
Definition sameIdentity (w w' : wallet) : Prop :=
  userId w' = userId w ∧ currency w' = currency w ∧ kycStatus w' = kycStatus w
  ∧ createdAt w' = createdAt w ∧ totalWithdrawals w' = totalWithdrawals w.

Definition isWinnings (e : event) : bool :=
  match e with
  | ProcessWinnings _ _ _ => true
  | _ => false
  end.

(** The currencies, payment methods and gateways with which a deposit can
    pass validation and gateway selection. *)
Definition depositRoutes : list (string * string * string) :=
  [ ("INR", "UPI", "Razorpay"); ("INR", "Cards", "Razorpay");
    ("INR", "NetBanking", "Razorpay"); ("INR", "Wallets", "Razorpay");
    ("USD", "Cards", "Stripe"); ("EUR", "Cards", "Stripe");
    ("GBP", "Cards", "Stripe"); ("CAD", "Cards", "Stripe");
    ("AUD", "Cards", "Stripe"); ("CNY", "Alipay", "Alipay");
    ("BRL", "PIX", "PIX") ].

(** The fee rate of the gateway that serves a withdrawal in each currency. *)
Definition withdrawFees : list (string * float) :=
  [ ("INR", 0.02); ("USD", 0.029); ("EUR", 0.029); ("GBP", 0.029);
    ("CAD", 0.029); ("AUD", 0.029); ("CNY", 0.015); ("BRL", 0.01) ]%float.

(** The state after the deduction of an accepted withdrawal. *)
Definition deducted (now : Z) (r : withdrawReq) (w : wallet) : wallet :=
  mkWallet (userId w) (balance w - withdrawAmount r w) (currency w)
    (totalDeposits w) (totalWithdrawals w) (totalWinnings w)
    (kycStatus w) (createdAt w) now.

(** *** Sample data *)

Definition usd_reader : event := GetWallet 1 "u1" (Some "USD").

Definition inr_traffic : list event :=
  [ Deposit 2 "txn_1" (mkDepositReq "u1" 500 "INR" "UPI");
    DepositTimer 3 0;
    ProcessWinnings 4 "txn_2" (mkWinningsReq "match_0123abcd" "u1" 16 "INR" 4);
    Withdraw 5 "txn_3" (mkWithdrawReq "u1" 1 (Some "USD") "Cards") ].

Definition sample_winnings : winningsReq :=
  mkWinningsReq "match_0123abcd" "alice" 0.19 "USD" 0.05.

End Wallet.

(** ** wallet.js: POST /process-winnings on the body as it is sent

    [express.json()] and [express.urlencoded()] hand the handlers the body
    fields as they were sent, and the [isFloat] validators check a field
    without converting it: a numeral sent as a string, as every field of a
    form post is, reaches the handler as a string.  [Wallet.processWinnings]
    is the handler on bodies whose [amount] and [platformFee] are JSON
    numbers; this is the handler on both kinds of body, from a state in which
    the balances are numbers. *)

Module WalletBody.
Import Wallet.

(** A body field that [isFloat] accepts: a number, or a string [t] that
    reads as a numeral, with the number [ToNumber(t)]. *)
Inductive field :=
| Sent_number (x : float)
| Sent_text (t : string) (x : float).

(** The number a field stands for in [/], [*] and [-]. *)
Definition toNumber (f : field) : float :=
  match f with
  | Sent_number x => x
  | Sent_text _ x => x
  end.

(** [isFloat({ min: 0 })]: a number must be finite, the numeral of a string
    may also read as Infinity. *)
Definition isFloat_min0 (f : field) : bool :=
  match f with
  | Sent_number x => Js.isFloat_min 0 x
  | Sent_text _ x => (0 <=? x)%float
  end.

(** The value of [x + v] for a number [x]: the sum when [v] is a number, and
    the decimal text of [x] followed by [t] when [v] is the string [t]. *)
Inductive sum :=
| Number (x : float)
| Appended (x : float) (t : string).

Definition plus (x : float) (v : field) : sum :=
  match v with
  | Sent_number y => Number (x + y)
  | Sent_text t _ => Appended x t
  end.

Record winningsBody := mkWinningsBody {
  b_matchId : string;
  b_winner : string;
  b_amount : field;
  b_currency : string;
  b_platformFee : field
}.

Definition winnings_valid (b : winningsBody) : bool :=
  Js.nonEmpty (b_matchId b)
  && Js.nonEmpty (b_winner b)
  && isFloat_min0 (b_amount b)
  && Js.includes Currency.keys (b_currency b)
  && isFloat_min0 (b_platformFee b).

(** What the handler writes and answers: the winner's wallet fields it
    assigns, the developer wallet, and the [winnerBalance] and
    [platformEarnings] of the response. *)
Record winningsResult := mkWinningsResult {
  wr_transactionId : string;
  wr_balance : sum;
  wr_totalWinnings : sum;
  wr_currency : string;
  wr_lastActivity : Z;
  wr_developer : developer;
  wr_winnerBalance : sum;
  wr_platformEarnings : float
}.

Definition processWinnings (now : Z) (txn : string) (b : winningsBody) (s : state)
  : response winningsResult :=
  if negb (winnings_valid b) then Err 400 "Validation failed"
  else
    let '(s1, w) := getOrCreate now (b_winner b) (b_currency b) s in
    let walletAmount :=
      if String.eqb (b_currency b) (currency w) then b_amount b
      else Sent_number
             (convertCurrency (toNumber (b_amount b)) (b_currency b) (currency w)) in
    let balance' := plus (balance w) walletAmount in
    let totalWinnings' := plus (totalWinnings w) walletAmount in
    let developerFeeINR :=
      convertCurrency (toNumber (b_platformFee b)) (b_currency b) "INR" in
    let dev := developerWallet s1 in
    let dev' := mkDeveloper (dev_balance dev + developerFeeINR) (dev_currency dev)
                  (dev_totalEarnings dev + developerFeeINR)
                  (dev_pendingWithdrawals dev) in
    Ok (mkWinningsResult txn balance' totalWinnings' (currency w) now dev'
          balance' developerFeeINR).

(** The body of a request whose amount and fee are JSON numbers. *)
Definition ofNumbers (r : winningsReq) : winningsBody :=
  mkWinningsBody (pw_matchId r) (pw_winner r) (Sent_number (pw_amount r))
    (pw_currency r) (Sent_number (pw_platformFee r)).

(** *** Sample data *)

Definition text_winnings : winningsBody :=
  mkWinningsBody "match_0123abcd" "alice" (Sent_text "16" 16) "INR" (Sent_text "4" 4).

End WalletBody.

(** ** match.js *)

Module Match.
Import Js.

(** *** Scores

    A stored score is [Math.max(0, parseInt(score))]: NaN, +Infinity or a
    non-negative integer-valued number.  On integer-valued numbers the sign of
    a difference and [===] are those of the integers, which is all the
    handlers use of a score, so scores are integers extended with NaN and the
    infinities. *)
Inductive jsint :=
| NaN
| NegInf
| Int (n : Z)
| PosInf.

(** [Math.max(0, x)] *)
Definition Math_max0 (x : jsint) : jsint :=
  match x with
  | NaN => NaN
  | NegInf => Int 0
  | Int n => Int (Z.max 0 n)
  | PosInf => PosInf
  end.

(** [x - y]; between integers the sign of the result is exact. *)
Definition sub (x y : jsint) : jsint :=
  match x, y with
  | NaN, _ | _, NaN => NaN
  | PosInf, PosInf | NegInf, NegInf => NaN
  | PosInf, _ | _, NegInf => PosInf
  | NegInf, _ | _, PosInf => NegInf
  | Int a, Int b => Int (a - b)
  end.

(** [x > y] *)
Definition gt (x y : jsint) : bool :=
  match x, y with
  | NaN, _ | _, NaN => false
  | PosInf, PosInf | NegInf, NegInf => false
  | PosInf, _ | _, NegInf => true
  | NegInf, _ | _, PosInf => false
  | Int a, Int b => b <? a
  end.

(** [x === y] *)
Definition strictEq (x y : jsint) : bool :=
  match x, y with
  | Int a, Int b => a =? b
  | PosInf, PosInf | NegInf, NegInf => true
  | _, _ => false
  end.

(** *** Stable sort *)

Section Sort.
Context {A : Type} (comparefn : A -> A -> jsint).

(** [Array.prototype.sort] is stable, and a comparator result that is NaN
    counts as 0: an element moves in front of an earlier one only when the
    comparator of the earlier and the later one is positive. *)
Fixpoint sort_insert (x : A) (l : list A) : list A :=
  match l with
  | [] => [x]
  | y :: t => if gt (comparefn x y) (Int 0) then y :: sort_insert x t else x :: y :: t
  end.

Fixpoint sort (l : list A) : list A :=
  match l with
  | [] => []
  | x :: t => sort_insert x (sort t)
  end.

End Sort.

(** *** Data

    The WebSocket handlers only attach a socket to a player of an active
    match and mark a player as disconnected; sockets are not part of the
    model. *)

Record payoutSplit := mkSplit {
  winner : float;
  platform : float
}.

Record gameConfig := mkConfig {
  name : string;
  duration : Z;
  maxPlayers : Z;
  betAmount : float;
  split : payoutSplit
}.

Definition GAME_CONFIGS : list (string * gameConfig) :=
  [ ("chess", mkConfig "Chess Master" 60 2 10 (mkSplit 16 4));
    ("snakeLadder", mkConfig "Snake & Ladder" 60 2 10 (mkSplit 16 4));
    ("carrom", mkConfig "Carrom Board" 60 2 10 (mkSplit 16 4)) ]%float.

Record player := mkPlayer {
  p_id : string;
  p_score : jsint;
  p_status : string;
  p_lastUpdate : option Z
}.

Record payoutEntry := mkPayout {
  playerId : string;
  amount : float;
  kind : string
}.

Record result := mkResult {
  r_type : string;
  r_winner : option string;
  r_winnerScore : option jsint;
  r_loserScore : option jsint;
  r_payouts : list payoutEntry;
  r_platformEarnings : float;
  r_reason : option string
}.

Record match_ := mkMatch {
  m_id : string;
  m_gameType : string;
  m_currency : string;
  m_betAmount : float;
  m_players : list player;
  m_status : string;
  m_startTime : Z;
  m_duration : Z;
  m_payout : payoutSplit;
  m_endTime : option Z;
  m_result : option result;
  m_cancelReason : option string;
  m_cancelledBy : option string
}.

Record waiter := mkWaiter {
  wt_id : string;
  wt_timestamp : Z
}.

Record state := mkState {
  activeMatches : omap match_;
  waitingPlayers : gmap string (list waiter);
  matchHistory : gmap string match_
}.

Definition initial : state := mkState [] ∅ ∅.

(** ['match_' + uuidv4().substring(0, 8)] *)
Definition generateMatchId (uuid : string) : string :=
  "match_" +:+ String.substring 0 8 uuid.

Definition isAlnum (c : Ascii.ascii) : bool :=
  let n := Ascii.nat_of_ascii c in
  ((48 <=? n) && (n <=? 57) || (65 <=? n) && (n <=? 90)
   || (97 <=? n) && (n <=? 122))%nat.

(** [param('matchId').matches(/^match_[a-zA-Z0-9]{8}$/)] *)
Definition validMatchId (mid : string) : bool :=
  String.eqb (String.substring 0 6 mid) "match_"
  && (String.length mid =? 14)%nat
  && forallb isAlnum (String.list_ascii_of_string (String.substring 6 8 mid)).

Definition inMatch (pid : string) (m : match_) : bool :=
  existsb (fun p => String.eqb (p_id p) pid) (m_players m).

(** *** POST /find *)

Record findReq := mkFindReq {
  f_gameType : string;
  f_playerId : string;
  f_currency : option string
}.

Inductive findInfo :=
| Existing (matchId status : string)
| Found (matchId gameType opponent : string) (bet : float) (cur : string)
| Waiting (queuePosition : nat).

Definition gameTypes : list string := ["chess"; "snakeLadder"; "carrom"].

Definition find_valid (r : findReq) : bool :=
  Js.includes gameTypes (f_gameType r)
  && Js.nonEmpty (f_playerId r)
  && match f_currency r with
     | None => true
     | Some c => Js.includes Currency.keys c
     end.

Definition waitingKey (gameType cur : string) : string :=
  gameType +:+ "_" +:+ cur.

(** The lookup and [shift] on the waiting list of a key: the opponent, if
    any, and the map without it (an emptied list is deleted). *)
Definition takeOpponent (key : string) (wp : gmap string (list waiter))
  : option waiter * gmap string (list waiter) :=
  match wp !! key with
  | Some (o :: rest) =>
      (Some o, match rest with [] => delete key wp | _ => <[key := rest]> wp end)
  | _ => (None, wp)
  end.

Definition find (now : Z) (uuid : string) (r : findReq) (s : state)
  : state * response findInfo :=
  if negb (find_valid r) then (s, Err 400 "Validation failed")
  else
    let cur := default "INR" (f_currency r) in
    match List.find (inMatch (f_playerId r)) (omap_values (activeMatches s)) with
    | Some existing => (s, Ok (Existing (m_id existing) (m_status existing)))
    | None =>
        let key := waitingKey (f_gameType r) cur in
        match takeOpponent key (waitingPlayers s) with
        | (Some opponent, wp) =>
            match omap_get (f_gameType r) GAME_CONFIGS with
            | None =>
                (mkState (activeMatches s) wp (matchHistory s),
                 Err 500 "MATCH_FIND_ERROR")
            | Some gameConfig =>
                let matchId := generateMatchId uuid in
                let betAmountConverted := convertCurrency (betAmount gameConfig) "INR" cur in
                let m :=
                  mkMatch matchId (f_gameType r) cur betAmountConverted
                    [ mkPlayer (f_playerId r) (Int 0) "connected" None;
                      mkPlayer (wt_id opponent) (Int 0) "connected" None ]
                    "starting" now (duration gameConfig)
                    (mkSplit (convertCurrency (winner (split gameConfig)) "INR" cur)
                             (convertCurrency (platform (split gameConfig)) "INR" cur))
                    None None None None in
                (mkState (omap_set matchId m (activeMatches s)) wp (matchHistory s),
                 Ok (Found matchId (f_gameType r) (wt_id opponent) betAmountConverted cur))
            end
        | (None, wp) =>
            let l := (default [] (wp !! key) ++ [mkWaiter (f_playerId r) now])%list in
            (mkState (activeMatches s) (<[key := l]> wp) (matchHistory s),
             Ok (Waiting (length l)))
        end
    end.

(** *** POST /:matchId/score *)

Definition setScore (pid : string) (sc : jsint) (now : Z) : list player -> list player :=
  fix go (ps : list player) : list player :=
    match ps with
    | [] => []
    | p :: t =>
        if String.eqb (p_id p) pid
        then mkPlayer (p_id p) sc (p_status p) (Some now) :: t
        else p :: go t
    end.

Definition with_players (ps : list player) (m : match_) : match_ :=
  mkMatch (m_id m) (m_gameType m) (m_currency m) (m_betAmount m) ps (m_status m)
    (m_startTime m) (m_duration m) (m_payout m) (m_endTime m) (m_result m)
    (m_cancelReason m) (m_cancelledBy m).

(** [parsed] is [parseInt(score)] of a body score that passed [isNumeric]. *)
Definition submitScore (now : Z) (mid pid : string) (parsed : jsint) (s : state)
  : state * response string :=
  if negb (validMatchId mid && Js.nonEmpty pid) then (s, Err 400 "Validation failed")
  else
    match omap_get mid (activeMatches s) with
    | None => (s, Err 404 "MATCH_NOT_FOUND")
    | Some m =>
        if negb (inMatch pid m) then (s, Err 403 "PLAYER_NOT_IN_MATCH")
        else
          let m' := with_players (setScore pid (Math_max0 parsed) now (m_players m)) m in
          (mkState (omap_set mid m' (activeMatches s)) (waitingPlayers s) (matchHistory s),
           Ok (m_status m'))
    end.

(** *** POST /:matchId/complete *)

Definition settle (m : match_) (w l : player) : result :=
  if strictEq (p_score w) (p_score l) then
    mkResult "draw" None None None
      [ mkPayout (p_id w) (m_betAmount m) "refund";
        mkPayout (p_id l) (m_betAmount m) "refund" ]
      0 None
  else
    mkResult "win" (Some (p_id w)) (Some (p_score w)) (Some (p_score l))
      [ mkPayout (p_id w) (winner (m_payout m)) "win";
        mkPayout (p_id l) 0 "loss" ]
      (platform (m_payout m)) None.

Definition finish (status : string) (now : Z) (res : result)
  (reason by_ : option string) (m : match_) : match_ :=
  mkMatch (m_id m) (m_gameType m) (m_currency m) (m_betAmount m) (m_players m)
    status (m_startTime m) (m_duration m) (m_payout m) (Some now) (Some res)
    reason by_.

Definition complete (now : Z) (mid : string) (s : state) : state * response result :=
  if negb (validMatchId mid) then (s, Err 400 "Validation failed")
  else
    match omap_get mid (activeMatches s) with
    | None => (s, Err 404 "MATCH_NOT_FOUND")
    | Some m =>
        if String.eqb (m_status m) "completed"
        then (s, Err 400 "MATCH_ALREADY_COMPLETED")
        else
          let sortedPlayers :=
            sort (fun a b => sub (p_score b) (p_score a)) (m_players m) in
          match sortedPlayers with
          | w :: l :: _ =>
              let res := settle m w l in
              let m' := finish "completed" now res (m_cancelReason m) (m_cancelledBy m) m in
              (mkState (omap_delete mid (activeMatches s)) (waitingPlayers s)
                 (<[mid := m']> (matchHistory s)),
               Ok res)
          | _ => (s, Err 500 "MATCH_COMPLETE_ERROR")
          end
    end.

(** *** POST /:matchId/cancel *)

Definition cancel (now : Z) (mid pid : string) (why : option string) (s : state)
  : state * response (list payoutEntry) :=
  if negb (validMatchId mid && Js.nonEmpty pid
           && (String.length (default "" why) <=? 200)%nat)
  then (s, Err 400 "Validation failed")
  else
    let reason := default "Player cancelled" why in
    match omap_get mid (activeMatches s) with
    | None => (s, Err 404 "MATCH_NOT_FOUND")
    | Some m =>
        if negb (inMatch pid m) then (s, Err 403 "PLAYER_NOT_IN_MATCH")
        else
          let refunds :=
            map (fun p => mkPayout (p_id p) (m_betAmount m) "refund") (m_players m) in
          let res := mkResult "cancelled" None None None refunds 0 (Some reason) in
          let m' := finish "cancelled" now res (Some reason) (Some pid) m in
          (mkState (omap_delete mid (activeMatches s)) (waitingPlayers s)
             (<[mid := m']> (matchHistory s)),
           Ok refunds)
    end.

(** *** Runs of the module *)

Inductive event :=
| Find (now : Z) (uuid : string) (r : findReq)
| Score (now : Z) (mid pid : string) (parsed : jsint)
| Complete (now : Z) (mid : string)
| Cancel (now : Z) (mid pid : string) (why : option string).

Definition step (e : event) (s : state) : state :=
  match e with
  | Find now uuid r => fst (find now uuid r s)
  | Score now mid pid sc => fst (submitScore now mid pid sc s)
  | Complete now mid => fst (complete now mid s)
  | Cancel now mid pid why => fst (cancel now mid pid why s)
  end.

Definition run (es : list event) (s : state) : state :=
  fold_left (fun s e => step e s) es s.

(** *** Derived notions and sample data *)

(** The match object [/find] stores for a validated request and the opponent
    it took from the waiting list; the three game configurations share their
    amounts and duration. *)
Definition newMatch (now : Z) (uuid : string) (r : findReq) (o : waiter) : match_ :=
  let cur := default "INR" (f_currency r) in
  mkMatch (generateMatchId uuid) (f_gameType r) cur (convertCurrency 10 "INR" cur)
    [ mkPlayer (f_playerId r) (Int 0) "connected" None;
      mkPlayer (wt_id o) (Int 0) "connected" None ]
    "starting" now 60
    (mkSplit (convertCurrency 16 "INR" cur) (convertCurrency 4 "INR" cur))
    None None None None.

(** The shape every match is created with: two players, the configured
    duration and the converted bet. *)
Definition twoPlayerSession (m : match_) : Prop :=
  length (m_players m) = 2%nat
  ∧ m_duration m = 60
  ∧ m_betAmount m = convertCurrency 10 "INR" (m_currency m).

(** The matches held by [activeMatches] and [matchHistory]. *)
Definition stored (s : state) (m : match_) : Prop :=
  m ∈ omap_values (activeMatches s) ∨ ∃ k, matchHistory s !! k = Some m.

Definition allSessions (s : state) : Prop :=
  ∀ m, stored s m -> twoPlayerSession m.

(** An amount in hundredths. *)
Definition cents (x : float) : float := Js.Math_round (x * 100).

Definition sample_match : match_ :=
  mkMatch "match_0123abcd" "chess" "INR" 10
    [ mkPlayer "alice" (Int 7) "connected" None;
      mkPlayer "bob" (Int 3) "connected" None ]
    "starting" 0 60 (mkSplit 16 4) None None None None.

Definition chess (pid : string) (cur : option string) : findReq :=
  mkFindReq "chess" pid cur.

Definition two_finds : list event :=
  [ Find 1 "" (chess "alice" None); Find 2 "0123abcd-e89b" (chess "bob" None) ].

(** *** Reads and broadcasts *)

(** [broadcastToMatch(matchId, data)]: the players the message is sent to,
    those of the active match whose [ws] is set and OPEN; nobody when the id
    is not in [activeMatches].  A socket is attached to a player object by
    [handleWebSocket] on a [join_match] message, outside the HTTP handlers:
    [open i] says whether the [i]-th player object of the match holds an open
    socket at the time of the call. *)
Fixpoint recipients (open : nat -> bool) (i : nat) (ps : list player) : list player :=
  match ps with
  | [] => []
  | p :: t =>
      if open i then p :: recipients open (S i) t else recipients open (S i) t
  end.

Definition broadcastToMatch (open : nat -> bool) (mid : string) (s : state)
  : list player :=
  match omap_get mid (activeMatches s) with
  | Some m => recipients open 0 (m_players m)
  | None => []
  end.

(** An event that cannot store a match under [mid]: every event but a
    [/find] whose generated id is [mid]. *)
Definition avoids (mid : string) (e : event) : bool :=
  match e with
  | Find _ uuid _ => negb (String.eqb (generateMatchId uuid) mid)
  | _ => true
  end.

Record statusInfo := mkStatusInfo {
  si_id : string;
  si_gameType : string;
  si_status : string;
  si_players : list (string * jsint * string);
  si_startTime : Z;
  si_timeRemaining : Z;
  si_betAmount : float;
  si_currency : string
}.

(** GET /:matchId/status.  Times are integral milliseconds. *)
Definition matchStatus (now : Z) (mid : string) (s : state) : response statusInfo :=
  if negb (validMatchId mid) then Err 400 "Validation failed"
  else
    match omap_get mid (activeMatches s) with
    | None => Err 404 "MATCH_NOT_FOUND"
    | Some m =>
        Ok (mkStatusInfo (m_id m) (m_gameType m) (m_status m)
              (map (fun p => (p_id p, p_score p, p_status p)) (m_players m))
              (m_startTime m)
              (Z.max 0 (m_startTime m + m_duration m * 1000 - now))
              (m_betAmount m) (m_currency m))
    end.

(** *** Consistency of the stores *)

(** The scores [Math.max(0, x)] can give. *)
Definition storable (sc : jsint) : Prop :=
  match sc with
  | NaN | PosInf => True
  | Int n => 0 <= n
  | NegInf => False
  end.

(** What the three maps hold in every state the handlers reach. *)
Record Consistent (s : state) : Prop := mkConsistent {
  cons_keys : NoDup (map fst (activeMatches s));
  cons_active : ∀ k m, omap_get k (activeMatches s) = Some m ->
    m_id m = k ∧ m_status m = "starting" ∧ m_result m = None ∧ m_endTime m = None;
  cons_history : ∀ k m, matchHistory s !! k = Some m ->
    m_id m = k ∧ (m_status m = "completed" ∨ m_status m = "cancelled")
    ∧ is_Some (m_result m) ∧ is_Some (m_endTime m);
  cons_waiting : ∀ key l, waitingPlayers s !! key = Some l -> length l = 1%nat;
  cons_scores : ∀ m, stored s m -> Forall (fun p => storable (p_score p)) (m_players m)
}.

End Match.

(** ** withdrawal.js *)

Module Withdrawal.

Inductive status :=
| pending_approval
| approved
| processing
| completed
| failed
| cancelled.

#[global] Instance status_eq_dec : EqDecision status.
Proof. solve_decision. Defined.

Record withdrawal := mkWithdrawal {
  id : string;
  userId : string;
  amount : float;
  netAmount : float;
  processingFee : float;
  currency : string;
  withdrawalMethod : string;
  wstatus : status;
  kycStatus : string;
  timestamp : Z;
  estimatedCompletion : Z;
  processingTime : string;
  queuePosition : option nat;
  priority : option string;
  approvedAt : option Z;
  approvedBy : option string;
  adminNotes : option string;
  processingStarted : option Z;
  gatewayReference : option string;
  completedAt : option Z;
  failedAt : option Z;
  failureReason : option string;
  cancelledAt : option Z;
  cancelReason : option string;
  cancelledBy : option string
}.

(** *** Configuration *)

Definition minAmount : list (string * float) :=
  [ ("INR", 100); ("USD", 5); ("EUR", 5); ("GBP", 4); ("CNY", 30);
    ("JPY", 500); ("KRW", 6000); ("BRL", 25); ("RUB", 350); ("AED", 18);
    ("SAR", 19); ("CAD", 7); ("AUD", 7) ]%float.

Definition maxAmount : list (string * float) :=
  [ ("INR", 200000); ("USD", 2500); ("EUR", 2200); ("GBP", 1900);
    ("CNY", 17000); ("JPY", 350000); ("KRW", 3200000); ("BRL", 13000);
    ("RUB", 180000); ("AED", 9200); ("SAR", 9400); ("CAD", 3300);
    ("AUD", 3600) ]%float.

Definition processingFees : list (string * float) :=
  [ ("UPI", 0); ("BankTransfer", 0); ("Cards", 0.02); ("PIX", 0.01);
    ("Alipay", 0.015); ("PayPal", 0.035) ]%float.

Definition processingTimes : list (string * string) :=
  [ ("UPI", "2-4 hours"); ("BankTransfer", "6-24 hours"); ("Cards", "3-7 days");
    ("PIX", "1-2 hours"); ("Alipay", "2-6 hours"); ("PayPal", "24-48 hours") ].

Definition getProcessingTimeMs (method : string) : Z :=
  let times :=
    [ ("UPI", 4 * 60 * 60 * 1000); ("BankTransfer", 24 * 60 * 60 * 1000);
      ("Cards", 7 * 24 * 60 * 60 * 1000); ("PIX", 2 * 60 * 60 * 1000);
      ("Alipay", 6 * 60 * 60 * 1000); ("PayPal", 48 * 60 * 60 * 1000) ] in
  default (24 * 60 * 60 * 1000) (Js.omap_get method times).

(** A table entry inside an arithmetic expression or a comparison: a missing
    key is [undefined], that is NaN. *)
Definition num (k : string) (t : list (string * float)) : float :=
  default PrimFloat.nan (Js.omap_get k t).

(** *** Stores

    The route handlers and the payment callback share withdrawal objects:
    [/request] stores one object in [withdrawalRequests] and a spread copy of
    it in [processingQueue], [/approve] moves the copy into
    [withdrawalRequests] and hands it to [processPayment], whose timer
    mutates it later.  Objects live in a heap and the three maps and the
    pending timers hold addresses. *)
Definition addr := nat.

Record state := mkState {
  heap : list withdrawal;
  withdrawalRequests : gmap string addr;
  processingQueue : gmap string addr;
  completedWithdrawals : gmap string addr;
  timers : list addr
}.

Definition initial : state := mkState [] ∅ ∅ ∅ [].

(** ['wd_' + uuidv4().substring(0, 12)]; [uuid] is the string the uuid
    package returned.  The function is defined on every string;
    [uuid_text] below singles out the texts [uuidv4()] returns, and what is
    proved of the running program is proved for those. *)
Definition generateWithdrawalId (uuid : string) : string :=
  "wd_" +:+ String.substring 0 12 uuid.

(** [param('withdrawalId').matches(/^wd_[a-zA-Z0-9]{12}$/)] *)
Definition validWithdrawalId (wid : string) : bool :=
  String.eqb (String.substring 0 3 wid) "wd_"
  && (String.length wid =? 15)%nat
  && forallb Match.isAlnum (String.list_ascii_of_string (String.substring 3 12 wid)).

(** *** POST /request *)

Record requestReq := mkRequestReq {
  q_userId : string;
  q_amount : float;
  q_currency : string;
  q_withdrawalMethod : string;
  (** the result of [validateBankDetails] on the body's [withdrawalDetails] *)
  q_detailsValid : bool;
  q_kycStatus : option string
}.

Record requestInfo := mkRequestInfo {
  ri_withdrawalId : string;
  ri_status : status;
  ri_amount : float;
  ri_netAmount : float;
  ri_processingFee : float
}.

Definition request_valid (r : requestReq) : bool :=
  Js.nonEmpty (q_userId r)
  && Js.isFloat_min 1 (q_amount r)
  && Js.includes Currency.keys (q_currency r)
  && Js.includes ["UPI"; "BankTransfer"; "Cards"; "PIX"; "Alipay"; "PayPal"]
       (q_withdrawalMethod r)
  && match q_kycStatus r with
     | None => true
     | Some k => Js.includes ["pending"; "verified"; "rejected"] k
     end.

(** The objects [withdrawalRequests.values()] yields. *)
Definition requestObjects (s : state) : list withdrawal :=
  omap (fun '(_, a) => heap s !! a) (map_to_list (withdrawalRequests s)).

Definition recentRequests (now : Z) (uid : string) (s : state) : list withdrawal :=
  filter (fun w => String.eqb (userId w) uid
                   && (now - 60 * 60 * 1000 <? timestamp w)
                   && negb (bool_decide (wstatus w = cancelled)))
    (requestObjects s).

Definition request (now : Z) (uuid : string) (r : requestReq) (s : state)
  : state * response requestInfo :=
  if negb (request_valid r) then (s, Err 400 "Validation failed")
  else
    let kyc := default "pending" (q_kycStatus r) in
    if (q_amount r <? num (q_currency r) minAmount)%float
       || (num (q_currency r) maxAmount <? q_amount r)%float
    then (s, Err 400 "AMOUNT_OUT_OF_RANGE")
    else
      let amountInINR := convertCurrency (q_amount r) (q_currency r) "INR" in
      if (10000 <? amountInINR)%float && negb (String.eqb kyc "verified")
      then (s, Err 400 "KYC_REQUIRED")
      else if negb (q_detailsValid r)
      then (s, Err 400 "INVALID_WITHDRAWAL_DETAILS")
      else if (2 <=? length (recentRequests now (q_userId r) s))%nat
      then (s, Err 429 "WITHDRAWAL_FREQUENCY_EXCEEDED")
      else
        let feeRate := num (q_withdrawalMethod r) processingFees in
        let fee := (Js.Math_round (q_amount r * feeRate * 100) / 100)%float in
        let net := (q_amount r - fee)%float in
        let wid := generateWithdrawalId uuid in
        let w :=
          mkWithdrawal wid (q_userId r) (q_amount r) net fee (q_currency r)
            (q_withdrawalMethod r) pending_approval kyc now
            (now + getProcessingTimeMs (q_withdrawalMethod r))
            (default "" (Js.omap_get (q_withdrawalMethod r) processingTimes))
            None None None None None None None None None None None None None in
        let queued :=
          mkWithdrawal wid (q_userId r) (q_amount r) net fee (q_currency r)
            (q_withdrawalMethod r) pending_approval kyc now
            (estimatedCompletion w) (processingTime w)
            (Some (size (processingQueue s) + 1)%nat)
            (Some (if (50000 <? amountInINR)%float then "high" else "normal"))
            None None None None None None None None None None None in
        let a := length (heap s) in
        (mkState (heap s ++ [w; queued])
           (<[wid := a]> (withdrawalRequests s))
           (<[wid := S a]> (processingQueue s))
           (completedWithdrawals s) (timers s),
         Ok (mkRequestInfo wid pending_approval (q_amount r) net fee)).

(** *** POST /:withdrawalId/cancel *)

Definition cancelled_by (now : Z) (reason uid : string) (w : withdrawal) : withdrawal :=
  mkWithdrawal (id w) (userId w) (amount w) (netAmount w) (processingFee w)
    (currency w) (withdrawalMethod w) cancelled (kycStatus w) (timestamp w)
    (estimatedCompletion w) (processingTime w) (queuePosition w) (priority w)
    (approvedAt w) (approvedBy w) (adminNotes w) (processingStarted w)
    (gatewayReference w) (completedAt w) (failedAt w) (failureReason w)
    (Some now) (Some reason) (Some uid).

(** [withdrawalRequests.get(id) || processingQueue.get(id)] *)
Definition findForCancel (wid : string) (s : state) : option addr :=
  match withdrawalRequests s !! wid with
  | Some a => Some a
  | None => processingQueue s !! wid
  end.

Definition cancel (now : Z) (wid uid : string) (why : option string) (s : state)
  : state * response status :=
  if negb (validWithdrawalId wid && Js.nonEmpty uid
           && (String.length (default "" why) <=? 200)%nat)
  then (s, Err 400 "Validation failed")
  else
    let reason := default "User cancelled" why in
    match findForCancel wid s with
    | None => (s, Err 404 "WITHDRAWAL_NOT_FOUND")
    | Some a =>
        match heap s !! a with
        | None => (s, Err 404 "WITHDRAWAL_NOT_FOUND")
        | Some w =>
            if negb (String.eqb (userId w) uid)
            then (s, Err 403 "UNAUTHORIZED_CANCELLATION")
            else if negb (bool_decide (wstatus w = pending_approval))
                    && negb (bool_decide (wstatus w = approved))
            then (s, Err 400 "CANCELLATION_NOT_ALLOWED")
            else
              (mkState (<[a := cancelled_by now reason uid w]> (heap s))
                 (delete wid (withdrawalRequests s))
                 (delete wid (processingQueue s))
                 (<[wid := a]> (completedWithdrawals s))
                 (timers s),
               Ok cancelled)
        end
    end.

(** *** POST /admin/:withdrawalId/approve and [processPayment] *)

Definition approved_by (now : Z) (admin notes : string) (w : withdrawal) : withdrawal :=
  mkWithdrawal (id w) (userId w) (amount w) (netAmount w) (processingFee w)
    (currency w) (withdrawalMethod w) approved (kycStatus w) (timestamp w)
    (estimatedCompletion w) (processingTime w) (queuePosition w) (priority w)
    (Some now) (Some admin) (Some notes) (processingStarted w)
    (gatewayReference w) (completedAt w) (failedAt w) (failureReason w)
    (cancelledAt w) (cancelReason w) (cancelledBy w).

Definition processing_started (now : Z) (ref : string) (w : withdrawal) : withdrawal :=
  mkWithdrawal (id w) (userId w) (amount w) (netAmount w) (processingFee w)
    (currency w) (withdrawalMethod w) processing (kycStatus w) (timestamp w)
    (estimatedCompletion w) (processingTime w) (queuePosition w) (priority w)
    (approvedAt w) (approvedBy w) (adminNotes w) (Some now)
    (Some ref) (completedAt w) (failedAt w) (failureReason w)
    (cancelledAt w) (cancelReason w) (cancelledBy w).

(** The synchronous part of [processPayment]: the object at [a] enters
    [processing] and the gateway timer is set. *)
Definition processPayment (now : Z) (uuid : string) (a : addr) (s : state) : state :=
  match heap s !! a with
  | None => s
  | Some w =>
      mkState
        (<[a := processing_started now ("gw_" +:+ String.substring 0 12 uuid) w]> (heap s))
        (withdrawalRequests s) (processingQueue s) (completedWithdrawals s)
        (timers s ++ [a])
  end.

Definition approve (now : Z) (uuid : string) (wid admin : string)
  (notes : option string) (s : state) : state * response status :=
  if negb (validWithdrawalId wid && Js.nonEmpty admin
           && (String.length (default "" notes) <=? 500)%nat)
  then (s, Err 400 "Validation failed")
  else
    match processingQueue s !! wid with
    | None => (s, Err 404 "WITHDRAWAL_NOT_IN_QUEUE")
    | Some a =>
        match heap s !! a with
        | None => (s, Err 404 "WITHDRAWAL_NOT_IN_QUEUE")
        | Some w =>
            let s1 :=
              mkState (<[a := approved_by now admin (default "" notes) w]> (heap s))
                (<[wid := a]> (withdrawalRequests s))
                (delete wid (processingQueue s))
                (completedWithdrawals s) (timers s) in
            (processPayment now uuid a s1, Ok approved)
        end
    end.

(** *** The gateway timer of [processPayment] *)

Definition payment_settled (now : Z) (isSuccess : bool) (w : withdrawal) : withdrawal :=
  if isSuccess then
    mkWithdrawal (id w) (userId w) (amount w) (netAmount w) (processingFee w)
      (currency w) (withdrawalMethod w) completed (kycStatus w) (timestamp w)
      (estimatedCompletion w) (processingTime w) (queuePosition w) (priority w)
      (approvedAt w) (approvedBy w) (adminNotes w) (processingStarted w)
      (gatewayReference w) (Some now) (failedAt w) (failureReason w)
      (cancelledAt w) (cancelReason w) (cancelledBy w)
  else
    mkWithdrawal (id w) (userId w) (amount w) (netAmount w) (processingFee w)
      (currency w) (withdrawalMethod w) failed (kycStatus w) (timestamp w)
      (estimatedCompletion w) (processingTime w) (queuePosition w) (priority w)
      (approvedAt w) (approvedBy w) (adminNotes w) (processingStarted w)
      (gatewayReference w) (completedAt w) (Some now)
      (Some "Gateway processing error")
      (cancelledAt w) (cancelReason w) (cancelledBy w).

(** The callback of the [k]-th pending timer; [random] is the value of
    [Math.random()]. *)
Definition paymentTimerFires (now : Z) (k : nat) (random : float) (s : state) : state :=
  match timers s !! k with
  | None => s
  | Some a =>
      match heap s !! a with
      | None => s
      | Some w =>
          let isSuccess := (0.1 <? random)%float in
          mkState (<[a := payment_settled now isSuccess w]> (heap s))
            (delete (id w) (withdrawalRequests s))
            (processingQueue s)
            (<[id w := a]> (completedWithdrawals s))
            (delete k (timers s))
      end
  end.

(** *** Runs of the module *)

Inductive event :=
| Request (now : Z) (uuid : string) (r : requestReq)
| Cancel (now : Z) (wid uid : string) (why : option string)
| Approve (now : Z) (uuid : string) (wid admin : string) (notes : option string)
| PaymentTimer (now : Z) (k : nat) (random : float).

Definition step (e : event) (s : state) : state :=
  match e with
  | Request now uuid r => fst (request now uuid r s)
  | Cancel now wid uid why => fst (cancel now wid uid why s)
  | Approve now uuid wid admin notes => fst (approve now uuid wid admin notes s)
  | PaymentTimer now k random => paymentTimerFires now k random s
  end.

Definition run (es : list event) (s : state) : state :=
  fold_left (fun s e => step e s) es s.

Definition statusAt (a : addr) (s : state) : option status :=
  wstatus <$> heap s !! a.

(** *** Status moves and consistency of the stores *)

(** The moves of the status field: the sequence of the happy path and its
    failure, and the cancellation of a withdrawal that is not yet processed. *)
Inductive advance : status -> status -> Prop :=
| adv_approve : advance pending_approval approved
| adv_process : advance approved processing
| adv_complete : advance processing completed
| adv_fail : advance processing failed
| adv_cancel_pending : advance pending_approval cancelled
| adv_cancel_approved : advance approved cancelled.

(** What the maps and the timers hold in every state the handlers reach:
    queued objects are pending approval, the objects of the two id-keyed maps
    carry the id they are stored under, and every pending timer belongs to an
    object in processing, once. *)
Record Inv (s : state) : Prop := mkInv {
  inv_queue : ∀ k a, processingQueue s !! k = Some a ->
    ∃ w, heap s !! a = Some w ∧ id w = k ∧ wstatus w = pending_approval;
  inv_requests : ∀ k a, withdrawalRequests s !! k = Some a ->
    ∃ w, heap s !! a = Some w ∧ id w = k;
  inv_timers : ∀ a, a ∈ timers s ->
    ∃ w, heap s !! a = Some w ∧ wstatus w = processing;
  inv_nodup : NoDup (timers s)
}.

(** What holds of the objects themselves in every state the handlers reach:
    none rests in [approved], and each one in [processing] has its gateway
    timer pending. *)
Record Live (s : state) : Prop := mkLive {
  live_approved : ∀ a w, heap s !! a = Some w -> wstatus w ≠ approved;
  live_processing : ∀ a w, heap s !! a = Some w -> wstatus w = processing ->
    a ∈ timers s
}.

(** *** Ids of the running program *)

Definition isHex (c : Ascii.ascii) : bool :=
  let n := Ascii.nat_of_ascii c in
  ((48 <=? n) && (n <=? 57) || (97 <=? n) && (n <=? 102))%nat.

(** The character a version 4 uuid has at position [i]: a hyphen at 8, 13,
    18 and 23, the version digit 4 at 14, the variant digit 8, 9, a or b at
    19, and a lower-case hexadecimal digit elsewhere. *)
Definition uuid_char (i : nat) (c : Ascii.ascii) : bool :=
  let n := Ascii.nat_of_ascii c in
  (if (i =? 8) || (i =? 13) || (i =? 18) || (i =? 23) then n =? 45
   else if i =? 14 then n =? 52
   else if i =? 19 then (n =? 56) || (n =? 57) || (n =? 97) || (n =? 98)
   else isHex c)%nat.

Fixpoint uuid_chars (i : nat) (l : list Ascii.ascii) : bool :=
  match l with
  | [] => true
  | c :: t => uuid_char i c && uuid_chars (S i) t
  end.

(** The strings [uuidv4()] returns: 36 characters in the groups 8-4-4-4-12. *)
Definition uuid_text (u : string) : bool :=
  (String.length u =? 36)%nat && uuid_chars 0 (String.list_ascii_of_string u).

(** The events of the running program: the uuid strings that [/request] and
    [processPayment] draw are texts of [uuidv4()].  Ids, user ids, reasons
    and notes of the requests are whatever the client sends. *)
Definition genuine (e : event) : bool :=
  match e with
  | Request _ uuid _ => uuid_text uuid
  | Approve _ uuid _ _ _ => uuid_text uuid
  | _ => true
  end.

(** An event that does not store a request under [wid]: every event but a
    [/request] whose generated id is [wid]. *)
Definition keeps (wid : string) (e : event) : bool :=
  match e with
  | Request _ uuid _ => negb (String.eqb (generateWithdrawalId uuid) wid)
  | _ => true
  end.

(** The sequence of the specification: pending_approval -> approved ->
    processing -> completed | failed. *)
Inductive sequence : status -> status -> Prop :=
| seq_approve : sequence pending_approval approved
| seq_process : sequence approved processing
| seq_complete : sequence processing completed
| seq_fail : sequence processing failed.

(** What holds in every state the running program reaches: no id under which
    a withdrawal is stored passes the id pattern of [/cancel] and
    [/approve], nothing was completed, no gateway timer is pending, and every
    withdrawal is pending approval. *)
Record Pending (s : state) : Prop := mkPending {
  pend_requests : ∀ k a, withdrawalRequests s !! k = Some a ->
    validWithdrawalId k = false;
  pend_queue : ∀ k a, processingQueue s !! k = Some a ->
    validWithdrawalId k = false;
  pend_completed : completedWithdrawals s = ∅;
  pend_timers : timers s = [];
  pend_heap : ∀ a w, heap s !! a = Some w -> wstatus w = pending_approval
}.

(** *** GET /:withdrawalId/status *)

Record statusInfo := mkStatusInfo {
  si_id : string;
  si_status : status;
  si_amount : float;
  si_netAmount : float;
  si_currency : string;
  si_withdrawalMethod : string;
  si_timestamp : Z;
  si_estimatedCompletion : Z;
  si_processingTime : string;
  si_queuePosition : option nat;
  si_message : string;
  si_gatewayReference : option string;
  si_completedAt : option Z;
  si_failureReason : option string;
  si_cancelledAt : option Z;
  si_cancelReason : option string
}.

(** [withdrawalRequests.get(id) || processingQueue.get(id) ||
    completedWithdrawals.get(id)] *)
Definition findForStatus (wid : string) (s : state) : option addr :=
  match withdrawalRequests s !! wid with
  | Some a => Some a
  | None =>
      match processingQueue s !! wid with
      | Some a => Some a
      | None => completedWithdrawals s !! wid
      end
  end.

(** The fields the [switch] on the status adds to the response; a field it
    does not set, or sets to [undefined], is [None]. *)
Definition statusResponse (w : withdrawal) : statusInfo :=
  let base qp msg gw ca fr cla clr :=
    mkStatusInfo (id w) (wstatus w) (amount w) (netAmount w) (currency w)
      (withdrawalMethod w) (timestamp w) (estimatedCompletion w) (processingTime w)
      qp msg gw ca fr cla clr in
  match wstatus w with
  | pending_approval =>
      base (queuePosition w) "Withdrawal pending admin approval" None None None None None
  | approved =>
      base None "Withdrawal approved, processing payment" None None None None None
  | processing =>
      base None "Payment being processed by gateway" (gatewayReference w)
        None None None None
  | completed =>
      base None "Withdrawal completed successfully" (gatewayReference w)
        (completedAt w) None None None
  | failed =>
      base None "Withdrawal failed" None None (failureReason w) None None
  | cancelled =>
      base None "Withdrawal cancelled" None None None (cancelledAt w) (cancelReason w)
  end.

(** The route declares the id pattern but never reads the validation
    result, so every id reaches the lookup. *)
Definition withdrawalStatus (wid : string) (s : state) : response statusInfo :=
  match findForStatus wid s with
  | None => Err 404 "WITHDRAWAL_NOT_FOUND"
  | Some a =>
      match heap s !! a with
      | None => Err 404 "WITHDRAWAL_NOT_FOUND"
      | Some w => Ok (statusResponse w)
      end
  end.

(** *** Sample data *)

Definition sample_request : requestReq :=
  mkRequestReq "user_001" 500 "INR" "UPI" true None.

(** A text of [uuidv4()] and a run of the server with it. *)
Definition sample_uuid : string := "12345678-90ab-4cde-8f01-234567890abc".

Definition sample_run : list event :=
  [ Request 1 sample_uuid sample_request;
    Cancel 2 "wd_12345678-90a" "user_001" None;
    Approve 3 "9f8e7d6c-5b4a-4321-8fed-cba987654321" "wd_12345678-90a" "admin" None;
    Cancel 4 "wd_1234567890ab" "user_001" None;
    Approve 5 "9f8e7d6c-5b4a-4321-8fed-cba987654321" "wd_1234567890ab" "admin" None;
    PaymentTimer 6 0 0.5 ].

End Withdrawal.

(** ** index.js: the withdrawal processing script

    The script that settles approved withdrawals in batches.  It keeps its
    own queue of withdrawal objects, apart from the stores of
    [withdrawal.js].  The functions are modelled as they are written; the
    mail transport and the report file are outside the model, and
    [withdrawalDetails], which the functions pass on and never read, is left
    out of the objects. *)

Module Processor.

Record withdrawal := mkWithdrawal {
  id : string;
  userId : string;
  amount : float;
  currency : string;
  withdrawalMethod : string;
  status : string;
  approvedAt : Z;
  gateway : string;
  (** a count; [None] when the field is absent *)
  retryCount : option Z;
  processingStarted : option Z;
  completedAt : option Z;
  gatewayTransactionId : option string;
  processingTime : option Z;
  estimatedSettlement : option string;
  failedAt : option Z;
  failureReason : option string;
  nextRetryAt : option Z
}.

(** *** [PROCESSING_CONFIG] *)

Definition maxRetries : Z := 3.
Definition timeoutMs : Z := 30000.

Definition minAmount : list (string * float) :=
  [ ("INR", 100); ("USD", 5); ("EUR", 5) ]%float.

Definition maxAmount : list (string * float) :=
  [ ("INR", 200000); ("USD", 2500); ("EUR", 2200) ]%float.

(** A limit inside a comparison: a currency without an entry gives
    [undefined], which the comparison turns into NaN. *)
Definition limit (c : string) (t : list (string * float)) : float :=
  default PrimFloat.nan (Js.omap_get c t).

(** *** [PAYMENT_GATEWAYS]

    Each mock gateway waits [g_delay] milliseconds, draws [Math.random()]
    and resolves when the draw is above [g_threshold], rejects otherwise. *)
Record gatewayImpl := mkGateway {
  g_delay : Z;
  g_threshold : float;
  g_prefix : string;
  g_processingTime : Z;
  g_settlement : string;
  g_error : string
}.

Definition PAYMENT_GATEWAYS : list (string * gatewayImpl) :=
  [ ("razorpay", mkGateway 2000 0.05 "rzp_" 2000 "2-4 hours" "Gateway processing failed");
    ("stripe", mkGateway 3000 0.03 "str_" 3000 "3-7 business days"
       "Stripe processing failed");
    ("paypal", mkGateway 1500 0.02 "pp_" 1500 "24-48 hours" "PayPal processing failed") ]%float.

(** The names every object literal inherits: a lookup of one of them in
    [PAYMENT_GATEWAYS] gives a value that is truthy and has no
    [processWithdrawal]. *)
Definition inherited : list string :=
  [ "constructor"; "hasOwnProperty"; "isPrototypeOf"; "propertyIsEnumerable";
    "toLocaleString"; "toString"; "valueOf"; "__proto__"; "__defineGetter__";
    "__defineSetter__"; "__lookupGetter__"; "__lookupSetter__" ].

(** What one call of [processWithdrawal] draws from its environment: the
    value of [Math.random()], the text of
    [crypto.randomBytes(8).toString('hex')], and the values of [Date.now()]
    when processing starts, when the attempt is settled and when the retry is
    scheduled. *)
Record draw := mkDraw {
  d_random : float;
  d_hex : string;
  d_started : Z;
  d_settled : Z;
  d_scheduled : Z
}.

Inductive attempt :=
| Paid (txid : string) (time : Z) (settlement : string)
| Rejected (message : string).

(** [Promise.race] of the gateway and the timeout of [timeoutMs]. *)
Definition gatewayRun (g : gatewayImpl) (d : draw) : attempt :=
  if timeoutMs <? g_delay g then Rejected "Processing timeout"
  else if (g_threshold g <? d_random d)%float
  then Paid (g_prefix g +:+ d_hex d) (g_processingTime g) (g_settlement g)
  else Rejected (g_error g).

(** *** [processWithdrawal] *)

(** [{ success, withdrawal, error }], and the values written to
    [withdrawal.status] during the call, in order. *)
Record outcome := mkOutcome {
  o_success : bool;
  o_withdrawal : withdrawal;
  o_error : option string;
  o_trace : list string
}.

(** [!x] for a number. *)
Definition falsyNumber (x : float) : bool :=
  (x =? 0)%float || PrimFloat.is_nan x.

Definition started (d : draw) (w : withdrawal) : withdrawal :=
  mkWithdrawal (id w) (userId w) (amount w) (currency w) (withdrawalMethod w)
    "processing" (approvedAt w) (gateway w) (retryCount w) (Some (d_started d))
    (completedAt w) (gatewayTransactionId w) (processingTime w)
    (estimatedSettlement w) (failedAt w) (failureReason w) (nextRetryAt w).

Definition settled (d : draw) (txid : string) (time : Z) (settlement : string)
  (w : withdrawal) : withdrawal :=
  mkWithdrawal (id w) (userId w) (amount w) (currency w) (withdrawalMethod w)
    "completed" (approvedAt w) (gateway w) (retryCount w) (processingStarted w)
    (Some (d_settled d)) (Some txid) (Some time) (Some settlement)
    (failedAt w) (failureReason w) (nextRetryAt w).

(** The [catch] block, entered with the object as the [try] block left it
    and with the status writes [trace] made so far. *)
Definition failed_with (d : draw) (message : string) (trace : list string)
  (w : withdrawal) : outcome :=
  let n := default 0 (retryCount w) + 1 in
  if n <? maxRetries then
    mkOutcome false
      (mkWithdrawal (id w) (userId w) (amount w) (currency w) (withdrawalMethod w)
         "retry_scheduled" (approvedAt w) (gateway w) (Some n) (processingStarted w)
         (completedAt w) (gatewayTransactionId w) (processingTime w)
         (estimatedSettlement w) (Some (d_settled d)) (Some message)
         (Some (d_scheduled d + n * 60 * 60 * 1000)))
      (Some message) (trace ++ ["failed"; "retry_scheduled"])
  else
    mkOutcome false
      (mkWithdrawal (id w) (userId w) (amount w) (currency w) (withdrawalMethod w)
         "failed" (approvedAt w) (gateway w) (Some n) (processingStarted w)
         (completedAt w) (gatewayTransactionId w) (processingTime w)
         (estimatedSettlement w) (Some (d_settled d)) (Some message)
         (nextRetryAt w))
      (Some message) (trace ++ ["failed"]).

Definition processWithdrawal (d : draw) (w : withdrawal) : outcome :=
  if negb (Js.nonEmpty (id w)) || negb (Js.nonEmpty (userId w))
     || falsyNumber (amount w)
  then failed_with d "Invalid withdrawal data" [] w
  else if (amount w <? limit (currency w) minAmount)%float
          || (limit (currency w) maxAmount <? amount w)%float
  then failed_with d "Amount outside allowed limits" [] w
  else
    match Js.omap_get (gateway w) PAYMENT_GATEWAYS with
    | None =>
        if Js.includes inherited (gateway w)
        then failed_with d "gateway.processWithdrawal is not a function"
               ["processing"] (started d w)
        else failed_with d ("Unsupported gateway: " +:+ gateway w) [] w
    | Some g =>
        match gatewayRun g d with
        | Paid txid time settlement =>
            mkOutcome true (settled d txid time settlement (started d w)) None
              ["processing"; "completed"]
        | Rejected message => failed_with d message ["processing"] (started d w)
        end
    end.

(** *** The batch *)

(** [loadWithdrawalQueue]: the mock queue, of which the approved objects
    are taken. *)
Definition mockWithdrawals (now : Z) : list withdrawal :=
  [ mkWithdrawal "wd_1234567890ab" "user_001" 500 "INR" "UPI" "approved"
      (now - 300000) "razorpay" (Some 0)
      None None None None None None None None;
    mkWithdrawal "wd_2345678901bc" "user_002" 25 "USD" "PayPal" "approved"
      (now - 600000) "paypal" (Some 0)
      None None None None None None None None;
    mkWithdrawal "wd_3456789012cd" "user_003" 1000 "INR" "BankTransfer" "approved"
      (now - 900000) "razorpay" (Some 1)
      None None None None None None None None ].

Definition isApproved (w : withdrawal) : bool := String.eqb (status w) "approved".

Definition loadWithdrawalQueue (now : Z) : list withdrawal :=
  List.filter isApproved (mockWithdrawals now).

(** [processWithdrawals]: every object of the queue is handed to
    [processWithdrawal] once, [draws i] being what the call for the [i]-th
    object draws; the results are collected in the order of the queue. *)
Definition processWithdrawals (now : Z) (draws : nat -> draw) : list outcome :=
  imap (fun i w => processWithdrawal (draws i) w) (loadWithdrawalQueue now).

(** Whether a sequence of status writes puts the withdrawal into processing
    after it has failed. *)
Fixpoint reenters (seen_failed : bool) (trace : list string) : bool :=
  match trace with
  | [] => false
  | st :: t =>
      seen_failed && String.eqb st "processing"
      || reenters (seen_failed || String.eqb st "failed") t
  end.

(** *** Sample data *)

Definition failing_draw : draw := mkDraw 0.01 "00112233aabbccdd" 1000 3000 3001.

Definition paying_draw : draw := mkDraw 0.5 "00112233aabbccdd" 1000 3000 3001.

End Processor.

(** * Properties *)

(** ** Shared facts *)

Lemma includes_elem (l : list string) (x : string) :
  Js.includes l x = true -> x ∈ l.
Proof.
  unfold Js.includes. intros H.
  apply existsb_exists in H as (y & Hy & Heq).
  apply String.eqb_eq in Heq. subst y. by apply list_elem_of_In.
Qed.

Lemma convertCurrency_unfold (a : float) (f t : string) :
  convertCurrency a f t
  = (Js.Math_round (a / rate f * rate t * 100) / 100)%float.
Proof. reflexivity. Qed.

(** [Math.round] on halves, negative numbers and the largest number below
    one half, and a conversion that lands on a half. *)
Lemma Math_round_samples :
  map Js.Math_round [2.5; 0.5; -0.5; -2.5; -2.6; 0.49999999999999994; 19.2]%float
  = [3; 1; -0; -2; -3; 0; 19]%float
  ∧ convertCurrency 10 "INR" "GBP" = 0.1%float
  ∧ Js.isNaN (convertCurrency 500 "INR" "XYZ") = true.
Proof. by vm_compute. Qed.

(** ** match.js *)

Module MatchProofs.
Import Js Match.

Lemma omap_get_set_eq {V} (k : string) (v : V) (m : omap V) :
  omap_get k (omap_set k v m) = Some v.
Proof.
  induction m as [|[k' v'] m IH]; simpl.
  - by rewrite String.eqb_refl.
  - destruct (String.eqb k' k) eqn:E; simpl.
    + by rewrite String.eqb_refl.
    + by rewrite E.
Qed.

Lemma omap_get_set_ne {V} (k j : string) (v : V) (m : omap V) :
  k ≠ j -> omap_get j (omap_set k v m) = omap_get j m.
Proof.
  intros Hne. induction m as [|[k' v'] m IH]; simpl.
  - destruct (String.eqb k j) eqn:E; [|done].
    apply String.eqb_eq in E. contradiction.
  - destruct (String.eqb k' k) eqn:E; simpl.
    + apply String.eqb_eq in E. subst k'.
      destruct (String.eqb k j) eqn:E'; [|done].
      apply String.eqb_eq in E'. contradiction.
    + by rewrite IH.
Qed.

(** The comparator of [/complete] on two scores. *)
Lemma sort_two (p1 p2 : player) :
  sort (fun a b => sub (p_score b) (p_score a)) [p1; p2]
  = if gt (p_score p2) (p_score p1) then [p2; p1] else [p1; p2].
Proof.
  simpl. destruct (p_score p1) as [| |a|], (p_score p2) as [| |b|]; simpl; try done.
  destruct (0 <? b - a) eqn:E1, (a <? b) eqn:E2; try done; lia.
Qed.

Lemma gt_not_strictEq (x y : jsint) : gt x y = true -> strictEq x y = false.
Proof.
  destruct x as [| |a|], y as [| |b|]; simpl; try done.
  intros H. apply Z.ltb_lt in H. apply Z.eqb_neq. lia.
Qed.

Lemma gt_asym (x y : jsint) : gt x y = true -> gt y x = false.
Proof.
  destruct x as [| |a|], y as [| |b|]; simpl; try done.
  intros H. apply Z.ltb_lt in H. apply Z.ltb_ge. lia.
Qed.

Lemma strictEq_not_gt (x y : jsint) : strictEq x y = true -> gt y x = false.
Proof.
  destruct x as [| |a|], y as [| |b|]; simpl; try done.
  intros H. apply Z.eqb_eq in H. apply Z.ltb_ge. lia.
Qed.

(** The part of C1 that holds.  A match with the two players [p1] and [p2]
    that is completed through POST /:matchId/complete is settled by comparing
    the two scores when they can be compared:
    the player whose score strictly exceeds the other's is the winner, is
    paid [payout.winner] while the other is paid 0 and the platform earns
    [payout.platform]; with equal scores the result is a draw without a
    winner, both players are refunded [betAmount] and the platform earns 0.
    The match is stored in the history as completed with that result. *)
Theorem complete_settles_by_score (now : Z) (mid : string) (s : state)
    (m : match_) (p1 p2 : player) :
  validMatchId mid = true ->
  omap_get mid (activeMatches s) = Some m ->
  String.eqb (m_status m) "completed" = false ->
  m_players m = [p1; p2] ->
  ∃ res : result,
    snd (complete now mid s) = Ok res
    ∧ (∃ m', matchHistory (fst (complete now mid s)) !! mid = Some m'
             ∧ m_status m' = "completed" ∧ m_result m' = Some res)
    ∧ (gt (p_score p1) (p_score p2) = true ->
         r_type res = "win" ∧ r_winner res = Some (p_id p1)
         ∧ r_payouts res = [ mkPayout (p_id p1) (winner (m_payout m)) "win";
                             mkPayout (p_id p2) 0 "loss" ]
         ∧ r_platformEarnings res = platform (m_payout m))
    ∧ (gt (p_score p2) (p_score p1) = true ->
         r_type res = "win" ∧ r_winner res = Some (p_id p2)
         ∧ r_payouts res = [ mkPayout (p_id p2) (winner (m_payout m)) "win";
                             mkPayout (p_id p1) 0 "loss" ]
         ∧ r_platformEarnings res = platform (m_payout m))
    ∧ (strictEq (p_score p1) (p_score p2) = true ->
         r_type res = "draw" ∧ r_winner res = None
         ∧ r_payouts res = [ mkPayout (p_id p1) (m_betAmount m) "refund";
                             mkPayout (p_id p2) (m_betAmount m) "refund" ]
         ∧ r_platformEarnings res = 0%float).
Proof.
  intros Hid Hget Hst Hps.
  unfold complete. rewrite Hid, Hget, Hst, Hps, sort_two. cbn [negb].
  destruct (gt (p_score p2) (p_score p1)) eqn:G21; cbn [fst snd matchHistory].
  - (* the second player is ahead *)
    eexists. split; [reflexivity|]. split.
    { eexists. rewrite lookup_insert_eq. by split_and!. }
    unfold settle. rewrite (gt_not_strictEq _ _ G21). cbn.
    split_and!; [|done|].
    + intros G12. apply gt_asym in G12. congruence.
    + intros E. apply strictEq_not_gt in E. congruence.
  - eexists. split; [reflexivity|]. split.
    { eexists. rewrite lookup_insert_eq. by split_and!. }
    unfold settle. split_and!; [|done|].
    + intros G12. by rewrite (gt_not_strictEq _ _ G12).
    + intros E. by rewrite E.
Qed.

Lemma complete_settles_by_score_witness :
  ∃ res : result,
    snd (complete 5 "match_0123abcd"
           (mkState [("match_0123abcd", sample_match)] ∅ ∅)) = Ok res
    ∧ r_winner res = Some "alice".
Proof.
  destruct (complete_settles_by_score 5 "match_0123abcd"
              (mkState [("match_0123abcd", sample_match)] ∅ ∅) sample_match
              (mkPlayer "alice" (Int 7) "connected" None)
              (mkPlayer "bob" (Int 3) "connected" None))
    as (res & Hres & _ & Hwin & _); [reflexivity..|].
  exists res. split; [exact Hres|]. by apply Hwin.
Defined.

Lemma complete_draw_example :
  snd (complete 5 "match_0123abcd"
         (run (two_finds ++ [Score 3 "match_0123abcd" "bob" (Int 5);
                             Score 4 "match_0123abcd" "alice" (Int 5)]) initial))
  = Ok (mkResult "draw" None None None
          [mkPayout "bob" 10 "refund"; mkPayout "alice" 10 "refund"] 0 None).
Proof. by vm_compute. Qed.

(** C1 at its failing inputs.  A score posted as a numeral without an
    integer part, such as ".5", passes [isNumeric] and is stored as
    [Math.max(0, parseInt(score))], which is NaN.  When one of the two stored
    scores is NaN, neither score exceeds the other and the two are not equal;
    POST /:matchId/complete then declares the first-listed player the winner,
    pays that player [payout.winner] and the other 0, and the platform earns
    [payout.platform]: the result follows the order of the players, not a
    comparison of the scores. *)
Theorem complete_crowns_first_listed_player (now : Z) (mid : string) (s : state)
    (m : match_) (p1 p2 : player) :
  validMatchId mid = true ->
  omap_get mid (activeMatches s) = Some m ->
  String.eqb (m_status m) "completed" = false ->
  m_players m = [p1; p2] ->
  p_score p1 = NaN ∨ p_score p2 = NaN ->
  gt (p_score p1) (p_score p2) = false
  ∧ gt (p_score p2) (p_score p1) = false
  ∧ strictEq (p_score p1) (p_score p2) = false
  ∧ snd (complete now mid s)
    = Ok (mkResult "win" (Some (p_id p1)) (Some (p_score p1)) (Some (p_score p2))
            [ mkPayout (p_id p1) (winner (m_payout m)) "win";
              mkPayout (p_id p2) 0 "loss" ]
            (platform (m_payout m)) None).
Proof.
  intros Hid Hget Hst Hps Hnan.
  assert (H : gt (p_score p1) (p_score p2) = false
              ∧ gt (p_score p2) (p_score p1) = false
              ∧ strictEq (p_score p1) (p_score p2) = false).
  { destruct Hnan as [-> | ->]; [by destruct (p_score p2) | by destruct (p_score p1)]. }
  destruct H as (G12 & G21 & E). split_and!; [done..|].
  unfold complete. rewrite Hid, Hget, Hst, Hps, sort_two, G21. cbn [negb snd].
  unfold settle. by rewrite E.
Qed.

Lemma complete_crowns_first_listed_player_witness :
  let mid := "match_0123abcd" in
  let s1 := run (two_finds ++ [Score 3 mid "bob" NaN; Score 4 mid "alice" (Int 5)])
              initial in
  let s2 := run (two_finds ++ [Score 3 mid "bob" (Int 5); Score 4 mid "alice" NaN])
              initial in
  let s3 := run (two_finds ++ [Score 3 mid "bob" (Int 3); Score 4 mid "alice" (Int 5)])
              initial in
  snd (complete 5 mid s1)
  = Ok (mkResult "win" (Some "bob") (Some NaN) (Some (Int 5))
          [mkPayout "bob" 16 "win"; mkPayout "alice" 0 "loss"] 4 None)
  ∧ snd (complete 5 mid s2)
    = Ok (mkResult "win" (Some "bob") (Some (Int 5)) (Some NaN)
            [mkPayout "bob" 16 "win"; mkPayout "alice" 0 "loss"] 4 None)
  ∧ snd (complete 5 mid s3)
    = Ok (mkResult "win" (Some "alice") (Some (Int 5)) (Some (Int 3))
            [mkPayout "alice" 16 "win"; mkPayout "bob" 0 "loss"] 4 None).
Proof.
  cbv zeta. split_and!; [| |by vm_compute].
  - refine (proj2 (proj2 (proj2
      (complete_crowns_first_listed_player 5 "match_0123abcd" _
         (mkMatch "match_0123abcd" "chess" "INR" 10
            [mkPlayer "bob" NaN "connected" (Some 3);
             mkPlayer "alice" (Int 5) "connected" (Some 4)]
            "starting" 2 60 (mkSplit 16 4) None None None None)
         _ _ eq_refl _ eq_refl eq_refl (or_introl eq_refl))))).
    by vm_compute.
  - refine (proj2 (proj2 (proj2
      (complete_crowns_first_listed_player 5 "match_0123abcd" _
         (mkMatch "match_0123abcd" "chess" "INR" 10
            [mkPlayer "bob" (Int 5) "connected" (Some 3);
             mkPlayer "alice" NaN "connected" (Some 4)]
            "starting" 2 60 (mkSplit 16 4) None None None None)
         _ _ eq_refl _ eq_refl eq_refl (or_intror eq_refl))))).
    by vm_compute.
Defined.

(** *** Matches created by POST /find *)

Lemma find_valid_inv (r : findReq) :
  find_valid r = true ->
  f_gameType r ∈ gameTypes
  ∧ default "INR" (f_currency r) ∈ Currency.keys.
Proof.
  unfold find_valid. intros H.
  apply andb_true_iff in H as [H Hc]. apply andb_true_iff in H as [Hg _].
  split; [by apply includes_elem|].
  destruct (f_currency r) as [c|]; simpl.
  - by apply includes_elem.
  - apply list_elem_of_In. simpl. by left.
Qed.


Lemma find_pairs (now : Z) (uuid : string) (r : findReq) (s : state)
    (o : waiter) (rest : list waiter) :
  find_valid r = true ->
  List.find (inMatch (f_playerId r)) (omap_values (activeMatches s)) = None ->
  waitingPlayers s !! waitingKey (f_gameType r) (default "INR" (f_currency r))
    = Some (o :: rest) ->
  find now uuid r s
  = (mkState (omap_set (generateMatchId uuid) (newMatch now uuid r o) (activeMatches s))
       (snd (takeOpponent (waitingKey (f_gameType r) (default "INR" (f_currency r)))
               (waitingPlayers s)))
       (matchHistory s),
     Ok (Found (generateMatchId uuid) (f_gameType r) (wt_id o)
           (convertCurrency 10 "INR" (default "INR" (f_currency r)))
           (default "INR" (f_currency r)))).
Proof.
  intros Hv Hnone Hq. pose proof (find_valid_inv r Hv) as [Hg _].
  unfold find, takeOpponent. rewrite Hv, Hnone, Hq. cbn [negb].
  unfold newMatch.
  repeat (apply elem_of_cons in Hg as [-> | Hg]); [done..|].
  by apply elem_of_nil in Hg.
Qed.


(** The three converted amounts of every supported currency: payout and bet
    agree to within one hundredth. *)
Lemma payout_table :
  forallb (fun c =>
    PrimFloat.leb
      (PrimFloat.abs (cents (convertCurrency 16 "INR" c)
                      + cents (convertCurrency 4 "INR" c)
                      - 2 * cents (convertCurrency 10 "INR" c)))
      1) Currency.keys = true.
Proof. vm_compute. reflexivity. Qed.

(** C2, as the code has it.  A match created by POST /find carries the
    configured amounts of 10 (bet), 16 (winner) and 4 (platform) rupees,
    each converted to the match currency and rounded to two decimals on its
    own.  In INR they are exactly 10, 16 and 4: the winner's payout is 80%
    and the platform's share 20% of the two bets, and together they are
    twice the bet.  In every supported currency the winner's payout plus the
    platform's share is within one hundredth of twice the bet. *)
Theorem payout_split_of_created_match (now : Z) (uuid : string) (r : findReq)
    (s : state) (o : waiter) (rest : list waiter) :
  find_valid r = true ->
  List.find (inMatch (f_playerId r)) (omap_values (activeMatches s)) = None ->
  waitingPlayers s !! waitingKey (f_gameType r) (default "INR" (f_currency r))
    = Some (o :: rest) ->
  let cur := default "INR" (f_currency r) in
  ∃ m : match_,
    omap_get (generateMatchId uuid) (activeMatches (fst (find now uuid r s))) = Some m
    ∧ m_currency m = cur
    ∧ m_betAmount m = convertCurrency 10 "INR" cur
    ∧ winner (m_payout m) = convertCurrency 16 "INR" cur
    ∧ platform (m_payout m) = convertCurrency 4 "INR" cur
    ∧ (cur = "INR" ->
         m_betAmount m = 10%float
         ∧ winner (m_payout m) = (0.8 * (m_betAmount m + m_betAmount m))%float
         ∧ platform (m_payout m) = (0.2 * (m_betAmount m + m_betAmount m))%float
         ∧ (winner (m_payout m) + platform (m_payout m))%float
           = (2 * m_betAmount m)%float)
    ∧ PrimFloat.leb
        (PrimFloat.abs (cents (winner (m_payout m)) + cents (platform (m_payout m))
                        - 2 * cents (m_betAmount m))) 1 = true.
Proof.
  intros Hv Hnone Hq cur.
  rewrite (find_pairs now uuid r s o rest Hv Hnone Hq). cbn [fst activeMatches].
  exists (newMatch now uuid r o). rewrite omap_get_set_eq.
  split_and!; try reflexivity.
  - cbn [newMatch m_betAmount m_payout winner platform]. fold cur.
    intros ->. by vm_compute.
  - pose proof (find_valid_inv r Hv) as [_ Hc]. fold cur in Hc.
    pose proof payout_table as Ht. rewrite forallb_forall in Ht.
    apply (Ht cur). by apply list_elem_of_In.
Qed.


Lemma payout_split_of_created_match_witness :
  ∃ m : match_,
    omap_get "match_0123abcd"
      (activeMatches (fst (find 2 "0123abcd-e89b" (chess "bob" None)
                             (fst (find 1 "" (chess "alice" None) initial))))) = Some m
    ∧ winner (m_payout m) = 16%float ∧ platform (m_payout m) = 4%float.
Proof.
  destruct (payout_split_of_created_match 2 "0123abcd-e89b" (chess "bob" None)
              (fst (find 1 "" (chess "alice" None) initial))
              (mkWaiter "alice" 1) [])
    as (m & Hm & _ & _ & Hw & Hp & _); [reflexivity..|].
  exists m. split; [exact Hm|]. split; [exact Hw | exact Hp].
Defined.

(** C2, as stated, fails in pounds: the bet is 0.10, the winner's payout
    0.15 and the platform's share 0.04, which add up to 0.19 and not to
    0.20, and 0.15 is not 80% of 0.20. *)
Lemma payout_split_gbp :
  ∃ m : match_,
    omap_get "match_0123abcd"
      (activeMatches (run [ Find 1 "" (chess "alice" (Some "GBP"));
                            Find 2 "0123abcd-e89b" (chess "bob" (Some "GBP")) ]
                        initial)) = Some m
    ∧ m_currency m = "GBP"
    ∧ m_betAmount m = 0.1%float
    ∧ winner (m_payout m) = 0.15%float
    ∧ platform (m_payout m) = 0.04%float
    ∧ (winner (m_payout m) + platform (m_payout m) =? 2 * m_betAmount m)%float = false
    ∧ (winner (m_payout m) =? 0.8 * (2 * m_betAmount m))%float = false
    ∧ (platform (m_payout m) =? 0.2 * (2 * m_betAmount m))%float = false.
Proof. eexists. split; [vm_compute; reflexivity|]. by vm_compute. Qed.

(** *** Matchmaking *)


Lemma waitingKey_table :
  forallb (fun g1 => forallb (fun c1 => forallb (fun g2 => forallb (fun c2 =>
    implb (String.eqb (waitingKey g1 c1) (waitingKey g2 c2))
          (String.eqb g1 g2 && String.eqb c1 c2))
    Currency.keys) gameTypes) Currency.keys) gameTypes = true.
Proof. vm_compute. reflexivity. Qed.

(** On validated requests the waiting key determines the game type and the
    currency. *)
Lemma waitingKey_inj (g1 c1 g2 c2 : string) :
  g1 ∈ gameTypes -> c1 ∈ Currency.keys -> g2 ∈ gameTypes -> c2 ∈ Currency.keys ->
  waitingKey g1 c1 = waitingKey g2 c2 -> g1 = g2 ∧ c1 = c2.
Proof.
  intros H1 H2 H3 H4 Hk. pose proof waitingKey_table as T.
  rewrite forallb_forall in T. apply list_elem_of_In, T in H1.
  rewrite forallb_forall in H1. apply list_elem_of_In, H1 in H2.
  rewrite forallb_forall in H2. apply list_elem_of_In, H2 in H3.
  rewrite forallb_forall in H3. apply list_elem_of_In, H3 in H4.
  rewrite Hk, String.eqb_refl in H4. simpl in H4.
  apply andb_true_iff in H4 as [E1 E2].
  by apply String.eqb_eq in E1, E2.
Qed.

Lemma find_waits (now : Z) (uuid : string) (r : findReq) (s : state) :
  find_valid r = true ->
  List.find (inMatch (f_playerId r)) (omap_values (activeMatches s)) = None ->
  fst (takeOpponent (waitingKey (f_gameType r) (default "INR" (f_currency r)))
         (waitingPlayers s)) = None ->
  find now uuid r s
  = (let key := waitingKey (f_gameType r) (default "INR" (f_currency r)) in
     let l := (default [] (waitingPlayers s !! key)
               ++ [mkWaiter (f_playerId r) now])%list in
     (mkState (activeMatches s) (<[key := l]> (waitingPlayers s)) (matchHistory s),
      Ok (Waiting (length l)))).
Proof.
  intros Hv Hnone Ht. unfold find. rewrite Hv, Hnone. cbn [negb].
  unfold takeOpponent in *.
  destruct (waitingPlayers s !! _) as [[|o rest]|] eqn:E; try done;
    cbn zeta; by rewrite E.
Qed.

(** C4, as the code has it.  The waiting lists are keyed by game type and
    currency together.  A player who is in no active match and asks for a game
    type in a currency is paired with the head of the waiting list of that
    game type and currency, which is removed from the list (an emptied list
    is dropped); when that list is absent or empty the player is appended to
    it.  The waiting lists of all other keys, among them those of the same
    game type in other currencies, are left as they are. *)
Theorem find_serves_queue_of_game_and_currency (now : Z) (uuid : string)
    (r : findReq) (s : state) :
  find_valid r = true ->
  List.find (inMatch (f_playerId r)) (omap_values (activeMatches s)) = None ->
  let cur := default "INR" (f_currency r) in
  let key := waitingKey (f_gameType r) cur in
  let s' := fst (find now uuid r s) in
  (∀ k, k ≠ key -> waitingPlayers s' !! k = waitingPlayers s !! k)
  ∧ (∀ r2, find_valid r2 = true ->
       waitingKey (f_gameType r2) (default "INR" (f_currency r2)) = key ->
       f_gameType r2 = f_gameType r ∧ default "INR" (f_currency r2) = cur)
  ∧ match waitingPlayers s !! key with
    | Some (o :: rest) =>
        snd (find now uuid r s)
        = Ok (Found (generateMatchId uuid) (f_gameType r) (wt_id o)
                (convertCurrency 10 "INR" cur) cur)
        ∧ waitingPlayers s' !! key = match rest with [] => None | _ => Some rest end
    | _ =>
        snd (find now uuid r s) = Ok (Waiting 1)
        ∧ waitingPlayers s' !! key = Some [mkWaiter (f_playerId r) now]
    end.
Proof.
  intros Hv Hnone cur key s'. split_and!.
  - intros k Hk. subst s'.
    destruct (waitingPlayers s !! key) as [[|o rest]|] eqn:E.
    + rewrite find_waits; [|done..|by unfold takeOpponent; fold cur key; rewrite E].
      cbn. fold cur key. by rewrite lookup_insert_ne.
    + rewrite (find_pairs now uuid r s o rest); [|done..].
      cbn [fst waitingPlayers]. unfold takeOpponent. fold cur key. rewrite E.
      cbn [snd]. destruct rest; [by rewrite lookup_delete_ne|by rewrite lookup_insert_ne].
    + rewrite find_waits; [|done..|by unfold takeOpponent; fold cur key; rewrite E].
      cbn. fold cur key. by rewrite lookup_insert_ne.
  - intros r2 Hv2 Hk.
    destruct (find_valid_inv r Hv) as [Hg Hc], (find_valid_inv r2 Hv2) as [Hg2 Hc2].
    by apply waitingKey_inj.
  - subst s'. destruct (waitingPlayers s !! key) as [[|o rest]|] eqn:E.
    + rewrite find_waits; [|done..|by unfold takeOpponent; fold cur key; rewrite E].
      cbn. fold cur key. rewrite E. cbn. by rewrite lookup_insert_eq.
    + rewrite (find_pairs now uuid r s o rest); [|done..].
      cbn [fst snd waitingPlayers]. split; [done|].
      unfold takeOpponent. fold cur key. rewrite E. cbn [snd].
      destruct rest; [by rewrite lookup_delete_eq|by rewrite lookup_insert_eq].
    + rewrite find_waits; [|done..|by unfold takeOpponent; fold cur key; rewrite E].
      cbn. fold cur key. rewrite E. cbn. by rewrite lookup_insert_eq.
Qed.

Lemma find_serves_queue_of_game_and_currency_witness :
  snd (find 2 "0123abcd-e89b" (chess "bob" None)
         (fst (find 1 "" (chess "alice" None) initial)))
  = Ok (Found "match_0123abcd" "chess" "alice" 10 "INR").
Proof.
  pose proof (find_serves_queue_of_game_and_currency 2 "0123abcd-e89b"
                (chess "bob" None) (fst (find 1 "" (chess "alice" None) initial))
                eq_refl eq_refl) as (_ & _ & H).
  exact (proj1 H).
Defined.

(** C4, as stated, fails: alice waits for chess, bob asks for chess in
    another currency and is put on a waiting list of his own instead of being
    paired with her; both keep waiting. *)
Lemma find_same_game_other_currency :
  let s1 := fst (find 1 "" (chess "alice" (Some "INR")) initial) in
  waitingPlayers s1 !! "chess_INR" = Some [mkWaiter "alice" 1]
  ∧ snd (find 2 "0123abcd-e89b" (chess "bob" (Some "USD")) s1) = Ok (Waiting 1)
  ∧ let s2 := fst (find 2 "0123abcd-e89b" (chess "bob" (Some "USD")) s1) in
    activeMatches s2 = []
    ∧ waitingPlayers s2 !! "chess_INR" = Some [mkWaiter "alice" 1]
    ∧ waitingPlayers s2 !! "chess_USD" = Some [mkWaiter "bob" 2].
Proof. by vm_compute. Qed.

(** C6 at its failing input: a waiting player who posts /find a second time
    is taken from the waiting list as the opponent of the new request, and the
    stored match has the same player id twice. *)
Theorem find_pairs_player_with_itself :
  ∃ m : match_,
    omap_get "match_0123abcd"
      (activeMatches (run [ Find 1 "" (chess "alice" None);
                            Find 2 "0123abcd-e89b" (chess "alice" None) ]
                        initial)) = Some m
    ∧ map p_id (m_players m) = ["alice"; "alice"].
Proof. eexists. split; [vm_compute; reflexivity|]. by vm_compute. Qed.

(** *** Stored matches *)

Lemma omap_get_elem {V} (k : string) (v : V) (m : omap V) :
  omap_get k m = Some v -> v ∈ omap_values m.
Proof.
  induction m as [|[k' v'] m IH]; cbn; [done|].
  destruct (String.eqb k' k).
  - intros [= ->]. apply elem_of_cons. by left.
  - intros H. apply elem_of_cons. right. by apply IH.
Qed.

Lemma omap_set_elem {V} (k : string) (v x : V) (m : omap V) :
  x ∈ omap_values (omap_set k v m) -> x = v ∨ x ∈ omap_values m.
Proof.
  induction m as [|[k' v'] m IH]; cbn.
  - intros H%list_elem_of_singleton. by left.
  - destruct (String.eqb k' k); cbn; intros [-> | H]%elem_of_cons.
    + by left.
    + right. apply elem_of_cons. by right.
    + right. apply elem_of_cons. by left.
    + destruct (IH H) as [-> | H']; [by left|].
      right. apply elem_of_cons. by right.
Qed.

Lemma omap_delete_elem {V} (k : string) (x : V) (m : omap V) :
  x ∈ omap_values (omap_delete k m) -> x ∈ omap_values m.
Proof.
  induction m as [|[k' v'] m IH]; cbn; [done|].
  destruct (String.eqb k' k); cbn.
  - intros H. apply elem_of_cons. by right.
  - intros [-> | H]%elem_of_cons; apply elem_of_cons; [by left|].
    right. by apply IH.
Qed.

Lemma length_setScore (pid : string) (sc : jsint) (now : Z) (ps : list player) :
  length (setScore pid sc now ps) = length ps.
Proof.
  induction ps as [|p ps IH]; cbn; [done|].
  destruct (String.eqb (p_id p) pid); cbn; by rewrite ?IH.
Qed.

Lemma find_sessions (now : Z) (uuid : string) (r : findReq) (s : state) :
  allSessions s -> allSessions (fst (find now uuid r s)).
Proof.
  intros HI.
  destruct (find_valid r) eqn:Hv; [|by unfold find; rewrite Hv].
  destruct (List.find (inMatch (f_playerId r)) (omap_values (activeMatches s)))
    as [ex|] eqn:Hex; [by unfold find; rewrite Hv, Hex|].
  destruct (waitingPlayers s !! waitingKey (f_gameType r) (default "INR" (f_currency r)))
    as [[|o rest]|] eqn:Hq.
  - rewrite find_waits; [|done..|by unfold takeOpponent; rewrite Hq].
    intros m [Hm | Hm]; apply HI; [by left | by right].
  - rewrite (find_pairs now uuid r s o rest) by done.
    intros m [Hm | Hm]; cbn in Hm.
    + apply omap_set_elem in Hm as [-> | Hm]; [by split_and! | apply HI; by left].
    + apply HI. by right.
  - rewrite find_waits; [|done..|by unfold takeOpponent; rewrite Hq].
    intros m [Hm | Hm]; apply HI; [by left | by right].
Qed.

Lemma submitScore_sessions (now : Z) (mid pid : string) (parsed : jsint) (s : state) :
  allSessions s -> allSessions (fst (submitScore now mid pid parsed s)).
Proof.
  intros HI. unfold submitScore.
  destruct (negb _); [done|].
  destruct (omap_get mid (activeMatches s)) as [m0|] eqn:Hm0; [|done].
  destruct (negb _); [done|]. cbn [fst].
  intros m [Hm | Hm]; cbn in Hm; [|apply HI; by right].
  apply omap_set_elem in Hm as [-> | Hm]; [|apply HI; by left].
  destruct (HI m0) as (Hl & Hd & Hb); [left; by eapply omap_get_elem|].
  split_and!; [|done..]. cbn. by rewrite length_setScore.
Qed.

Lemma finish_session (st : string) (now : Z) (res : result)
    (why who : option string) (m : match_) :
  twoPlayerSession m -> twoPlayerSession (finish st now res why who m).
Proof. by intros (? & ? & ?). Qed.

Lemma complete_sessions (now : Z) (mid : string) (s : state) :
  allSessions s -> allSessions (fst (complete now mid s)).
Proof.
  intros HI. unfold complete.
  destruct (negb _); [done|].
  destruct (omap_get mid (activeMatches s)) as [m0|] eqn:Hm0; [|done].
  destruct (String.eqb _ _); [done|].
  destruct (sort _ _) as [|w [|l ?]]; [done..|]. cbn [fst].
  intros m [Hm | [k Hm]]; cbn in Hm.
  - apply HI. left. by eapply omap_delete_elem.
  - apply lookup_insert_Some in Hm as [[_ <-] | [_ Hm]].
    + apply finish_session, HI. left. by eapply omap_get_elem.
    + apply HI. right. eauto.
Qed.

Lemma cancel_sessions (now : Z) (mid pid : string) (why : option string) (s : state) :
  allSessions s -> allSessions (fst (cancel now mid pid why s)).
Proof.
  intros HI. unfold cancel.
  destruct (negb _); [done|].
  destruct (omap_get mid (activeMatches s)) as [m0|] eqn:Hm0; [|done].
  destruct (negb _); [done|]. cbn [fst].
  intros m [Hm | [k Hm]]; cbn in Hm.
  - apply HI. left. by eapply omap_delete_elem.
  - apply lookup_insert_Some in Hm as [[_ <-] | [_ Hm]].
    + apply finish_session, HI. left. by eapply omap_get_elem.
    + apply HI. right. eauto.
Qed.

(** The part of C6 that holds: every match held by [activeMatches] or
    [matchHistory] after any run has exactly two player entries, the
    configured duration of 60 seconds and the converted bet amount. *)
Lemma stored_matches_are_sessions (es : list event) (m : match_) :
  stored (run es initial) m -> twoPlayerSession m.
Proof.
  enough (H : ∀ s, allSessions s -> allSessions (run es s)).
  { apply H. intros m' [Hm | [k Hm]]; cbn in Hm.
    - by apply elem_of_nil in Hm.
    - by rewrite lookup_empty in Hm. }
  induction es as [|e es IH]; intros s HI; [done|].
  apply IH. destruct e; cbn [step];
    auto using find_sessions, submitScore_sessions, complete_sessions, cancel_sessions.
Qed.

End MatchProofs.

(** ** wallet.js *)

Module WalletProofs.
Import Wallet.

Lemma getOrCreate_present (now : Z) (uid cur : string) (s : state) (w : wallet) :
  userWallets s !! uid = Some w -> getOrCreate now uid cur s = (s, w).
Proof. intros H. unfold getOrCreate. by rewrite H. Qed.

Lemma getOrCreate_absent (now : Z) (uid cur : string) (s : state) :
  userWallets s !! uid = None ->
  getOrCreate now uid cur s
  = (set_wallet uid (createWallet now uid cur) s, createWallet now uid cur).
Proof. intros H. unfold getOrCreate. by rewrite H. Qed.

Lemma getOrCreate_stored (now : Z) (uid cur : string) (s : state) :
  userWallets (fst (getOrCreate now uid cur s)) !! uid
  = Some (snd (getOrCreate now uid cur s)).
Proof.
  unfold getOrCreate. destruct (userWallets s !! uid) eqn:E; cbn; [done|].
  by rewrite lookup_insert_eq.
Qed.

Lemma getOrCreate_others (now : Z) (uid cur : string) (s : state) (u : string) :
  u ≠ uid ->
  userWallets (fst (getOrCreate now uid cur s)) !! u = userWallets s !! u.
Proof.
  intros Hne. unfold getOrCreate. destruct (userWallets s !! uid); cbn; [done|].
  by rewrite lookup_insert_ne.
Qed.

(** C7.  A read through GET /:userId answers with the stored native balance
    when the requested currency is the wallet's native currency, and
    otherwise with the native balance divided by the rate of the native
    currency, multiplied by the rate of the requested one and rounded to two
    decimals; a wallet that was stored before the read is left as it was,
    together with the rest of the state. *)
Theorem getWallet_balance (now : Z) (uid : string) (q : option string) (s : state) :
  Js.nonEmpty uid = true ->
  let cur := default "INR" q in
  ∃ (info : walletInfo) (w : wallet),
    snd (getWallet now uid q s) = Ok info
    ∧ userWallets (fst (getWallet now uid q s)) !! uid = Some w
    ∧ wi_currency info = cur
    ∧ wi_nativeBalance info = balance w
    ∧ wi_nativeCurrency info = currency w
    ∧ wi_balance info
      = (if String.eqb (currency w) cur then balance w
         else (Js.Math_round (balance w / rate (currency w) * rate cur * 100) / 100)%float)
    ∧ (∀ w0, userWallets s !! uid = Some w0 ->
         fst (getWallet now uid q s) = s ∧ w = w0).
Proof.
  intros Hid cur. unfold getWallet. rewrite Hid. cbn [negb]. fold cur.
  pose proof (getOrCreate_stored now uid cur s) as Hst.
  destruct (getOrCreate now uid cur s) as [s' w] eqn:E. cbn [fst snd] in *.
  exists (mkWalletInfo (userId w)
            (if String.eqb (currency w) cur then balance w
             else convertCurrency (balance w) (currency w) cur)
            cur (balance w) (currency w) (totalDeposits w) (totalWithdrawals w)
            (totalWinnings w) (kycStatus w) (lastActivity w)), w.
  split_and!; try done.
  intros w0 H0. rewrite (getOrCreate_present _ _ _ _ _ H0) in E.
  by injection E as <- <-.
Qed.

Lemma getWallet_balance_witness :
  let s := fst (processWinnings 1 "txn_1"
                  (mkWinningsReq "match_0123abcd" "u1" 333 "INR" 0) initial) in
  ∃ info : walletInfo,
    snd (getWallet 2 "u1" (Some "USD") s) = Ok info
    ∧ wi_nativeBalance info = 333%float
    ∧ (333 / 1 * 0.012)%float = 3.996%float
    ∧ wi_balance info = 4%float
    ∧ fst (getWallet 2 "u1" (Some "USD") s) = s.
Proof.
  cbv zeta.
  destruct (getWallet_balance 2 "u1" (Some "USD")
              (fst (processWinnings 1 "txn_1"
                      (mkWinningsReq "match_0123abcd" "u1" 333 "INR" 0) initial))
              eq_refl)
    as (info & w & Hr & Hw & _ & Hn & _ & Hb & Hsame).
  assert (Hw0 : userWallets
                  (fst (processWinnings 1 "txn_1"
                          (mkWinningsReq "match_0123abcd" "u1" 333 "INR" 0) initial))
                !! "u1" = Some (mkWallet "u1" 333 "INR" 0 0 333 "pending" 1 1))
    by (by vm_compute).
  destruct (Hsame _ Hw0) as [Hs ->].
  exists info. split_and!; [exact Hr | by rewrite Hn | by vm_compute
                           | rewrite Hb; by vm_compute | exact Hs].
Defined.

(** C10.  A read of a user id without a wallet stores a new wallet for it:
    balance and totals 0, KYC status pending, native currency the [currency]
    query parameter, INR when there is none.  The response shows that wallet,
    and every later read of the user id finds it stored and leaves the state
    as it is. *)
Theorem getWallet_creates (now : Z) (uid : string) (q : option string) (s : state) :
  Js.nonEmpty uid = true ->
  userWallets s !! uid = None ->
  let cur := default "INR" q in
  let s' := fst (getWallet now uid q s) in
  ∃ w : wallet,
    userWallets s' !! uid = Some w
    ∧ userId w = uid ∧ balance w = 0%float ∧ currency w = cur
    ∧ totalDeposits w = 0%float ∧ totalWithdrawals w = 0%float
    ∧ totalWinnings w = 0%float ∧ kycStatus w = "pending"
    ∧ snd (getWallet now uid q s)
      = Ok (mkWalletInfo uid 0 cur 0 cur 0 0 0 "pending" now)
    ∧ (∀ now' q', fst (getWallet now' uid q' s') = s'
         ∧ ∃ info, snd (getWallet now' uid q' s') = Ok info
             ∧ wi_userId info = uid
             ∧ wi_nativeBalance info = 0%float
             ∧ wi_nativeCurrency info = cur
             ∧ wi_kycStatus info = "pending").
Proof.
  intros Hid Hnone cur s'.
  assert (Hs' : s' = set_wallet uid (createWallet now uid cur) s).
  { subst s'. unfold getWallet. rewrite Hid. cbn [negb]. fold cur.
    by rewrite getOrCreate_absent. }
  exists (createWallet now uid cur).
  assert (Hl : userWallets s' !! uid = Some (createWallet now uid cur)).
  { rewrite Hs'. cbn. by rewrite lookup_insert_eq. }
  split_and!; try done.
  - unfold getWallet. rewrite Hid. cbn [negb]. fold cur.
    rewrite getOrCreate_absent by done. cbn. by rewrite String.eqb_refl.
  - intros now' q'. unfold getWallet. rewrite Hid. cbn [negb].
    rewrite (getOrCreate_present _ _ _ _ _ Hl). cbn [fst snd].
    split; [done|]. eexists. split; [reflexivity|]. by cbn.
Qed.

Lemma getWallet_creates_witness :
  ∃ w : wallet,
    userWallets (fst (getWallet 1 "u1" (Some "USD") initial)) !! "u1" = Some w
    ∧ balance w = 0%float ∧ currency w = "USD".
Proof.
  destruct (getWallet_creates 1 "u1" (Some "USD") initial eq_refl eq_refl)
    as (w & Hw & _ & Hb & Hc & _).
  exists w. split; [exact Hw|]. split; [exact Hb | exact Hc].
Defined.

(** The part of C8 that holds.  On a body whose amount and platform fee are
    JSON numbers, a successful POST /process-winnings adds the platform fee
    converted to INR to the balance and to the total earnings of the
    developer wallet, adds the winnings, converted when the winner's wallet
    has another currency, to the balance and to the total winnings of that
    wallet (a wallet created for the winner starts from 0 in the request
    currency), and leaves the wallet of every other user as it was. *)
Lemma processWinnings_credits (now : Z) (txn : string) (r : winningsReq)
    (s : state) (info : winningsInfo) :
  snd (processWinnings now txn r s) = Ok info ->
  let s' := fst (processWinnings now txn r s) in
  let fee := convertCurrency (pw_platformFee r) (pw_currency r) "INR" in
  let w0 := default (createWallet now (pw_winner r) (pw_currency r))
              (userWallets s !! pw_winner r) in
  let credit :=
    if String.eqb (pw_currency r) (currency w0) then pw_amount r
    else convertCurrency (pw_amount r) (pw_currency r) (currency w0) in
  dev_balance (developerWallet s') = (dev_balance (developerWallet s) + fee)%float
  ∧ dev_totalEarnings (developerWallet s')
    = (dev_totalEarnings (developerWallet s) + fee)%float
  ∧ (∃ w', userWallets s' !! pw_winner r = Some w'
       ∧ currency w' = currency w0
       ∧ balance w' = (balance w0 + credit)%float
       ∧ totalWinnings w' = (totalWinnings w0 + credit)%float)
  ∧ (∀ u, u ≠ pw_winner r -> userWallets s' !! u = userWallets s !! u).
Proof.
  intros Hok s' fee w0 credit. subst s' credit. revert Hok. unfold processWinnings.
  destruct (winnings_valid r); cbn [negb]; [|done]. intros _.
  pose proof (getOrCreate_others now (pw_winner r) (pw_currency r) s) as Hoth.
  assert (Hw : snd (getOrCreate now (pw_winner r) (pw_currency r) s) = w0
              ∧ developerWallet (fst (getOrCreate now (pw_winner r) (pw_currency r) s))
                = developerWallet s).
  { unfold getOrCreate, w0. by destruct (userWallets s !! pw_winner r). }
  destruct (getOrCreate now (pw_winner r) (pw_currency r) s) as [s1 w].
  cbn [fst snd] in *. destruct Hw as [-> Hdev]. rewrite Hdev.
  cbn [userWallets developerWallet dev_balance dev_totalEarnings].
  split_and!; try done.
  - eexists. rewrite lookup_insert_eq. by split_and!.
  - intros u Hu. rewrite lookup_insert_ne by done. by apply Hoth.
Qed.

Lemma processWinnings_credits_example :
  let s := fst (getWallet 1 "alice" None initial) in
  let s' := fst (processWinnings 2 "txn_1" sample_winnings s) in
  userWallets s' !! "alice"
  = Some (mkWallet "alice" 15.83 "INR" 0 0 15.83 "pending" 1 2)
  ∧ dev_balance (developerWallet s') = (45280 + 4.17)%float
  ∧ dev_totalEarnings (developerWallet s') = (125840 + 4.17)%float.
Proof. by vm_compute. Qed.

(** On bodies of JSON numbers the handler on bodies is
    [Wallet.processWinnings]. *)
Lemma processWinnings_of_numbers (now : Z) (txn : string) (r : winningsReq) (s : state) :
  match WalletBody.processWinnings now txn (WalletBody.ofNumbers r) s with
  | Ok res =>
      ∃ info w',
        snd (processWinnings now txn r s) = Ok info
        ∧ userWallets (fst (processWinnings now txn r s)) !! pw_winner r = Some w'
        ∧ WalletBody.wr_balance res = WalletBody.Number (balance w')
        ∧ WalletBody.wr_totalWinnings res = WalletBody.Number (totalWinnings w')
        ∧ WalletBody.wr_developer res = developerWallet (fst (processWinnings now txn r s))
        ∧ WalletBody.wr_winnerBalance res = WalletBody.Number (pi_winnerBalance info)
  | Err st code => snd (processWinnings now txn r s) = Err st code
  end.
Proof.
  unfold WalletBody.processWinnings, processWinnings, WalletBody.winnings_valid,
    winnings_valid, WalletBody.ofNumbers.
  cbn [WalletBody.b_matchId WalletBody.b_winner WalletBody.b_amount
         WalletBody.b_currency WalletBody.b_platformFee WalletBody.isFloat_min0].
  destruct (negb _); [done|].
  destruct (getOrCreate now (pw_winner r) (pw_currency r) s) as [s1 w].
  cbn [fst snd userWallets developerWallet]. rewrite lookup_insert_eq.
  unfold winningsAmount.
  eexists _, _. split_and!; try reflexivity;
    cbn; by destruct (String.eqb (pw_currency r) (currency w)).
Qed.

(** C8 at its failing inputs.  When the amount is sent as a string, as in a
    form post, and the winner's wallet has the currency of the request, as a
    wallet created by the request has, the handler does not add the winnings:
    [balance += amount] and [totalWinnings += amount] append the text of the
    amount to the decimal text of the old number, and the response carries
    that string as [winnerBalance].  The developer wallet is credited with
    the number the fee converts to. *)
Theorem processWinnings_appends_text_amount (now : Z) (txn : string)
    (b : WalletBody.winningsBody) (s : state) (t : string) (x : float)
    (res : WalletBody.winningsResult) :
  WalletBody.b_amount b = WalletBody.Sent_text t x ->
  (∀ w, userWallets s !! WalletBody.b_winner b = Some w ->
        currency w = WalletBody.b_currency b) ->
  WalletBody.processWinnings now txn b s = Ok res ->
  let w0 := default (createWallet now (WalletBody.b_winner b) (WalletBody.b_currency b))
              (userWallets s !! WalletBody.b_winner b) in
  WalletBody.wr_balance res = WalletBody.Appended (balance w0) t
  ∧ WalletBody.wr_totalWinnings res = WalletBody.Appended (totalWinnings w0) t
  ∧ WalletBody.wr_winnerBalance res = WalletBody.Appended (balance w0) t
  ∧ dev_balance (WalletBody.wr_developer res)
    = (dev_balance (developerWallet s)
       + convertCurrency (WalletBody.toNumber (WalletBody.b_platformFee b))
           (WalletBody.b_currency b) "INR")%float.
Proof.
  intros Ha Hcur. unfold WalletBody.processWinnings.
  destruct (negb _); [done|].
  assert (Hw : snd (getOrCreate now (WalletBody.b_winner b) (WalletBody.b_currency b) s)
               = default (createWallet now (WalletBody.b_winner b) (WalletBody.b_currency b))
                   (userWallets s !! WalletBody.b_winner b)
             ∧ developerWallet
                 (fst (getOrCreate now (WalletBody.b_winner b) (WalletBody.b_currency b) s))
               = developerWallet s
             ∧ currency
                 (snd (getOrCreate now (WalletBody.b_winner b) (WalletBody.b_currency b) s))
               = WalletBody.b_currency b).
  { unfold getOrCreate.
    destruct (userWallets s !! WalletBody.b_winner b) as [w|] eqn:E; cbn; [|done].
    split_and!; [done..|]. by apply Hcur. }
  destruct (getOrCreate now (WalletBody.b_winner b) (WalletBody.b_currency b) s)
    as [s1 w].
  cbn [fst snd] in Hw. destruct Hw as (Hw & Hdev & Hc).
  rewrite Hc, String.eqb_refl, Ha, Hdev, <- Hw. intros [= <-]. by cbn.
Qed.

Lemma processWinnings_appends_text_amount_witness :
  WalletBody.processWinnings 1 "txn_1" WalletBody.text_winnings initial
  = Ok (WalletBody.mkWinningsResult "txn_1" (WalletBody.Appended 0 "16")
          (WalletBody.Appended 0 "16") "INR" 1
          (mkDeveloper (45280 + 4) "INR" (125840 + 4) [])
          (WalletBody.Appended 0 "16") 4)
  ∧ WalletBody.Appended 0 "16" ≠ WalletBody.Number 16.
Proof.
  split; [by vm_compute|].
  destruct (processWinnings_appends_text_amount 1 "txn_1" WalletBody.text_winnings
              initial "16" 16
              (WalletBody.mkWinningsResult "txn_1" (WalletBody.Appended 0 "16")
                 (WalletBody.Appended 0 "16") "INR" 1
                 (mkDeveloper (45280 + 4) "INR" (125840 + 4) [])
                 (WalletBody.Appended 0 "16") 4) eq_refl) as (H & _).
  - intros w Hw. cbn in Hw. by rewrite lookup_empty in Hw.
  - by vm_compute.
  - discriminate.
Defined.

(** *** The balance check of POST /withdraw *)

Lemma withdraw_insufficient (now : Z) (txn : string) (r : withdrawReq)
    (s : state) (w : wallet) :
  withdraw_valid r = true ->
  userWallets s !! w_userId r = Some w ->
  (balance w <? withdrawAmount r w)%float = true ->
  withdraw now txn r s = (s, Err 400 "INSUFFICIENT_BALANCE").
Proof. intros Hv Hw Hlt. unfold withdraw. by rewrite Hv, Hw, Hlt. Qed.

Lemma withdraw_deducts (now : Z) (txn : string) (r : withdrawReq)
    (s : state) (info : withdrawInfo) :
  snd (withdraw now txn r s) = Ok info ->
  ∃ w w', userWallets s !! w_userId r = Some w
    ∧ userWallets (fst (withdraw now txn r s)) !! w_userId r = Some w'
    ∧ (balance w <? withdrawAmount r w)%float = false
    ∧ balance w' = (balance w - withdrawAmount r w)%float.
Proof.
  unfold withdraw. destruct (withdraw_valid r); cbn [negb]; [|done].
  destruct (userWallets s !! w_userId r) as [w|] eqn:Hw; [|done].
  destruct (balance w <? withdrawAmount r w)%float eqn:Hlt; [done|].
  destruct (validateKYC _ _ _); cbn [negb]; [|done].
  destruct (List.find _ _); [|done]. intros _. cbn [fst set_wallet userWallets].
  eexists w, _. rewrite lookup_insert_eq. by split_and!.
Qed.

(** C9 at its failing input.  GET /u1?currency=XYZ stores a wallet whose
    native currency has no rate; a withdrawal of 500 INR from that wallet,
    whose balance is 0, passes the balance check because the converted amount
    is NaN, is accepted, and leaves the balance NaN. *)
Theorem withdraw_from_unrated_wallet :
  let s1 := fst (getWallet 1 "u1" (Some "XYZ") initial) in
  let r := mkWithdrawReq "u1" 500 (Some "INR") "UPI" in
  (∃ w, userWallets s1 !! "u1" = Some w
     ∧ balance w = 0%float ∧ Js.isNaN (withdrawAmount r w) = true)
  ∧ snd (withdraw 2 "txn_1" r s1) = Ok (mkWithdrawInfo "txn_1" 500 490 10 "INR")
  ∧ ∃ w', userWallets (fst (withdraw 2 "txn_1" r s1)) !! "u1" = Some w'
      ∧ Js.isNaN (balance w') = true
      ∧ (0 <=? balance w')%float = false.
Proof.
  cbv zeta. split_and!.
  - eexists. split; [vm_compute; reflexivity|]. by vm_compute.
  - by vm_compute.
  - eexists. split; [vm_compute; reflexivity|]. by vm_compute.
Qed.

End WalletProofs.

(** ** withdrawal.js *)

Module WithdrawalProofs.
Import Withdrawal.


#[local] Hint Constructors advance : core.

Lemma failed_no_advance (st : status) : rtc advance failed st -> st = failed.
Proof.
  intros H. apply rtc_inv in H as [<- | (y & Hy & _)]; [done|]. inversion Hy.
Qed.


Lemma Inv_initial : Inv initial.
Proof.
  split; cbn; try (intros ? ? H; by rewrite lookup_empty in H).
  - intros a H. by apply elem_of_nil in H.
  - constructor.
Qed.

(** An in-place update of the object at [a0]. *)
Lemma heap_update (h : list withdrawal) (a0 a : addr) (w0 w0' w : withdrawal) :
  h !! a0 = Some w0 -> h !! a = Some w ->
  <[a0 := w0']> h !! a = Some (if decide (a = a0) then w0' else w).
Proof.
  intros H0 H. case_decide as E.
  - subst a. apply list_lookup_insert_eq. by eapply lookup_lt_Some.
  - by rewrite list_lookup_insert_ne.
Qed.

(** Reads the object at another hypothesis' address after the update of the
    object of [Hw]; leaves the case in which the two addresses agree. *)
Ltac after_update Hw Hw' :=
  rewrite (heap_update _ _ _ _ _ _ Hw Hw'); case_decide; [|done].

(** *** What each event does to the state *)

Lemma request_effect (now : Z) (uuid : string) (r : requestReq) (s : state) :
  fst (request now uuid r s) = s
  ∨ ∃ w q : withdrawal,
      wstatus w = pending_approval ∧ wstatus q = pending_approval
      ∧ id w = generateWithdrawalId uuid ∧ id q = generateWithdrawalId uuid
      ∧ fst (request now uuid r s)
        = mkState (heap s ++ [w; q])
            (<[generateWithdrawalId uuid := length (heap s)]> (withdrawalRequests s))
            (<[generateWithdrawalId uuid := S (length (heap s))]> (processingQueue s))
            (completedWithdrawals s) (timers s).
Proof.
  unfold request.
  destruct (negb (request_valid r)); [by left|].
  destruct (_ || _); [by left|].
  destruct (_ && negb _); [by left|].
  destruct (negb (q_detailsValid r)); [by left|].
  destruct (2 <=? _)%nat; [by left|].
  right. eexists _, _. split_and!; [..|reflexivity]; reflexivity.
Qed.

Lemma findForCancel_id (wid : string) (s : state) (a : addr) :
  Inv s -> findForCancel wid s = Some a ->
  ∃ w, heap s !! a = Some w ∧ id w = wid.
Proof.
  intros HI. unfold findForCancel.
  destruct (withdrawalRequests s !! wid) as [a'|] eqn:E.
  - intros [= <-]. by apply (inv_requests s HI).
  - intros H. destruct (inv_queue s HI _ _ H) as (w & ? & ? & _). eauto.
Qed.

Lemma cancel_effect (now : Z) (wid uid : string) (why : option string) (s : state) :
  fst (cancel now wid uid why s) = s
  ∨ ∃ (a : addr) (w : withdrawal),
      findForCancel wid s = Some a ∧ heap s !! a = Some w
      ∧ (wstatus w = pending_approval ∨ wstatus w = approved)
      ∧ fst (cancel now wid uid why s)
        = mkState
            (<[a := cancelled_by now (default "User cancelled" why) uid w]> (heap s))
            (delete wid (withdrawalRequests s)) (delete wid (processingQueue s))
            (<[wid := a]> (completedWithdrawals s)) (timers s).
Proof.
  unfold cancel.
  destruct (negb _); [by left|].
  destruct (findForCancel wid s) as [a|]; [|by left].
  destruct (heap s !! a) as [w|] eqn:Hw; [|by left].
  destruct (negb (String.eqb _ _)); [by left|].
  destruct (bool_decide (wstatus w = pending_approval)) eqn:E1;
    [|destruct (bool_decide (wstatus w = approved)) eqn:E2]; cbn [negb andb];
    [| |by left]; right; exists a, w; split_and!; try done.
  - left. by apply bool_decide_eq_true in E1.
  - right. by apply bool_decide_eq_true in E2.
Qed.

Lemma approve_effect (now : Z) (uuid wid admin : string) (notes : option string)
    (s : state) :
  fst (approve now uuid wid admin notes s) = s
  ∨ ∃ (a : addr) (w w' : withdrawal),
      processingQueue s !! wid = Some a ∧ heap s !! a = Some w
      ∧ wstatus w' = processing ∧ id w' = id w
      ∧ fst (approve now uuid wid admin notes s)
        = mkState (<[a := w']> (heap s))
            (<[wid := a]> (withdrawalRequests s)) (delete wid (processingQueue s))
            (completedWithdrawals s) (timers s ++ [a]).
Proof.
  unfold approve.
  destruct (negb _); [by left|].
  destruct (processingQueue s !! wid) as [a|]; [|by left].
  destruct (heap s !! a) as [w|] eqn:Hw; [|by left].
  right.
  exists a, w, (processing_started now ("gw_" +:+ String.substring 0 12 uuid)
                  (approved_by now admin (default "" notes) w)).
  split_and!; try done.
  cbn [fst]. unfold processPayment. cbn [heap].
  rewrite list_lookup_insert_eq by (by eapply lookup_lt_Some).
  by rewrite list_insert_insert_eq.
Qed.

Lemma timer_effect (now : Z) (k : nat) (random : float) (s : state) :
  paymentTimerFires now k random s = s
  ∨ ∃ (a : addr) (w w' : withdrawal),
      timers s !! k = Some a ∧ heap s !! a = Some w
      ∧ (wstatus w' = completed ∨ wstatus w' = failed) ∧ id w' = id w
      ∧ paymentTimerFires now k random s
        = mkState (<[a := w']> (heap s))
            (delete (id w) (withdrawalRequests s)) (processingQueue s)
            (<[id w := a]> (completedWithdrawals s)) (delete k (timers s)).
Proof.
  unfold paymentTimerFires.
  destruct (timers s !! k) as [a|]; [|by left].
  destruct (heap s !! a) as [w|] eqn:Hw; [|by left].
  right. exists a, w, (payment_settled now (0.1 <? random)%float w).
  split_and!; try done; unfold payment_settled; destruct (0.1 <? random)%float; auto.
Qed.

(** *** The invariant is kept *)

Lemma request_inv (now : Z) (uuid : string) (r : requestReq) (s : state) :
  Inv s -> Inv (fst (request now uuid r s)).
Proof.
  intros HI.
  destruct (request_effect now uuid r s)
    as [-> | (w & q & Hw & Hq & Hiw & Hiq & ->)]; [done|].
  split; cbn.
  - intros k a [[<- <-] | [Hk Ha]]%lookup_insert_Some.
    + exists q. split_and!; [|done..].
      by rewrite (lookup_app_r _ _ (S (length (heap s)))), Nat.sub_succ_l, Nat.sub_diag by lia.
    + destruct (inv_queue s HI _ _ Ha) as (w' & ? & ? & ?).
      exists w'. split_and!; [|done..]. by apply lookup_app_l_Some.
  - intros k a [[<- <-] | [Hk Ha]]%lookup_insert_Some.
    + exists w. split; [|done].
      by rewrite lookup_app_r, Nat.sub_diag by lia.
    + destruct (inv_requests s HI _ _ Ha) as (w' & ? & ?).
      exists w'. split; [|done]. by apply lookup_app_l_Some.
  - intros a Ha. destruct (inv_timers s HI _ Ha) as (w' & ? & ?).
    exists w'. split; [|done]. by apply lookup_app_l_Some.
  - apply (inv_nodup s HI).
Qed.

Lemma cancel_inv (now : Z) (wid uid : string) (why : option string) (s : state) :
  Inv s -> Inv (fst (cancel now wid uid why s)).
Proof.
  intros HI.
  destruct (cancel_effect now wid uid why s)
    as [-> | (a & w & Hf & Hw & Hst & ->)]; [done|].
  destruct (findForCancel_id wid s a HI Hf) as (w0 & Hw0 & Hid).
  assert (w0 = w) as -> by congruence.
  split; cbn.
  - intros k a' [Hk Ha]%lookup_delete_Some.
    destruct (inv_queue s HI _ _ Ha) as (w' & Hw' & Hid' & Hst').
    exists w'. split_and!; [|done..].
    after_update Hw Hw'.
    subst a'. congruence.
  - intros k a' [Hk Ha]%lookup_delete_Some.
    destruct (inv_requests s HI _ _ Ha) as (w' & Hw' & Hid').
    exists w'. split; [|done].
    after_update Hw Hw'.
    subst a'. congruence.
  - intros a' Ha. destruct (inv_timers s HI _ Ha) as (w' & Hw' & Hst').
    exists w'. split; [|done].
    after_update Hw Hw'.
    subst a'. assert (w' = w) as -> by congruence. destruct Hst; congruence.
  - apply (inv_nodup s HI).
Qed.

Lemma approve_inv (now : Z) (uuid wid admin : string) (notes : option string)
    (s : state) :
  Inv s -> Inv (fst (approve now uuid wid admin notes s)).
Proof.
  intros HI.
  destruct (approve_effect now uuid wid admin notes s)
    as [-> | (a & w & w1 & Hq & Hw & Hst1 & Hid1 & ->)]; [done|].
  destruct (inv_queue s HI _ _ Hq) as (w0 & Hw0 & Hid & Hst).
  assert (w0 = w) as -> by congruence.
  assert (Hnt : a ∉ timers s).
  { intros Ha. destruct (inv_timers s HI _ Ha) as (w' & Hw' & Hst').
    assert (w' = w) as -> by congruence. congruence. }
  split; cbn.
  - intros k a' [Hk Ha]%lookup_delete_Some.
    destruct (inv_queue s HI _ _ Ha) as (w' & Hw' & Hid' & Hst').
    exists w'. split_and!; [|done..].
    after_update Hw Hw'.
    subst a'. congruence.
  - intros k a' [[<- <-] | [Hk Ha]]%lookup_insert_Some.
    + exists w1. split; [|congruence].
      apply list_lookup_insert_eq. by eapply lookup_lt_Some.
    + destruct (inv_requests s HI _ _ Ha) as (w' & Hw' & Hid').
      rewrite (heap_update _ _ _ _ _ _ Hw Hw'). case_decide; [|eauto].
      subst a'. exists w1. split; [done|]. congruence.
  - intros a' [Ha | ->%list_elem_of_singleton]%elem_of_app.
    + destruct (inv_timers s HI _ Ha) as (w' & Hw' & Hst').
      exists w'. split; [|done].
      after_update Hw Hw'. by subst a'.
    + exists w1. split; [|done].
      apply list_lookup_insert_eq. by eapply lookup_lt_Some.
  - apply NoDup_app. split_and!.
    + apply (inv_nodup s HI).
    + intros x Hx ->%list_elem_of_singleton. done.
    + apply NoDup_singleton.
Qed.

Lemma timer_inv (now : Z) (k : nat) (random : float) (s : state) :
  Inv s -> Inv (paymentTimerFires now k random s).
Proof.
  intros HI.
  destruct (timer_effect now k random s)
    as [-> | (a & w & w1 & Hk & Hw & Hst1 & Hid1 & ->)]; [done|].
  assert (Ha : a ∈ timers s) by (apply list_elem_of_lookup; eauto).
  destruct (inv_timers s HI _ Ha) as (w0 & Hw0 & Hst).
  assert (w0 = w) as -> by congruence.
  pose proof (inv_nodup s HI) as Hnd.
  rewrite (delete_Permutation _ _ _ Hk) in Hnd.
  apply NoDup_cons in Hnd as [Hnotin Hnd'].
  split; cbn.
  - intros j a' Hj.
    destruct (inv_queue s HI _ _ Hj) as (w' & Hw' & Hid' & Hst').
    exists w'. split_and!; [|done..].
    after_update Hw Hw'.
    subst a'. congruence.
  - intros j a' [Hj Hl]%lookup_delete_Some.
    destruct (inv_requests s HI _ _ Hl) as (w' & Hw' & Hid').
    rewrite (heap_update _ _ _ _ _ _ Hw Hw'). case_decide; [|eauto].
    subst a'. exists w1. split; [done|]. congruence.
  - intros a' Ha'.
    destruct (inv_timers s HI a') as (w' & Hw' & Hst');
      [by eapply list_elem_of_delete_inv|].
    exists w'. split; [|done].
    after_update Hw Hw'. by subst a'.
  - done.
Qed.

Lemma step_inv (e : event) (s : state) : Inv s -> Inv (step e s).
Proof.
  destruct e; cbn [step];
    auto using request_inv, cancel_inv, approve_inv, timer_inv.
Qed.

Lemma run_app (es es' : list event) (s : state) :
  run (es ++ es') s = run es' (run es s).
Proof. apply fold_left_app. Qed.

Lemma run_inv (es : list event) (s : state) : Inv s -> Inv (run es s).
Proof.
  revert s. induction es as [|e es IH]; intros s HI; [done|].
  apply IH. by apply step_inv.
Qed.

(** *** Generated ids and the id validator

    The validator of /cancel and /approve accepts [wd_] followed by twelve
    letters or digits.  An id generated from a uuid string whose ninth
    character is a hyphen, as in the canonical 8-4-4-4-12 text of a uuid,
    carries that hyphen among its twelve characters and is rejected by the
    validator, so that both routes answer 400 for it.  The results below hold
    whatever the uuid strings are. *)

Lemma hyphenated_id_rejected (uuid : string) :
  String.get 8 uuid = Some (Ascii.ascii_of_nat 45) ->
  validWithdrawalId (generateWithdrawalId uuid) = false.
Proof.
  intros H.
  do 9 (destruct uuid as [|? uuid]; [done|]).
  cbn in H. injection H as ->.
  unfold validWithdrawalId, generateWithdrawalId.
  apply andb_false_iff. right.
  unfold String.append. simpl String.substring.
  simpl String.list_ascii_of_string. cbn [forallb].
  change (Match.isAlnum (Ascii.ascii_of_nat 45)) with false.
  cbn [andb]. by rewrite !andb_false_r.
Qed.

Lemma hyphenated_id_not_served (now : Z) (uuid gw uid admin : string)
    (why notes : option string) (s : state) :
  String.get 8 uuid = Some (Ascii.ascii_of_nat 45) ->
  cancel now (generateWithdrawalId uuid) uid why s = (s, Err 400 "Validation failed")
  ∧ approve now gw (generateWithdrawalId uuid) admin notes s
    = (s, Err 400 "Validation failed").
Proof.
  intros H. unfold cancel, approve.
  by rewrite (hyphenated_id_rejected uuid H).
Qed.

(** *** The status only advances *)

Lemma step_advances (e : event) (s : state) (a : addr) (w : withdrawal) :
  Inv s -> heap s !! a = Some w ->
  ∃ w', heap (step e s) !! a = Some w'
    ∧ rtc advance (wstatus w) (wstatus w').
Proof.
  intros HI Ha. destruct e as [now uuid r|now wid uid why|now uuid wid admin notes|now k rnd];
    cbn [step].
  - destruct (request_effect now uuid r s)
      as [-> | (w1 & q & _ & _ & _ & _ & ->)]; [by exists w|].
    exists w. split; [|done]. by apply lookup_app_l_Some.
  - destruct (cancel_effect now wid uid why s)
      as [-> | (a0 & w0 & _ & Hw0 & Hst & ->)]; [by exists w|].
    cbn [heap]. rewrite (heap_update _ _ _ _ _ _ Hw0 Ha).
    eexists. split; [done|]. case_decide; [|done].
    subst a0. assert (w0 = w) as -> by congruence.
    apply rtc_once. cbn. destruct Hst as [-> | ->]; auto.
  - destruct (approve_effect now uuid wid admin notes s)
      as [-> | (a0 & w0 & w1 & Hq & Hw0 & Hst1 & _ & ->)]; [by exists w|].
    cbn [heap]. rewrite (heap_update _ _ _ _ _ _ Hw0 Ha).
    eexists. split; [done|]. case_decide; [|done].
    subst a0. assert (w0 = w) as -> by congruence.
    destruct (inv_queue s HI _ _ Hq) as (w' & Hw' & _ & Hst').
    assert (w' = w) as -> by congruence. rewrite Hst', Hst1.
    apply rtc_l with approved; [auto|]. apply rtc_once. auto.
  - destruct (timer_effect now k rnd s)
      as [-> | (a0 & w0 & w1 & Hk & Hw0 & Hst1 & _ & ->)]; [by exists w|].
    cbn [heap]. rewrite (heap_update _ _ _ _ _ _ Hw0 Ha).
    eexists. split; [done|]. case_decide; [|done].
    subst a0. assert (w0 = w) as -> by congruence.
    destruct (inv_timers s HI a) as (w' & Hw' & Hst');
      [apply list_elem_of_lookup; eauto|].
    assert (w' = w) as -> by congruence. rewrite Hst'.
    apply rtc_once. destruct Hst1 as [-> | ->]; auto.
Qed.

(** Objects enter the heap as pending approval. *)
Lemma step_fresh (e : event) (s : state) (a : addr) (w' : withdrawal) :
  heap s !! a = None -> heap (step e s) !! a = Some w' ->
  wstatus w' = pending_approval.
Proof.
  intros Hn. destruct e as [now uuid r|now wid uid why|now uuid wid admin notes|now k rnd];
    cbn [step].
  - destruct (request_effect now uuid r s)
      as [-> | (w1 & q & Hw1 & Hq & _ & _ & ->)]; [by rewrite Hn|].
    cbn [heap]. apply lookup_ge_None_1 in Hn.
    rewrite lookup_app_r by done.
    destruct (a - length (heap s))%nat as [|[|n]]; cbn; [by intros [= <-]..|done].
  - destruct (cancel_effect now wid uid why s)
      as [-> | (a0 & w0 & _ & _ & _ & ->)]; [by rewrite Hn|].
    cbn [heap]. intros H. apply lookup_lt_Some in H.
    rewrite length_insert in H. apply lookup_ge_None_1 in Hn. lia.
  - destruct (approve_effect now uuid wid admin notes s)
      as [-> | (a0 & w0 & w1 & _ & _ & _ & _ & ->)]; [by rewrite Hn|].
    cbn [heap]. intros H. apply lookup_lt_Some in H.
    rewrite length_insert in H. apply lookup_ge_None_1 in Hn. lia.
  - destruct (timer_effect now k rnd s)
      as [-> | (a0 & w0 & w1 & _ & _ & _ & _ & ->)]; [by rewrite Hn|].
    cbn [heap]. intros H. apply lookup_lt_Some in H.
    rewrite length_insert in H. apply lookup_ge_None_1 in Hn. lia.
Qed.

Lemma run_advances (es : list event) (s : state) (a : addr) (w : withdrawal) :
  Inv s -> heap s !! a = Some w ->
  ∃ w', heap (run es s) !! a = Some w'
    ∧ rtc advance (wstatus w) (wstatus w').
Proof.
  revert s w. induction es as [|e es IH]; intros s w HI Ha; [by exists w|].
  destruct (step_advances e s a w HI Ha) as (w1 & H1 & R1).
  destruct (IH (step e s) w1 (step_inv e s HI) H1) as (w2 & H2 & R2).
  exists w2. split; [done|]. by etrans.
Qed.

Lemma failed_stays (es : list event) (s : state) (a : addr) :
  Inv s -> statusAt a s = Some failed -> statusAt a (run es s) = Some failed.
Proof.
  unfold statusAt. intros HI H.
  destruct (heap s !! a) as [w|] eqn:Ha; [|done]. injection H as Hst.
  destruct (run_advances es s a w HI Ha) as (w' & -> & R).
  rewrite Hst in R. apply failed_no_advance in R. cbn. by rewrite R.
Qed.


Lemma timer_outcome (now : Z) (k : nat) (rnd : float) (s : state) (a : addr) :
  Inv s -> timers s !! k = Some a ->
  statusAt a (paymentTimerFires now k rnd s)
  = Some (if (0.1 <? rnd)%float then completed else failed).
Proof.
  intros HI Hk.
  destruct (inv_timers s HI a) as (w & Hw & _); [apply list_elem_of_lookup; eauto|].
  unfold paymentTimerFires, statusAt. rewrite Hk, Hw. cbn [heap].
  rewrite list_lookup_insert_eq by (by eapply lookup_lt_Some).
  unfold payment_settled. by destruct (0.1 <? rnd)%float.
Qed.

(** *** The running program *)

Lemma uuid_text_hyphen (u : string) :
  uuid_text u = true -> String.get 8 u = Some (Ascii.ascii_of_nat 45).
Proof.
  unfold uuid_text. intros [Hlen H]%andb_prop.
  do 9 (destruct u as [|? u]; [done|]).
  cbn [String.list_ascii_of_string uuid_chars] in H.
  do 8 (apply andb_prop in H as [_ H]). apply andb_prop in H as [H _].
  unfold uuid_char in H. cbn [Nat.eqb orb] in H. apply Nat.eqb_eq in H.
  cbn [String.get]. f_equal. by rewrite <- H, Ascii.ascii_nat_embedding.
Qed.

Lemma generated_id_rejected (u : string) :
  uuid_text u = true -> validWithdrawalId (generateWithdrawalId u) = false.
Proof. intros H. by apply hyphenated_id_rejected, uuid_text_hyphen. Qed.

Lemma Pending_initial : Pending initial.
Proof.
  split; cbn; try done; intros ? ? H;
    first [by rewrite lookup_empty in H | by rewrite lookup_nil in H].
Qed.

(** With no servable id in the stores, [/cancel], [/approve] and the gateway
    timers change nothing. *)
Lemma cancel_refused (now : Z) (wid uid : string) (why : option string) (s : state) :
  Pending s ->
  cancel now wid uid why s = (s, Err 400 "Validation failed")
  ∨ cancel now wid uid why s = (s, Err 404 "WITHDRAWAL_NOT_FOUND").
Proof.
  intros HP. unfold cancel.
  destruct (validWithdrawalId wid) eqn:Hv; cbn [andb negb]; [|by left].
  destruct (_ && _); cbn [negb]; [|by left]. right.
  unfold findForCancel.
  destruct (withdrawalRequests s !! wid) as [a|] eqn:Hr.
  { apply (pend_requests s HP) in Hr. congruence. }
  destruct (processingQueue s !! wid) as [a|] eqn:Hq; [|done].
  apply (pend_queue s HP) in Hq. congruence.
Qed.

Lemma approve_refused (now : Z) (uuid wid admin : string) (notes : option string)
    (s : state) :
  Pending s ->
  approve now uuid wid admin notes s = (s, Err 400 "Validation failed")
  ∨ approve now uuid wid admin notes s = (s, Err 404 "WITHDRAWAL_NOT_IN_QUEUE").
Proof.
  intros HP. unfold approve.
  destruct (validWithdrawalId wid) eqn:Hv; cbn [andb negb]; [|by left].
  destruct (_ && _); cbn [negb]; [|by left]. right.
  destruct (processingQueue s !! wid) as [a|] eqn:Hq; [|done].
  apply (pend_queue s HP) in Hq. congruence.
Qed.

Lemma timer_idle (now : Z) (k : nat) (rnd : float) (s : state) :
  Pending s -> paymentTimerFires now k rnd s = s.
Proof.
  intros HP. unfold paymentTimerFires. rewrite (pend_timers s HP).
  by rewrite lookup_nil.
Qed.

Lemma step_idle (e : event) (s : state) :
  Pending s -> (∀ now uuid r, e ≠ Request now uuid r) -> step e s = s.
Proof.
  intros HP Hne. destruct e as [now uuid r|now wid uid why|now uuid wid admin notes|now k rnd];
    cbn [step].
  - by destruct (Hne now uuid r).
  - by destruct (cancel_refused now wid uid why s HP) as [-> | ->].
  - by destruct (approve_refused now uuid wid admin notes s HP) as [-> | ->].
  - by apply timer_idle.
Qed.

Lemma step_pending (e : event) (s : state) :
  genuine e = true -> Pending s -> Pending (step e s).
Proof.
  intros Hg HP.
  destruct e as [now uuid r|now wid uid why|now uuid wid admin notes|now k rnd];
    try (by rewrite step_idle).
  cbn [step genuine] in *.
  destruct (request_effect now uuid r s)
    as [-> | (w & q & Hw & Hq & _ & _ & ->)]; [done|].
  split; cbn [withdrawalRequests processingQueue completedWithdrawals timers heap].
  - intros k a [[<- _] | [_ H]]%lookup_insert_Some;
      [by apply generated_id_rejected | by apply (pend_requests s HP) in H].
  - intros k a [[<- _] | [_ H]]%lookup_insert_Some;
      [by apply generated_id_rejected | by apply (pend_queue s HP) in H].
  - apply (pend_completed s HP).
  - apply (pend_timers s HP).
  - intros a w0 [H | [_ H]]%lookup_app_Some; [by apply (pend_heap s HP) in H|].
    destruct (a - length (heap s))%nat as [|[|[|n]]]; cbn in H; congruence.
Qed.

Lemma run_pending (es : list event) (s : state) :
  forallb genuine es = true -> Pending s -> Pending (run es s).
Proof.
  revert s. induction es as [|e es IH]; intros s Hg HP; [done|].
  cbn in Hg. apply andb_prop in Hg as [He Hes].
  apply IH; [done|]. by apply step_pending.
Qed.

(** Objects stay where they are and as they are. *)
Lemma step_keeps_objects (e : event) (s : state) (a : addr) (w : withdrawal) :
  Pending s -> heap s !! a = Some w -> heap (step e s) !! a = Some w.
Proof.
  intros HP Ha.
  destruct e as [now uuid r|now wid uid why|now uuid wid admin notes|now k rnd];
    try (by rewrite step_idle).
  cbn [step].
  destruct (request_effect now uuid r s)
    as [-> | (w1 & q & _ & _ & _ & _ & ->)]; [done|].
  by apply lookup_app_l_Some.
Qed.

Lemma run_keeps_objects (es : list event) (s : state) (a : addr) (w : withdrawal) :
  forallb genuine es = true -> Pending s -> heap s !! a = Some w ->
  heap (run es s) !! a = Some w.
Proof.
  revert s. induction es as [|e es IH]; intros s Hg HP Ha; [done|].
  cbn in Hg. apply andb_prop in Hg as [He Hes].
  apply IH; [done| by apply step_pending | by apply step_keeps_objects].
Qed.

(** C3.  In the running program, where the ids are cut from texts of
    [uuidv4()], the status of every withdrawal is one of the states of the
    sequence pending_approval -> approved -> processing -> completed |
    failed, and between any two moments of a run it has only moved along
    that sequence.  It does so in the narrowest way: no stored id passes the
    pattern of /cancel and /approve, so no request, cancellation, approval or
    gateway timer ever moves a withdrawal off pending_approval. *)
Theorem status_stays_in_sequence (es es' : list event) (a : addr) (w : withdrawal) :
  forallb genuine (es ++ es') = true ->
  heap (run es initial) !! a = Some w ->
  wstatus w ∈ [pending_approval; approved; processing; completed; failed]
  ∧ ∃ w', heap (run (es ++ es') initial) !! a = Some w'
      ∧ rtc sequence (wstatus w) (wstatus w')
      ∧ wstatus w = pending_approval ∧ wstatus w' = pending_approval.
Proof.
  rewrite forallb_app. intros [Hg Hg']%andb_prop Ha.
  pose proof (run_pending es initial Hg Pending_initial) as HP.
  pose proof (pend_heap _ HP a w Ha) as Hst.
  split; [rewrite Hst; apply list_elem_of_here|].
  exists w. rewrite run_app. split; [by apply run_keeps_objects|]. by split_and!.
Qed.

Lemma status_stays_in_sequence_witness :
  ∃ w, heap (run sample_run initial) !! 0%nat = Some w
    ∧ id w = "wd_12345678-90a" ∧ wstatus w = pending_approval.
Proof.
  destruct (status_stays_in_sequence [Request 1 sample_uuid sample_request]
              (tail sample_run) 0%nat
              (mkWithdrawal "wd_12345678-90a" "user_001" 500 500 0 "INR" "UPI"
                 pending_approval "pending" 1 14400001 "2-4 hours"
                 None None None None None None None None None None None None None)
              eq_refl eq_refl)
    as (_ & w' & Hw' & _ & _ & Hst).
  exists w'. split; [exact Hw'|]. split; [|exact Hst].
  vm_compute in Hw'. by injection Hw' as <-.
Defined.

End WithdrawalProofs.

(** * Further properties *)

(** ** match.js: consistency of the stores *)

Module MatchFacts.
Import Js Match MatchProofs.

Lemma omap_get_delete_ne {V} (k j : string) (m : omap V) :
  k ≠ j -> omap_get j (omap_delete k m) = omap_get j m.
Proof.
  intros Hne. induction m as [|[k' v'] m IH]; cbn; [done|].
  destruct (String.eqb k' k) eqn:E; cbn.
  - apply String.eqb_eq in E. subst k'.
    destruct (String.eqb k j) eqn:E'; [|done].
    apply String.eqb_eq in E'. contradiction.
  - by rewrite IH.
Qed.

Lemma omap_get_None {V} (k : string) (m : omap V) :
  k ∉ map fst m -> omap_get k m = None.
Proof.
  induction m as [|[k' v'] m IH]; cbn; [done|].
  intros [Hne Hnotin]%not_elem_of_cons.
  destruct (String.eqb k' k) eqn:E; [|by apply IH].
  apply String.eqb_eq in E. congruence.
Qed.

Lemma omap_get_delete_eq {V} (k : string) (m : omap V) :
  NoDup (map fst m) -> omap_get k (omap_delete k m) = None.
Proof.
  induction m as [|[k' v'] m IH]; cbn; [done|].
  intros [Hnotin Hnd]%NoDup_cons.
  destruct (String.eqb k' k) eqn:E; cbn.
  - apply String.eqb_eq in E. subst k'. by apply omap_get_None.
  - rewrite E. by apply IH.
Qed.

Lemma omap_set_key {V} (k j : string) (v : V) (m : omap V) :
  j ∈ map fst (omap_set k v m) -> j = k ∨ j ∈ map fst m.
Proof.
  induction m as [|[k' v'] m IH]; cbn.
  - intros ->%list_elem_of_singleton. by left.
  - destruct (String.eqb k' k) eqn:E; cbn; intros [-> | H]%elem_of_cons.
    + by left.
    + right. apply elem_of_cons. by right.
    + right. apply elem_of_cons. by left.
    + destruct (IH H) as [-> | H']; [by left|].
      right. apply elem_of_cons. by right.
Qed.

Lemma omap_set_NoDup {V} (k : string) (v : V) (m : omap V) :
  NoDup (map fst m) -> NoDup (map fst (omap_set k v m)).
Proof.
  induction m as [|[k' v'] m IH]; cbn.
  - intros _. apply NoDup_singleton.
  - intros [Hnotin Hnd]%NoDup_cons.
    destruct (String.eqb k' k) eqn:E; cbn.
    + apply String.eqb_eq in E. subst k'. by apply NoDup_cons.
    + apply NoDup_cons. split; [|by apply IH].
      intros [-> | H]%omap_set_key; [|done].
      by rewrite String.eqb_refl in E.
Qed.

Lemma omap_delete_key {V} (k j : string) (m : omap V) :
  j ∈ map fst (omap_delete k m) -> j ∈ map fst m.
Proof.
  induction m as [|[k' v'] m IH]; cbn; [done|].
  destruct (String.eqb k' k); cbn.
  - intros H. apply elem_of_cons. by right.
  - intros [-> | H]%elem_of_cons; apply elem_of_cons; [by left|].
    right. by apply IH.
Qed.

Lemma omap_delete_NoDup {V} (k : string) (m : omap V) :
  NoDup (map fst m) -> NoDup (map fst (omap_delete k m)).
Proof.
  induction m as [|[k' v'] m IH]; cbn; [done|].
  intros [Hnotin Hnd]%NoDup_cons.
  destruct (String.eqb k' k); cbn; [done|].
  apply NoDup_cons. split; [|by apply IH].
  intros H%omap_delete_key. done.
Qed.

Lemma omap_get_set {V} (k j : string) (v x : V) (m : omap V) :
  omap_get j (omap_set k v m) = Some x ->
  (j = k ∧ x = v) ∨ (j ≠ k ∧ omap_get j m = Some x).
Proof.
  destruct (decide (k = j)) as [<- | Hne].
  - rewrite omap_get_set_eq. intros [= <-]. by left.
  - rewrite omap_get_set_ne by done. intros H. right. by split.
Qed.

Lemma omap_get_delete {V} (k j : string) (x : V) (m : omap V) :
  NoDup (map fst m) ->
  omap_get j (omap_delete k m) = Some x -> j ≠ k ∧ omap_get j m = Some x.
Proof.
  intros Hnd. destruct (decide (k = j)) as [<- | Hne].
  - by rewrite omap_get_delete_eq.
  - rewrite omap_get_delete_ne by done. intros H. by split.
Qed.

(** The four outcomes of [/find]. *)
Lemma find_cases (now : Z) (uuid : string) (r : findReq) (s : state) :
  let key := waitingKey (f_gameType r) (default "INR" (f_currency r)) in
  find now uuid r s = (s, Err 400 "Validation failed")
  ∨ (∃ ex, ex ∈ omap_values (activeMatches s)
       ∧ inMatch (f_playerId r) ex = true
       ∧ find now uuid r s = (s, Ok (Existing (m_id ex) (m_status ex))))
  ∨ (∃ o, waitingPlayers s !! key = Some [o]
       ∧ find now uuid r s
         = (mkState (omap_set (generateMatchId uuid) (newMatch now uuid r o)
                       (activeMatches s))
              (delete key (waitingPlayers s)) (matchHistory s),
            Ok (Found (generateMatchId uuid) (f_gameType r) (wt_id o)
                  (convertCurrency 10 "INR" (default "INR" (f_currency r)))
                  (default "INR" (f_currency r)))))
  ∨ (∃ o o' rest, waitingPlayers s !! key = Some (o :: o' :: rest))
  ∨ (waitingPlayers s !! key = Some [])
  ∨ (waitingPlayers s !! key = None
     ∧ find now uuid r s
       = (mkState (activeMatches s)
            (<[key := [mkWaiter (f_playerId r) now]]> (waitingPlayers s))
            (matchHistory s),
          Ok (Waiting 1))).
Proof.
  intros key.
  destruct (find_valid r) eqn:Hv; [|left; by unfold find; rewrite Hv].
  destruct (List.find (inMatch (f_playerId r)) (omap_values (activeMatches s)))
    as [ex|] eqn:Hex.
  { right. left. exists ex. pose proof (find_some _ _ Hex) as [Hin Hp].
    split_and!; [by apply list_elem_of_In|done|].
    unfold find. by rewrite Hv, Hex. }
  destruct (waitingPlayers s !! key) as [[|o [|o' rest]]|] eqn:Hq.
  - do 4 right. by left.
  - do 2 right. left. exists o. split; [done|].
    rewrite (find_pairs now uuid r s o []) by done.
    unfold takeOpponent. fold key. by rewrite Hq.
  - do 3 right. left. eauto.
  - do 5 right. split; [done|].
    rewrite find_waits; [|done..|by unfold takeOpponent; fold key; rewrite Hq].
    cbn zeta. fold key. by rewrite Hq.
Qed.

Lemma Consistent_initial : Consistent initial.
Proof.
  split; cbn.
  - constructor.
  - done.
  - intros k m H. by rewrite lookup_empty in H.
  - intros k l H. by rewrite lookup_empty in H.
  - intros m [H | [k H]]; cbn in H.
    + by apply elem_of_nil in H.
    + by rewrite lookup_empty in H.
Qed.

Lemma storable_max0 (x : jsint) : storable (Math_max0 x).
Proof. destruct x; cbn; try done. lia. Qed.

Lemma setScore_storable (pid : string) (x : jsint) (now : Z) (ps : list player) :
  Forall (fun p => storable (p_score p)) ps ->
  Forall (fun p => storable (p_score p)) (setScore pid (Math_max0 x) now ps).
Proof.
  induction 1 as [|p ps Hp Hps IH]; cbn; [done|].
  destruct (String.eqb (p_id p) pid); constructor; try done.
  apply storable_max0.
Qed.

Lemma find_consistent (now : Z) (uuid : string) (r : findReq) (s : state) :
  Consistent s -> Consistent (fst (find now uuid r s)).
Proof.
  intros HC.
  destruct (find_cases now uuid r s)
    as [-> | [(ex & _ & _ & ->) | [(o & Hq & ->) | [(o & o' & rest & Hq) | [Hq | [Hq ->]]]]]];
    try done.
  - split; cbn.
    + apply omap_set_NoDup, (cons_keys s HC).
    + intros k m [[-> ->] | [_ H]]%omap_get_set; [done|].
      by apply (cons_active s HC).
    + apply (cons_history s HC).
    + intros k l [_ H]%lookup_delete_Some. by apply (cons_waiting s HC) in H.
    + intros m [H | H]; cbn in H.
      * apply omap_set_elem in H as [-> | H].
        -- cbn. by repeat constructor.
        -- apply (cons_scores s HC). by left.
      * apply (cons_scores s HC). by right.
  - by apply (cons_waiting s HC) in Hq.
  - by apply (cons_waiting s HC) in Hq.
  - split; cbn.
    + apply (cons_keys s HC).
    + apply (cons_active s HC).
    + apply (cons_history s HC).
    + intros k l [[_ <-] | [_ H]]%lookup_insert_Some; [done|].
      by apply (cons_waiting s HC) in H.
    + intros m [H | H]; apply (cons_scores s HC); [by left | by right].
Qed.

Lemma submitScore_consistent (now : Z) (mid pid : string) (parsed : jsint) (s : state) :
  Consistent s -> Consistent (fst (submitScore now mid pid parsed s)).
Proof.
  intros HC. unfold submitScore.
  destruct (negb _); [done|].
  destruct (omap_get mid (activeMatches s)) as [m0|] eqn:Hm0; [|done].
  destruct (negb _); [done|]. cbn [fst].
  destruct (cons_active s HC _ _ Hm0) as (Hid & Hst & Hres & Hend).
  split; cbn.
  - apply omap_set_NoDup, (cons_keys s HC).
  - intros k m [[-> ->] | [_ H]]%omap_get_set; [done|].
    by apply (cons_active s HC).
  - apply (cons_history s HC).
  - apply (cons_waiting s HC).
  - intros m [H | H]; cbn in H; [|apply (cons_scores s HC); by right].
    apply omap_set_elem in H as [-> | H]; [|apply (cons_scores s HC); by left].
    cbn. apply setScore_storable, (cons_scores s HC). left. by eapply omap_get_elem.
Qed.

Lemma finished_consistent (st : string) (now : Z) (res : result)
    (why who : option string) (mid : string) (m0 : match_) (s : state) :
  Consistent s -> omap_get mid (activeMatches s) = Some m0 ->
  st = "completed" ∨ st = "cancelled" ->
  Consistent (mkState (omap_delete mid (activeMatches s)) (waitingPlayers s)
                (<[mid := finish st now res why who m0]> (matchHistory s))).
Proof.
  intros HC Hm0 Hst.
  destruct (cons_active s HC _ _ Hm0) as (Hid & _).
  split; cbn.
  - apply omap_delete_NoDup, (cons_keys s HC).
  - intros k m [_ H]%omap_get_delete; [|apply (cons_keys s HC)].
    by apply (cons_active s HC).
  - intros k m [[<- <-] | [_ H]]%lookup_insert_Some; [|by apply (cons_history s HC)].
    cbn. split_and!; eauto.
  - apply (cons_waiting s HC).
  - intros m [H | [k H]]; cbn in H.
    + apply (cons_scores s HC). left. by eapply omap_delete_elem.
    + apply lookup_insert_Some in H as [[_ <-] | [_ H]].
      * cbn. apply (cons_scores s HC). left. by eapply omap_get_elem.
      * apply (cons_scores s HC). right. eauto.
Qed.

Lemma complete_consistent (now : Z) (mid : string) (s : state) :
  Consistent s -> Consistent (fst (complete now mid s)).
Proof.
  intros HC. unfold complete.
  destruct (negb _); [done|].
  destruct (omap_get mid (activeMatches s)) as [m0|] eqn:Hm0; [|done].
  destruct (String.eqb _ _); [done|].
  destruct (sort _ _) as [|w [|l ?]]; [done..|]. cbn [fst].
  apply finished_consistent; auto.
Qed.

Lemma cancel_consistent (now : Z) (mid pid : string) (why : option string) (s : state) :
  Consistent s -> Consistent (fst (cancel now mid pid why s)).
Proof.
  intros HC. unfold cancel.
  destruct (negb _); [done|].
  destruct (omap_get mid (activeMatches s)) as [m0|] eqn:Hm0; [|done].
  destruct (negb _); [done|]. cbn [fst].
  apply finished_consistent; auto.
Qed.

Lemma step_consistent (e : event) (s : state) : Consistent s -> Consistent (step e s).
Proof.
  destruct e; cbn [step];
    auto using find_consistent, submitScore_consistent, complete_consistent,
      cancel_consistent.
Qed.

Lemma run_consistent (es : list event) : Consistent (run es initial).
Proof.
  enough (H : ∀ s, Consistent s -> Consistent (run es s))
    by apply H, Consistent_initial.
  induction es as [|e es IH]; intros s HC; [done|].
  apply IH. by apply step_consistent.
Qed.

Lemma run_sessions (es : list event) : allSessions (run es initial).
Proof.
  enough (H : ∀ s, allSessions s -> allSessions (run es s)).
  { apply H. intros m' [Hm | [k Hm]]; cbn in Hm.
    - by apply elem_of_nil in Hm.
    - by rewrite lookup_empty in Hm. }
  induction es as [|e es IH]; intros s HI; [done|].
  apply IH. destruct e; cbn [step];
    auto using find_sessions, submitScore_sessions, complete_sessions, cancel_sessions.
Qed.

(** X2.  A waiting list never holds more than one player: in every state
    the handlers reach each stored waiting list has exactly one entry, and a
    request that is put on a waiting list is always told queue position 1. *)
Theorem waiting_lists_hold_one_player (es : list event) :
  (∀ key l, waitingPlayers (run es initial) !! key = Some l -> length l = 1%nat)
  ∧ (∀ now uuid r n,
       snd (find now uuid r (run es initial)) = Ok (Waiting n) -> n = 1%nat).
Proof.
  pose proof (run_consistent es) as HC. split; [apply (cons_waiting _ HC)|].
  intros now uuid r n.
  destruct (find_cases now uuid r (run es initial))
    as [-> | [(ex & _ & _ & ->) | [(o & Hq & ->) | [(o & o' & rest & Hq) | [Hq | [Hq ->]]]]]];
    cbn [snd]; try done.
  - by apply (cons_waiting _ HC) in Hq.
  - by apply (cons_waiting _ HC) in Hq.
  - by intros [= <-].
Qed.

(** X3.  Active matches never expire or change status on their own: in every
    reachable state POST /:matchId/complete never answers
    MATCH_ALREADY_COMPLETED, and GET /:matchId/status reports the status
    "starting", two players, and a remaining time of
    max(0, startTime + 60000 - now) milliseconds. *)
Theorem active_matches_never_expire (es : list event) (now : Z) (mid : string) :
  snd (complete now mid (run es initial)) ≠ Err 400 "MATCH_ALREADY_COMPLETED"
  ∧ (∀ info, matchStatus now mid (run es initial) = Ok info ->
       si_status info = "starting"
       ∧ length (si_players info) = 2%nat
       ∧ si_timeRemaining info = Z.max 0 (si_startTime info + 60000 - now)).
Proof.
  pose proof (run_consistent es) as HC. pose proof (run_sessions es) as HS.
  split.
  - unfold complete. destruct (negb _); [done|].
    destruct (omap_get mid (activeMatches (run es initial))) as [m|] eqn:Hm; [|done].
    destruct (cons_active _ HC _ _ Hm) as (_ & -> & _). cbn.
    by destruct (sort _ _) as [|w [|l ?]].
  - intros info. unfold matchStatus. destruct (negb _); [done|].
    destruct (omap_get mid (activeMatches (run es initial))) as [m|] eqn:Hm; [|done].
    intros [= <-]. cbn.
    destruct (cons_active _ HC _ _ Hm) as (_ & -> & _).
    destruct (HS m) as (Hl & -> & _); [left; by eapply omap_get_elem|].
    by rewrite length_map, Hl.
Qed.

(** A successful [/complete] or [/cancel]. *)
Lemma finished_state (now : Z) (mid : string) (s s' : state) :
  (∃ res, complete now mid s = (s', Ok res))
  ∨ (∃ pid why refunds, cancel now mid pid why s = (s', Ok refunds)) ->
  validMatchId mid = true
  ∧ ∃ m m', omap_get mid (activeMatches s) = Some m
      ∧ s' = mkState (omap_delete mid (activeMatches s)) (waitingPlayers s)
               (<[mid := m']> (matchHistory s)).
Proof.
  intros [(res & H) | (pid & why & refunds & H)]; revert H.
  - unfold complete. destruct (validMatchId mid); cbn [negb]; [|done].
    destruct (omap_get mid (activeMatches s)) as [m|]; [|done].
    destruct (String.eqb _ _); [done|].
    destruct (sort _ _) as [|w [|l ?]]; [done..|].
    intros [= <- _]. eauto.
  - unfold cancel. destruct (validMatchId mid); cbn [negb andb]; [|done].
    destruct (_ && _); cbn [negb]; [|done].
    destruct (omap_get mid (activeMatches s)) as [m|]; [|done].
    destruct (negb _); [done|].
    intros [= <- _]. eauto.
Qed.

Lemma step_absent (mid : string) (e : event) (s : state) :
  Consistent s -> omap_get mid (activeMatches s) = None -> avoids mid e = true ->
  omap_get mid (activeMatches (step e s)) = None.
Proof.
  intros HC Hno Hav. destruct e as [now uuid r|now k pid sc|now k|now k pid why];
    cbn [step avoids] in *.
  - apply negb_true_iff, String.eqb_neq in Hav.
    destruct (find_cases now uuid r s)
      as [-> | [(ex & _ & _ & ->) | [(o & Hq & ->) | [(o & o' & rest & Hq) | [Hq | [Hq ->]]]]]];
      try done.
    + cbn [fst activeMatches]. by rewrite omap_get_set_ne.
    + by apply (cons_waiting _ HC) in Hq.
    + by apply (cons_waiting _ HC) in Hq.
  - unfold submitScore. destruct (negb _); [done|].
    destruct (omap_get k (activeMatches s)) as [m|] eqn:Hk; [|done].
    destruct (negb _); [done|]. cbn [fst activeMatches].
    rewrite omap_get_set_ne; [done|]. intros ->. congruence.
  - unfold complete. destruct (negb _); [done|].
    destruct (omap_get k (activeMatches s)) as [m|] eqn:Hk; [|done].
    destruct (String.eqb _ _); [done|].
    destruct (sort _ _) as [|w [|l ?]]; [done..|]. cbn [fst activeMatches].
    rewrite omap_get_delete_ne; [done|]. intros ->. congruence.
  - unfold cancel. destruct (negb _); [done|].
    destruct (omap_get k (activeMatches s)) as [m|] eqn:Hk; [|done].
    destruct (negb _); [done|]. cbn [fst activeMatches].
    rewrite omap_get_delete_ne; [done|]. intros ->. congruence.
Qed.

Lemma step_history (mid : string) (e : event) (s : state) :
  Consistent s -> is_Some (matchHistory s !! mid) ->
  is_Some (matchHistory (step e s) !! mid).
Proof.
  intros HC Hh. destruct e as [now uuid r|now k pid sc|now k|now k pid why];
    cbn [step].
  - destruct (find_cases now uuid r s)
      as [-> | [(ex & _ & _ & ->) | [(o & Hq & ->) | [(o & o' & rest & Hq) | [Hq | [Hq ->]]]]]];
      try done.
    + by apply (cons_waiting _ HC) in Hq.
    + by apply (cons_waiting _ HC) in Hq.
  - unfold submitScore. destruct (negb _); [done|].
    destruct (omap_get k (activeMatches s)) as [m|]; [|done].
    by destruct (negb _).
  - unfold complete. destruct (negb _); [done|].
    destruct (omap_get k (activeMatches s)) as [m|]; [|done].
    destruct (String.eqb _ _); [done|].
    destruct (sort _ _) as [|w [|l ?]]; [done..|]. cbn [fst matchHistory].
    destruct (decide (k = mid)) as [-> | Hne];
      [rewrite lookup_insert_eq; eauto | by rewrite lookup_insert_ne].
  - unfold cancel. destruct (negb _); [done|].
    destruct (omap_get k (activeMatches s)) as [m|]; [|done].
    destruct (negb _); [done|]. cbn [fst matchHistory].
    destruct (decide (k = mid)) as [-> | Hne];
      [rewrite lookup_insert_eq; eauto | by rewrite lookup_insert_ne].
Qed.

Lemma run_absent (mid : string) (es : list event) (s : state) :
  Consistent s -> omap_get mid (activeMatches s) = None ->
  is_Some (matchHistory s !! mid) -> forallb (avoids mid) es = true ->
  omap_get mid (activeMatches (run es s)) = None
  ∧ is_Some (matchHistory (run es s) !! mid).
Proof.
  revert s. induction es as [|e es IH]; intros s HC Hno Hh Hav; [done|].
  cbn in Hav. apply andb_prop in Hav as [He Hes].
  apply IH; auto using step_consistent, step_absent, step_history.
Qed.

(** X4.  A match that was completed or cancelled is gone from the active
    matches and kept in the history.  Whatever is requested afterwards, as
    long as no later /find generates the same match id again, the status
    route and /complete answer 404 MATCH_NOT_FOUND for its id, and no score
    and no cancellation is accepted for it. *)
Theorem finished_match_is_gone (es es' : list event) (now : Z) (mid : string)
    (s' : state) :
  (∃ res, complete now mid (run es initial) = (s', Ok res))
  ∨ (∃ pid why refunds, cancel now mid pid why (run es initial) = (s', Ok refunds)) ->
  forallb (avoids mid) es' = true ->
  is_Some (matchHistory (run es' s') !! mid)
  ∧ ∀ now',
      matchStatus now' mid (run es' s') = Err 404 "MATCH_NOT_FOUND"
      ∧ snd (complete now' mid (run es' s')) = Err 404 "MATCH_NOT_FOUND"
      ∧ (∀ pid sc st, snd (submitScore now' mid pid sc (run es' s')) ≠ Ok st)
      ∧ (∀ pid why rf, snd (cancel now' mid pid why (run es' s')) ≠ Ok rf).
Proof.
  intros H Hav.
  assert (HC' : Consistent s').
  { pose proof (run_consistent es) as HC.
    destruct H as [(res & H) | (pid & why & refunds & H)].
    - apply (complete_consistent now mid) in HC. by rewrite H in HC.
    - apply (cancel_consistent now mid pid why) in HC. by rewrite H in HC. }
  apply finished_state in H as (Hv & m & m' & Hm & Hs').
  pose proof (run_consistent es) as HC.
  assert (Hgone : omap_get mid (activeMatches s') = None).
  { rewrite Hs'. cbn. apply omap_get_delete_eq, (cons_keys _ HC). }
  assert (Hkept : is_Some (matchHistory s' !! mid)).
  { rewrite Hs'. cbn. rewrite lookup_insert_eq. eauto. }
  destruct (run_absent mid es' s' HC' Hgone Hkept Hav) as [Hno Hh].
  split; [done|].
  intros now'. unfold matchStatus, complete, submitScore, cancel.
  rewrite Hv, Hno. cbn [negb andb].
  split_and!; try done.
  - intros pid sc st. by destruct (Js.nonEmpty pid).
  - intros pid why rf. by destruct (_ && _).
Qed.

Lemma finished_match_is_gone_witness :
  snd (complete 9 "match_0123abcd"
         (run [Find 6 "" (chess "carol" None);
               Find 7 "89abcdef-0123" (chess "dave" None);
               Score 8 "match_0123abcd" "bob" (Int 3)]
            (fst (complete 5 "match_0123abcd" (run two_finds initial)))))
  = Err 404 "MATCH_NOT_FOUND".
Proof.
  destruct (finished_match_is_gone two_finds
              [Find 6 "" (chess "carol" None);
               Find 7 "89abcdef-0123" (chess "dave" None);
               Score 8 "match_0123abcd" "bob" (Int 3)]
              5 "match_0123abcd"
              (fst (complete 5 "match_0123abcd" (run two_finds initial))))
    as [_ H].
  - left. eexists. vm_compute. reflexivity.
  - reflexivity.
  - exact (proj1 (proj2 (H 9))).
Defined.

(** X5.  The final broadcast of a completed or cancelled match has no
    recipient, whichever players hold an open socket: the handlers remove the
    match from [activeMatches] before they call [broadcastToMatch], which
    looks the players up there. *)
Theorem final_broadcast_reaches_nobody (es : list event) (now : Z) (mid : string)
    (s' : state) (open : nat -> bool) :
  (∃ res, complete now mid (run es initial) = (s', Ok res))
  ∨ (∃ pid why refunds, cancel now mid pid why (run es initial) = (s', Ok refunds)) ->
  broadcastToMatch open mid s' = [].
Proof.
  pose proof (run_consistent es) as HC.
  intros H. apply finished_state in H as (Hv & m & m' & Hm & ->).
  unfold broadcastToMatch. cbn [activeMatches].
  by rewrite omap_get_delete_eq by apply (cons_keys _ HC).
Qed.

Lemma final_broadcast_reaches_nobody_witness :
  broadcastToMatch (fun _ => true) "match_0123abcd" (run two_finds initial)
  = [mkPlayer "bob" (Int 0) "connected" None; mkPlayer "alice" (Int 0) "connected" None]
  ∧ broadcastToMatch (fun _ => true) "match_0123abcd"
      (fst (complete 5 "match_0123abcd" (run two_finds initial))) = [].
Proof.
  split; [by vm_compute|].
  apply (final_broadcast_reaches_nobody two_finds 5 "match_0123abcd" _).
  left. eexists. vm_compute. reflexivity.
Defined.

(** X6.  The id validator accepts a generated match id exactly when the uuid
    string has at least eight characters and its first eight are letters or
    digits, as the hexadecimal head of a uuid is. *)
Theorem generated_match_ids_are_valid (uuid : string) :
  validMatchId (generateMatchId uuid)
  = (8 <=? String.length uuid)%nat
    && forallb isAlnum (String.list_ascii_of_string (String.substring 0 8 uuid)).
Proof.
  unfold validMatchId, generateMatchId.
  do 8 (destruct uuid as [|? uuid]; [reflexivity|]).
  by destruct uuid.
Qed.

(** X7.  No stored score is negative: whatever scores are posted, every
    player of every match in [activeMatches] or [matchHistory] has a score
    that is a non-negative integer, NaN or +Infinity. *)
Theorem stored_scores_are_not_negative (es : list event) (m : match_) (p : player) :
  stored (run es initial) m -> p ∈ m_players m -> storable (p_score p).
Proof.
  intros Hm Hp. pose proof (cons_scores _ (run_consistent es) m Hm) as HF.
  rewrite Forall_forall in HF. by apply HF.
Qed.

Lemma stored_scores_are_not_negative_witness :
  ∃ m, omap_get "match_0123abcd"
         (activeMatches (run (two_finds ++ [Score 3 "match_0123abcd" "bob" (Int (-5))])
                           initial)) = Some m
    ∧ Forall (fun p => storable (p_score p)) (m_players m).
Proof.
  eexists. split; [vm_compute; reflexivity|].
  apply Forall_forall. intros p Hp.
  eapply (stored_scores_are_not_negative
            (two_finds ++ [Score 3 "match_0123abcd" "bob" (Int (-5))])); [|exact Hp].
  left. vm_compute. apply list_elem_of_here.
Defined.

(** X8.  A cancellation that is accepted in a reachable state refunds the
    bet to each of the two players, whatever their scores, earns the platform
    nothing, and files the match in the history as cancelled by the
    requester. *)
Theorem cancel_refunds_both_bets (es : list event) (now : Z) (mid pid : string)
    (why : option string) (refunds : list payoutEntry) :
  snd (cancel now mid pid why (run es initial)) = Ok refunds ->
  ∃ m p1 p2 m' res,
    omap_get mid (activeMatches (run es initial)) = Some m
    ∧ m_players m = [p1; p2]
    ∧ refunds = [ mkPayout (p_id p1) (m_betAmount m) "refund";
                  mkPayout (p_id p2) (m_betAmount m) "refund" ]
    ∧ matchHistory (fst (cancel now mid pid why (run es initial))) !! mid = Some m'
    ∧ m_status m' = "cancelled" ∧ m_cancelledBy m' = Some pid
    ∧ m_result m' = Some res
    ∧ r_payouts res = refunds ∧ r_platformEarnings res = 0%float.
Proof.
  pose proof (run_sessions es) as HS. unfold cancel.
  destruct (negb _); [done|].
  destruct (omap_get mid (activeMatches (run es initial))) as [m|] eqn:Hm; [|done].
  destruct (negb _); [done|]. cbn [fst snd]. intros [= <-].
  destruct (HS m) as (Hl & _); [left; by eapply omap_get_elem|].
  destruct (m_players m) as [|p1 [|p2 [|? ?]]] eqn:Hps; try done.
  eexists m, p1, p2, _, _. cbn [matchHistory]. rewrite lookup_insert_eq.
  by split_and!.
Qed.

Lemma cancel_refunds_both_bets_witness :
  snd (cancel 4 "match_0123abcd" "bob" None (run two_finds initial))
  = Ok [ mkPayout "bob" 10 "refund"; mkPayout "alice" 10 "refund" ].
Proof.
  destruct (cancel_refunds_both_bets two_finds 4 "match_0123abcd" "bob" None
              [ mkPayout "bob" 10 "refund"; mkPayout "alice" 10 "refund" ])
    as (m & p1 & p2 & m' & res & _); [by vm_compute|].
  by vm_compute.
Defined.

(** X9.  Once /find has paired two players, neither of them can queue or be
    matched again while the match is active: their next /find, for any game
    type and currency, answers with an existing match and changes nothing. *)
Theorem paired_player_is_not_queued_again (now : Z) (uuid : string) (r : findReq)
    (s : state) (mid g opp : string) (bet : float) (cur : string) :
  snd (find now uuid r s) = Ok (Found mid g opp bet cur) ->
  ∀ now' uuid' r',
    find_valid r' = true ->
    f_playerId r' = f_playerId r ∨ f_playerId r' = opp ->
    ∃ mid' st,
      find now' uuid' r' (fst (find now uuid r s))
      = (fst (find now uuid r s), Ok (Existing mid' st)).
Proof.
  intros Hf now' uuid' r' Hv' Hp.
  assert (∃ m, m ∈ omap_values (activeMatches (fst (find now uuid r s)))
               ∧ inMatch (f_playerId r') m = true) as (m & Hm & Hin).
  { revert Hf.
    destruct (find_valid r) eqn:Hv; [|by unfold find; rewrite Hv].
    destruct (List.find (inMatch (f_playerId r)) (omap_values (activeMatches s)))
      as [ex|] eqn:Hex; [by unfold find; rewrite Hv, Hex|].
    destruct (waitingPlayers s !! waitingKey (f_gameType r) (default "INR" (f_currency r)))
      as [[|o rest]|] eqn:Hq.
    - rewrite find_waits; [done|done..|by unfold takeOpponent; rewrite Hq].
    - rewrite (find_pairs now uuid r s o rest) by done. cbn [fst snd].
      intros [= _ _ <- _ _]. exists (newMatch now uuid r o). split.
      + eapply omap_get_elem. apply omap_get_set_eq.
      + unfold inMatch, newMatch. cbn.
        destruct Hp as [-> | ->]; rewrite String.eqb_refl; cbn; [done|].
        by rewrite orb_true_r.
    - rewrite find_waits; [done|done..|by unfold takeOpponent; rewrite Hq]. }
  destruct (List.find (inMatch (f_playerId r'))
              (omap_values (activeMatches (fst (find now uuid r s))))) as [ex|] eqn:Hex.
  - exists (m_id ex), (m_status ex). unfold find at 1. by rewrite Hv', Hex.
  - apply list_elem_of_In in Hm.
    pose proof (find_none _ _ Hex m Hm) as Hn. congruence.
Qed.

Lemma paired_player_is_not_queued_again_witness :
  ∃ mid' st,
    find 3 "ffff0000-aaaa" (mkFindReq "carrom" "alice" (Some "USD")) (run two_finds initial)
    = (run two_finds initial, Ok (Existing mid' st)).
Proof.
  exact (paired_player_is_not_queued_again 2 "0123abcd-e89b" (chess "bob" None)
           (fst (find 1 "" (chess "alice" None) initial))
           "match_0123abcd" "chess" "alice" 10 "INR" eq_refl
           3 "ffff0000-aaaa" (mkFindReq "carrom" "alice" (Some "USD")) eq_refl
           (or_intror eq_refl)).
Defined.

Lemma stored_matches_are_sessions_witness :
  ∃ m, omap_get "match_0123abcd" (activeMatches (run two_finds initial)) = Some m
    ∧ twoPlayerSession m.
Proof.
  eexists. split; [vm_compute; reflexivity|].
  apply (stored_matches_are_sessions two_finds).
  left. vm_compute. apply list_elem_of_here.
Defined.

End MatchFacts.

(** ** wallet.js: frames and invariants *)

Module WalletFacts.
Import Wallet WalletProofs.


Lemma getOrCreate_rest (now : Z) (uid cur : string) (s : state) :
  developerWallet (fst (getOrCreate now uid cur s)) = developerWallet s
  ∧ depositTimers (fst (getOrCreate now uid cur s)) = depositTimers s.
Proof. unfold getOrCreate. by destruct (userWallets s !! uid). Qed.

Lemma getOrCreate_lookup (now : Z) (uid cur : string) (s : state) (u : string) (w : wallet) :
  userWallets s !! u = Some w ->
  userWallets (fst (getOrCreate now uid cur s)) !! u = Some w.
Proof.
  intros H. unfold getOrCreate. destruct (userWallets s !! uid) eqn:E; cbn; [done|].
  rewrite lookup_insert_ne; [done|]. intros ->. congruence.
Qed.

Lemma getOrCreate_snd (now : Z) (uid cur : string) (s : state) :
  snd (getOrCreate now uid cur s)
  = default (createWallet now uid cur) (userWallets s !! uid).
Proof. unfold getOrCreate. by destruct (userWallets s !! uid). Qed.

(** [/deposit] past validation: the wallets are those after the lookup or
    creation, and at most one timer is added. *)
Lemma deposit_effect (now : Z) (txn : string) (r : depositReq) (s : state) :
  (deposit_valid r = false ∧ deposit now txn r s = (s, Err 400 "Validation failed"))
  ∨ (deposit_valid r = true
     ∧ userWallets (fst (deposit now txn r s))
       = userWallets (fst (getOrCreate now (d_userId r) (d_currency r) s))
     ∧ developerWallet (fst (deposit now txn r s)) = developerWallet s
     ∧ ((depositTimers (fst (deposit now txn r s)) = depositTimers s
         ∧ ∃ code, snd (deposit now txn r s) = Err 400 code)
        ∨ ∃ g fees,
            List.find (fun g => Js.includes (gw_currencies g) (d_currency r)
                                && Js.includes (gw_methods g) (d_paymentMethod r))
              PAYMENT_GATEWAYS = Some g
            ∧ fees = (Js.Math_round (d_amount r * gw_fees g * 100) / 100)%float
            ∧ depositTimers (fst (deposit now txn r s))
              = (depositTimers s
                 ++ [mkDepositTimer (d_userId r) (d_currency r) (d_amount r - fees)])%list
            ∧ snd (deposit now txn r s)
              = Ok (mkDepositInfo txn (d_amount r) (d_amount r - fees)%float fees
                      (d_currency r) (gw_name g)))).
Proof.
  unfold deposit. destruct (deposit_valid r); cbn [negb]; [right|by left].
  split; [done|].
  pose proof (getOrCreate_rest now (d_userId r) (d_currency r) s) as [Hd Ht].
  destruct (getOrCreate now (d_userId r) (d_currency r) s) as [s1 w].
  cbn [fst snd] in *.
  destruct (List.find _ PAYMENT_GATEWAYS) as [g|].
  - destruct (_ || _); cbn [fst snd].
    + split_and!; [done..|]. left. rewrite Ht. eauto.
    + split_and!; [done..|]. right. eexists g, _. rewrite Ht. by split_and!.
  - cbn [fst snd]. split_and!; [done..|]. left. eauto.
Qed.

Lemma withdraw_effect (now : Z) (txn : string) (r : withdrawReq) (s : state) :
  (fst (withdraw now txn r s) = s ∧ ∃ st code, snd (withdraw now txn r s) = Err st code)
  ∨ ∃ w g,
      userWallets s !! w_userId r = Some w
      ∧ (balance w <? withdrawAmount r w)%float = false
      ∧ validateKYC (w_amount r) (withdrawCurrency r w) (kycStatus w) = true
      ∧ List.find (fun g => Js.includes (gw_currencies g) (withdrawCurrency r w))
          PAYMENT_GATEWAYS = Some g
      ∧ withdraw now txn r s
        = (set_wallet (w_userId r) (deducted now r w) s,
           Ok (mkWithdrawInfo txn (w_amount r)
                 (w_amount r - Js.Math_round (w_amount r * gw_fees g * 100) / 100)%float
                 (Js.Math_round (w_amount r * gw_fees g * 100) / 100)%float
                 (withdrawCurrency r w))).
Proof.
  unfold withdraw. destruct (withdraw_valid r); cbn [negb]; [|left; eauto].
  destruct (userWallets s !! w_userId r) as [w|] eqn:Hw; [|left; eauto].
  destruct (balance w <? withdrawAmount r w)%float eqn:Hlt; [left; eauto|].
  destruct (validateKYC _ _ _) eqn:Hk; cbn [negb]; [|left; eauto].
  destruct (List.find _ _) as [g|] eqn:Hg; [|left; eauto].
  right. exists w, g. by split_and!.
Qed.

Lemma step_identity (e : event) (s : state) (u : string) (w : wallet) :
  userWallets s !! u = Some w ->
  ∃ w', userWallets (step e s) !! u = Some w' ∧ sameIdentity w w'.
Proof.
  intros Hw. destruct e as [now uid q|now txn r|now k|now txn r|now txn r]; cbn [step].
  - unfold getWallet. destruct (negb _); cbn [fst]; [by exists w|].
    pose proof (getOrCreate_lookup now uid (default "INR" q) s u w Hw) as H.
    destruct (getOrCreate _ _ _ _) as [s1 w1]. by exists w.
  - destruct (deposit_effect now txn r s) as [[_ ->] | (_ & -> & _)]; [by exists w|].
    exists w. split; [|done]. by apply getOrCreate_lookup.
  - unfold depositTimerFires. destruct (depositTimers s !! k) as [t|]; [|by exists w].
    cbn [userWallets]. rewrite lookup_alter.
    case_decide as E; [|by exists w]. subst u. rewrite Hw. by eexists.
  - destruct (withdraw_effect now txn r s)
      as [[-> _] | (w0 & g & Hw0 & _ & _ & _ & ->)]; [by exists w|].
    cbn [fst set_wallet userWallets].
    destruct (decide (w_userId r = u)) as [<- | Hne].
    + rewrite lookup_insert_eq. assert (w0 = w) as -> by congruence. by eexists.
    + rewrite lookup_insert_ne by done. by exists w.
  - unfold processWinnings. destruct (negb _); cbn [fst]; [by exists w|].
    pose proof (getOrCreate_lookup now (pw_winner r) (pw_currency r) s u w Hw) as H.
    pose proof (getOrCreate_stored now (pw_winner r) (pw_currency r) s) as Hst.
    destruct (getOrCreate _ _ _ _) as [s1 w1]. cbn [fst snd userWallets] in *.
    destruct (decide (pw_winner r = u)) as [<- | Hne].
    + rewrite lookup_insert_eq. assert (w1 = w) as -> by congruence. by eexists.
    + rewrite lookup_insert_ne by done. by exists w.
Qed.

(** X10.  A wallet, once stored, is never removed, and no request changes
    its user id, native currency, KYC status, creation time or total of
    withdrawals: the native currency is the one of the first request that
    touched the user id. *)
Theorem wallets_keep_identity (es : list event) (s : state) (u : string) (w : wallet) :
  userWallets s !! u = Some w ->
  ∃ w', userWallets (run es s) !! u = Some w' ∧ sameIdentity w w'.
Proof.
  revert s w. induction es as [|e es IH]; intros s w Hw; [by exists w|].
  destruct (step_identity e s u w Hw) as (w1 & H1 & I1).
  destruct (IH (step e s) w1 H1) as (w2 & H2 & I2).
  exists w2. split; [done|].
  destruct I1 as (? & ? & ? & ? & ?), I2 as (? & ? & ? & ? & ?).
  unfold sameIdentity. split_and!; congruence.
Qed.

Lemma wallets_keep_identity_witness :
  ∃ w', userWallets (run inr_traffic (step usd_reader initial)) !! "u1" = Some w'
    ∧ currency w' = "USD".
Proof.
  destruct (wallets_keep_identity inr_traffic (step usd_reader initial) "u1"
              (createWallet 1 "u1" "USD") eq_refl) as (w' & Hw & _ & Hc & _).
  exists w'. split; [exact Hw | exact Hc].
Defined.

(** Where a wallet of the state after an event comes from. *)
Lemma step_origin (e : event) (s : state) (u : string) (w' : wallet) :
  userWallets (step e s) !! u = Some w' ->
  (∃ w, userWallets s !! u = Some w ∧ sameIdentity w w')
  ∨ (userWallets s !! u = None ∧ userId w' = u ∧ kycStatus w' = "pending"
     ∧ totalWithdrawals w' = 0%float).
Proof.
  intros H'. destruct (userWallets s !! u) as [w|] eqn:Hw.
  { left. exists w. split; [done|].
    destruct (step_identity e s u w Hw) as (w1 & H1 & I1). congruence. }
  right. split; [done|]. revert H'.
  assert (Hgc : ∀ now uid cur w1,
             userWallets (fst (getOrCreate now uid cur s)) !! u = Some w1 ->
             uid = u ∧ w1 = createWallet now uid cur
             ∧ snd (getOrCreate now uid cur s) = createWallet now uid cur).
  { intros now uid cur w1. unfold getOrCreate.
    destruct (userWallets s !! uid) eqn:E; cbn; [congruence|].
    intros [[-> <-] | [_ ?]]%lookup_insert_Some; [done|congruence]. }
  destruct e as [now uid q|now txn r|now k|now txn r|now txn r]; cbn [step].
  - unfold getWallet. destruct (negb _); cbn [fst]; [congruence|].
    pose proof (Hgc now uid (default "INR" q) w') as H.
    destruct (getOrCreate _ _ _ _) as [s1 w1]. cbn [fst] in *.
    intros (-> & -> & _)%H. by cbn.
  - destruct (deposit_effect now txn r s) as [[_ ->] | (_ & -> & _)];
      cbn [fst]; [congruence|].
    intros (-> & -> & _)%Hgc. by cbn.
  - unfold depositTimerFires. destruct (depositTimers s !! k) as [t|]; [|congruence].
    cbn [userWallets]. rewrite lookup_alter. case_decide; [subst u|]; by rewrite Hw.
  - destruct (withdraw_effect now txn r s)
      as [[-> _] | (w0 & g & Hw0 & _ & _ & _ & ->)]; [congruence|].
    cbn [fst set_wallet userWallets].
    intros [[E _] | [_ ?]]%lookup_insert_Some; congruence.
  - unfold processWinnings. destruct (negb _); cbn [fst]; [congruence|].
    pose proof (Hgc now (pw_winner r) (pw_currency r)) as H.
    pose proof (getOrCreate_stored now (pw_winner r) (pw_currency r) s) as Hst.
    destruct (getOrCreate _ _ _ _) as [s1 w1]. cbn [fst snd userWallets] in *.
    intros [[<- <-] | [Hne H1]]%lookup_insert_Some.
    + destruct (H _ Hst) as (_ & -> & _). split_and!; reflexivity.
    + destruct (H _ H1) as (E & _). done.
Qed.

Lemma step_timers (e : event) (s : state) (t : depositTimer) :
  t ∈ depositTimers (step e s) ->
  t ∈ depositTimers s ∨ is_Some (userWallets (step e s) !! dt_userId t).
Proof.
  destruct e as [now uid q|now txn r|now k|now txn r|now txn r]; cbn [step].
  - unfold getWallet. destruct (negb _); cbn [fst]; [by left|].
    pose proof (getOrCreate_rest now uid (default "INR" q) s) as [_ Ht].
    destruct (getOrCreate _ _ _ _) as [s1 w1]. cbn [fst] in *. rewrite Ht. by left.
  - destruct (deposit_effect now txn r s)
      as [[_ ->] | (_ & Hu & _ & [[-> _] | (g & fees & _ & _ & -> & _)])];
      [by left..|].
    intros [H | ->%list_elem_of_singleton]%elem_of_app; [by left|].
    right. cbn [dt_userId]. rewrite Hu, getOrCreate_stored. eauto.
  - unfold depositTimerFires. destruct (depositTimers s !! k) as [t0|]; [|by left].
    cbn [depositTimers]. intros H%list_elem_of_delete_inv. by left.
  - destruct (withdraw_effect now txn r s)
      as [[-> _] | (w0 & g & _ & _ & _ & _ & ->)]; by left.
  - unfold processWinnings. destruct (negb _); cbn [fst]; [by left|].
    pose proof (getOrCreate_rest now (pw_winner r) (pw_currency r) s) as [_ Ht].
    destruct (getOrCreate _ _ _ _) as [s1 w1]. cbn [fst depositTimers] in *.
    rewrite Ht. by left.
Qed.

Lemma Kept_initial : Kept initial.
Proof.
  split; cbn; try (intros u w H; by rewrite lookup_empty in H).
  intros t H. by apply elem_of_nil in H.
Qed.

Lemma step_kept (e : event) (s : state) : Kept s -> Kept (step e s).
Proof.
  intros HK. split.
  - intros u w' [(w & Hw & I) | (_ & ? & _)]%step_origin; [|done].
    destruct I as (-> & _). by apply (kept_key s HK).
  - intros u w' [(w & Hw & I) | (_ & _ & ? & _)]%step_origin; [|done].
    destruct I as (_ & _ & -> & _). by apply (kept_kyc s HK) in Hw.
  - intros u w' [(w & Hw & I) | (_ & _ & _ & ?)]%step_origin; [|done].
    destruct I as (_ & _ & _ & _ & ->). by apply (kept_withdrawn s HK) in Hw.
  - intros t [H | H]%step_timers; [|done].
    destruct (kept_timers s HK t H) as [w Hw].
    destruct (step_identity e s _ w Hw) as (w' & -> & _). eauto.
Qed.

Lemma run_kept (es : list event) : Kept (run es initial).
Proof.
  enough (H : ∀ s, Kept s -> Kept (run es s)) by apply H, Kept_initial.
  induction es as [|e es IH]; intros s HK; [done|].
  apply IH. by apply step_kept.
Qed.

(** X11.  wallet.js never changes a KYC status and never records a
    withdrawal in a wallet's total: in every reachable state each wallet is
    stored under its own user id, its KYC status is pending and its total of
    withdrawals is 0. *)
Theorem kyc_and_withdrawn_total_never_move (es : list event) (u : string) (w : wallet) :
  userWallets (run es initial) !! u = Some w ->
  userId w = u ∧ kycStatus w = "pending" ∧ totalWithdrawals w = 0%float.
Proof.
  intros H. pose proof (run_kept es) as HK.
  split_and!; [by apply (kept_key _ HK) | by apply (kept_kyc _ HK) in H
              | by apply (kept_withdrawn _ HK) in H].
Qed.

Lemma kyc_and_withdrawn_total_never_move_witness :
  ∃ w, userWallets (run (usd_reader :: inr_traffic) initial) !! "u1" = Some w
    ∧ (balance w <? 1)%float = false
    ∧ kycStatus w = "pending" ∧ totalWithdrawals w = 0%float.
Proof.
  eexists. split; [vm_compute; reflexivity|]. split; [by vm_compute|].
  eapply (proj2 (kyc_and_withdrawn_total_never_move (usd_reader :: inr_traffic) "u1" _ _)).
Unshelve. by vm_compute.
Defined.

(** X12.  No withdrawal is ever accepted whose amount, converted to rupees
    and rounded to hundredths as [convertCurrency] does, exceeds 10,000: the
    KYC check needs a verified wallet above that and no wallet ever becomes
    verified.  The bound is on the rounded rupee value, so an amount such as
    10000.004 INR still passes. *)
Theorem no_withdrawal_above_kyc_limit (es : list event) (now : Z) (txn : string)
    (r : withdrawReq) (info : withdrawInfo) :
  snd (withdraw now txn r (run es initial)) = Ok info ->
  (10000 <? convertCurrency (wd_amount info) (wd_currency info) "INR")%float = false.
Proof.
  destruct (withdraw_effect now txn r (run es initial))
    as [[_ (st & code & ->)] | (w & g & Hw & _ & Hk & _ & ->)]; [done|].
  cbn [snd]. intros [= <-]. cbn [wd_amount wd_currency].
  apply (kept_kyc _ (run_kept es)) in Hw. rewrite Hw in Hk.
  unfold validateKYC in Hk.
  by destruct (10000 <? convertCurrency _ _ _)%float.
Qed.

Lemma no_withdrawal_above_kyc_limit_witness :
  let s := run [Deposit 2 "txn_1" (mkDepositReq "u1" 20000 "INR" "UPI");
                DepositTimer 3 0] initial in
  let r := mkWithdrawReq "u1" 10000.004 (Some "INR") "UPI" in
  snd (withdraw 5 "txn_3" r s)
  = Ok (mkWithdrawInfo "txn_3" 10000.004 (10000.004 - 200) 200 "INR")
  ∧ (10000 <? 10000.004)%float = true
  ∧ convertCurrency 10000.004 "INR" "INR" = 10000%float
  ∧ (10000 <? convertCurrency 10000.004 "INR" "INR")%float = false.
Proof.
  cbv zeta. split_and!; [by vm_compute..|].
  exact (no_withdrawal_above_kyc_limit
           [Deposit 2 "txn_1" (mkDepositReq "u1" 20000 "INR" "UPI"); DepositTimer 3 0]
           5 "txn_3" (mkWithdrawReq "u1" 10000.004 (Some "INR") "UPI")
           (mkWithdrawInfo "txn_3" 10000.004 (10000.004 - 200) 200 "INR") eq_refl).
Defined.

(** X13.  A pending deposit always finds its wallet: the wallet a deposit
    callback closes over is stored under the user id of the deposit for as
    long as the callback is pending. *)
Theorem pending_deposit_has_wallet (es : list event) (t : depositTimer) :
  t ∈ depositTimers (run es initial) ->
  is_Some (userWallets (run es initial) !! dt_userId t).
Proof. apply (kept_timers _ (run_kept es)). Qed.

Lemma pending_deposit_has_wallet_witness :
  is_Some (userWallets
             (run [Deposit 2 "txn_1" (mkDepositReq "u1" 500 "INR" "UPI")] initial)
           !! "u1").
Proof.
  apply (pending_deposit_has_wallet
           [Deposit 2 "txn_1" (mkDepositReq "u1" 500 "INR" "UPI")]
           (mkDepositTimer "u1" "INR" 490)).
  vm_compute. apply list_elem_of_here.
Defined.

(** X14.  An accepted deposit is one of eleven combinations of currency,
    payment method and gateway; its net amount is the amount less the fees. *)
Theorem deposit_gateway_table (now : Z) (txn : string) (r : depositReq) (s : state)
    (info : depositInfo) :
  snd (deposit now txn r s) = Ok info ->
  (d_currency r, d_paymentMethod r, di_gateway info) ∈ depositRoutes
  ∧ di_currency info = d_currency r
  ∧ di_amount info = d_amount r
  ∧ di_netAmount info = (di_amount info - di_fees info)%float.
Proof.
  intros H.
  destruct (deposit_effect now txn r s)
    as [[_ E] | (Hv & _ & _ & [[_ (code & E)] | (g & fees & Hg & -> & _ & E)])];
    rewrite E in H; try done.
  injection H as <-. cbn [di_gateway di_currency di_amount di_netAmount di_fees].
  split; [|done].
  unfold deposit_valid in Hv.
  apply andb_prop in Hv as [Hv Hm]. apply andb_prop in Hv as [_ Hc].
  apply includes_elem, list_elem_of_In in Hc, Hm.
  destruct r as [uid amt cur m]. cbn [d_currency d_paymentMethod] in *.
  apply list_elem_of_In.
  simpl in Hc, Hm.
  repeat (destruct Hc as [<- | Hc]); try done;
    repeat (destruct Hm as [<- | Hm]); try done;
    vm_compute in Hg; try discriminate; injection Hg as <-;
    vm_compute; tauto.
Qed.

Lemma deposit_gateway_table_witness :
  ("INR", "UPI", "Razorpay") ∈ depositRoutes.
Proof.
  exact (proj1 (deposit_gateway_table 2 "txn_1" (mkDepositReq "u1" 500 "INR" "UPI")
                  initial (mkDepositInfo "txn_1" 500 490 10 "INR" "Razorpay") eq_refl)).
Defined.

(** X15.  A deposit that passes validation creates the user's wallet even
    when it is then rejected for its payment method or its amount. *)
Theorem rejected_deposit_still_creates_wallet (now : Z) (txn : string) (r : depositReq)
    (s : state) :
  deposit_valid r = true ->
  is_Some (userWallets (fst (deposit now txn r s)) !! d_userId r).
Proof.
  intros Hv.
  destruct (deposit_effect now txn r s) as [[E _] | (_ & -> & _)]; [congruence|].
  rewrite getOrCreate_stored. eauto.
Qed.

Lemma rejected_deposit_still_creates_wallet_witness :
  snd (deposit 2 "txn_1" (mkDepositReq "u1" 500 "JPY" "UPI") initial)
  = Err 400 "PAYMENT_METHOD_NOT_SUPPORTED"
  ∧ is_Some (userWallets (fst (deposit 2 "txn_1" (mkDepositReq "u1" 500 "JPY" "UPI")
                                 initial)) !! "u1").
Proof.
  split; [reflexivity|].
  exact (rejected_deposit_still_creates_wallet 2 "txn_1"
           (mkDepositReq "u1" 500 "JPY" "UPI") initial eq_refl).
Defined.



(** X17.  The fee of an accepted withdrawal depends on its currency alone,
    whatever the withdrawal method: 2% in INR, 2.9% in USD, EUR, GBP, CAD and
    AUD, 1.5% in CNY and 1% in BRL.  No other currency can be withdrawn. *)
Theorem withdrawal_fee_by_currency (now : Z) (txn : string) (r : withdrawReq)
    (s : state) (info : withdrawInfo) :
  snd (withdraw now txn r s) = Ok info ->
  ∃ rate, (wd_currency info, rate) ∈ withdrawFees
    ∧ wd_fees info = (Js.Math_round (wd_amount info * rate * 100) / 100)%float
    ∧ wd_netAmount info = (wd_amount info - wd_fees info)%float
    ∧ wd_amount info = w_amount r.
Proof.
  destruct (withdraw_effect now txn r s)
    as [[_ (st & code & ->)] | (w & g & _ & _ & _ & Hg & ->)]; [done|].
  cbn [snd]. intros [= <-]. cbn [wd_amount wd_currency wd_fees wd_netAmount].
  exists (gw_fees g). split; [|done].
  apply find_some in Hg as [Hin Hc].
  apply includes_elem, list_elem_of_In in Hc.
  generalize dependent (withdrawCurrency r w). intros cur Hc.
  apply list_elem_of_In.
  simpl in Hin.
  repeat (destruct Hin as [<- | Hin]); try done;
    simpl in Hc; repeat (destruct Hc as [<- | Hc]); try done;
    vm_compute; tauto.
Qed.

Lemma withdrawal_fee_by_currency_witness :
  ∃ rate, ("USD", rate) ∈ withdrawFees
    ∧ 0.03%float = (Js.Math_round (1 * rate * 100) / 100)%float.
Proof.
  destruct (withdrawal_fee_by_currency 5 "txn_3"
              (mkWithdrawReq "u1" 1 (Some "USD") "UPI")
              (run [usd_reader; Deposit 2 "txn_1" (mkDepositReq "u1" 500 "INR" "UPI");
                    DepositTimer 3 0] initial)
              (mkWithdrawInfo "txn_3" 1 0.97 0.03 "USD") eq_refl)
    as (rate & Hin & Hf & _).
  exists rate. split; [exact Hin | exact Hf].
Defined.

(** X18.  A refused withdrawal leaves every store as it was. *)
Theorem refused_withdrawal_changes_nothing (now : Z) (txn : string) (r : withdrawReq)
    (s : state) (st : Z) (code : string) :
  snd (withdraw now txn r s) = Err st code ->
  fst (withdraw now txn r s) = s.
Proof.
  destruct (withdraw_effect now txn r s)
    as [[E _] | (w & g & _ & _ & _ & _ & ->)]; [done|]. by cbn.
Qed.

Lemma refused_withdrawal_changes_nothing_witness :
  fst (withdraw 5 "txn_3" (mkWithdrawReq "u1" 1 None "UPI") initial) = initial.
Proof.
  exact (refused_withdrawal_changes_nothing 5 "txn_3" (mkWithdrawReq "u1" 1 None "UPI")
           initial 404 "WALLET_NOT_FOUND" eq_refl).
Defined.

Lemma step_developer (e : event) (s : state) :
  isWinnings e = false -> developerWallet (step e s) = developerWallet s.
Proof.
  destruct e as [now uid q|now txn r|now k|now txn r|now txn r]; cbn [step isWinnings];
    intros H; try done.
  - unfold getWallet. destruct (negb _); cbn [fst]; [done|].
    pose proof (getOrCreate_rest now uid (default "INR" q) s) as [Hd _].
    by destruct (getOrCreate _ _ _ _) as [s1 w1].
  - by destruct (deposit_effect now txn r s) as [[_ ->] | (_ & _ & -> & _)].
  - unfold depositTimerFires. by destruct (depositTimers s !! k).
  - by destruct (withdraw_effect now txn r s)
      as [[-> _] | (w0 & g & _ & _ & _ & _ & ->)].
Qed.

(** X19.  Only [/process-winnings] touches the developer wallet: a run
    without it leaves the developer wallet as it was. *)
Theorem developer_wallet_moves_only_on_winnings (es : list event) (s : state) :
  forallb (fun e => negb (isWinnings e)) es = true ->
  developerWallet (run es s) = developerWallet s.
Proof.
  revert s. induction es as [|e es IH]; intros s H; [done|].
  cbn in H. apply andb_prop in H as [He H].
  change (run (e :: es) s) with (run es (step e s)).
  rewrite IH by done. apply step_developer. by destruct (isWinnings e).
Qed.

Lemma developer_wallet_moves_only_on_winnings_witness :
  dev_balance
    (developerWallet
       (run [usd_reader; Deposit 2 "txn_1" (mkDepositReq "u1" 500 "INR" "UPI");
             DepositTimer 3 0;
             Withdraw 5 "txn_3" (mkWithdrawReq "u1" 1 (Some "USD") "Cards")] initial))
  = 45280%float.
Proof.
  by rewrite (developer_wallet_moves_only_on_winnings
                [usd_reader; Deposit 2 "txn_1" (mkDepositReq "u1" 500 "INR" "UPI");
                 DepositTimer 3 0;
                 Withdraw 5 "txn_3" (mkWithdrawReq "u1" 1 (Some "USD") "Cards")]
                initial eq_refl).
Defined.

End WalletFacts.

(** ** withdrawal.js *)

Module WithdrawalFacts.
Import Withdrawal WithdrawalProofs.

Lemma Live_initial : Live initial.
Proof. split; intros a w H; cbn in H; by rewrite lookup_nil in H. Qed.

Lemma elem_of_delete_other (l : list addr) (k : nat) (a a' : addr) :
  l !! k = Some a -> a' ∈ l -> a' ≠ a -> a' ∈ delete k l.
Proof.
  intros Hk [j Hj]%list_elem_of_lookup Hne.
  destruct (decide (j < k)%nat) as [Hlt | Hge].
  - apply (list_elem_of_lookup_2 _ j). by rewrite list_lookup_delete_lt.
  - assert (j ≠ k) by (intros ->; congruence).
    apply (list_elem_of_lookup_2 _ (pred j)).
    rewrite list_lookup_delete_ge by lia.
    by replace (S (pred j)) with j by lia.
Qed.

Lemma step_live (e : event) (s : state) : Live s -> Live (step e s).
Proof.
  intros [Hap Hpr].
  destruct e as [now uuid r|now wid uid why|now uuid wid admin notes|now k rnd];
    cbn [step].
  - destruct (request_effect now uuid r s)
      as [-> | (w1 & q & Hw1 & Hq & _ & _ & ->)]; [done|].
    split; cbn [heap timers]; intros a w [H | [_ H]]%lookup_app_Some; eauto;
      destruct (a - length (heap s))%nat as [|[|[|n]]]; cbn in H; congruence.
  - destruct (cancel_effect now wid uid why s)
      as [-> | (a0 & w0 & _ & Hw0 & _ & ->)]; [done|].
    split; cbn [heap timers];
      intros a w [(<- & <- & _) | [_ H]]%list_lookup_insert_Some; eauto; by cbn.
  - destruct (approve_effect now uuid wid admin notes s)
      as [-> | (a0 & w0 & w1 & _ & Hw0 & Hst1 & _ & ->)]; [done|].
    split; cbn [heap timers];
      intros a w [(<- & <- & _) | [_ H]]%list_lookup_insert_Some; eauto.
    + congruence.
    + intros _. apply elem_of_app. right. apply list_elem_of_here.
    + intros Hst. apply elem_of_app. left. eauto.
  - destruct (timer_effect now k rnd s)
      as [-> | (a0 & w0 & w1 & Hk & Hw0 & Hst1 & _ & ->)]; [done|].
    split; cbn [heap timers];
      intros a w [(<- & <- & _) | [Hne H]]%list_lookup_insert_Some; eauto.
    + destruct Hst1; congruence.
    + destruct Hst1; congruence.
    + intros Hst. apply (elem_of_delete_other _ _ a0); eauto.
Qed.

Lemma run_live (es : list event) (s : state) : Live s -> Live (run es s).
Proof.
  revert s. induction es as [|e es IH]; intros s H; [done|].
  apply IH. by apply step_live.
Qed.

Lemma reachable (es : list event) : Inv (run es initial) ∧ Live (run es initial).
Proof. split; [apply run_inv, Inv_initial | apply run_live, Live_initial]. Qed.

(** X20.  In the running program no cancellation and no approval is ever
    accepted: /cancel and /approve answer 400 for an id that fails the
    pattern and 404 for one that passes it, because every stored id was cut
    from a uuid and fails the pattern; neither changes any store, no gateway
    timer is ever pending and nothing is ever completed. *)
Theorem no_cancellation_or_approval_is_accepted (es : list event) :
  forallb genuine es = true ->
  (∀ now wid uid why,
     cancel now wid uid why (run es initial)
     = (run es initial, Err 400 "Validation failed")
     ∨ cancel now wid uid why (run es initial)
       = (run es initial, Err 404 "WITHDRAWAL_NOT_FOUND"))
  ∧ (∀ now uuid wid admin notes,
       approve now uuid wid admin notes (run es initial)
       = (run es initial, Err 400 "Validation failed")
       ∨ approve now uuid wid admin notes (run es initial)
         = (run es initial, Err 404 "WITHDRAWAL_NOT_IN_QUEUE"))
  ∧ timers (run es initial) = []
  ∧ completedWithdrawals (run es initial) = ∅.
Proof.
  intros Hg. pose proof (run_pending es initial Hg Pending_initial) as HP.
  split_and!.
  - intros now wid uid why. by apply cancel_refused.
  - intros now uuid wid admin notes. by apply approve_refused.
  - apply (pend_timers _ HP).
  - apply (pend_completed _ HP).
Qed.

Lemma no_cancellation_or_approval_is_accepted_witness :
  let s := run [Request 1 sample_uuid sample_request] initial in
  processingQueue s !! "wd_12345678-90a" = Some 1%nat
  ∧ approve 3 "9f8e7d6c-5b4a-4321-8fed-cba987654321" "wd_12345678-90a" "admin" None s
    = (s, Err 400 "Validation failed")
  ∧ approve 5 "9f8e7d6c-5b4a-4321-8fed-cba987654321" "wd_1234567890ab" "admin" None s
    = (s, Err 404 "WITHDRAWAL_NOT_IN_QUEUE").
Proof.
  cbv zeta. split; [by vm_compute|].
  destruct (no_cancellation_or_approval_is_accepted
              [Request 1 sample_uuid sample_request] eq_refl) as (_ & H & _).
  split.
  - destruct (H 3 "9f8e7d6c-5b4a-4321-8fed-cba987654321" "wd_12345678-90a" "admin" None)
      as [E | E]; [exact E|]. exfalso. revert E. by vm_compute.
  - destruct (H 5 "9f8e7d6c-5b4a-4321-8fed-cba987654321" "wd_1234567890ab" "admin" None)
      as [E | E]; [|exact E]. exfalso. revert E. by vm_compute.
Defined.

(** X21.  No withdrawal is ever seen in the status [approved]: the approval
    starts the payment in the same request, so every stored object is
    pending approval, processing, completed, failed or cancelled, and the
    status route never reports [approved]. *)
Theorem approved_is_never_a_resting_status (es : list event) :
  (∀ a, statusAt a (run es initial) ≠ Some approved)
  ∧ (∀ wid info, withdrawalStatus wid (run es initial) = Ok info ->
       si_status info ≠ approved).
Proof.
  destruct (reachable es) as [_ [Hap _]]. split.
  - intros a. unfold statusAt.
    destruct (heap (run es initial) !! a) as [w|] eqn:Hw; [|done].
    cbn. intros [= H]. by apply (Hap a w).
  - intros wid info. unfold withdrawalStatus.
    destruct (findForStatus wid _) as [a|]; [|done].
    destruct (heap (run es initial) !! a) as [w|] eqn:Hw; [|done].
    intros [= <-]. pose proof (Hap a w Hw) as Hne.
    unfold statusResponse. by destruct (wstatus w).
Qed.

(** *** Single requests *)

(** What an accepted [/request] stores and answers. *)
Lemma request_ok (now : Z) (uuid : string) (r : requestReq) (s : state)
    (info : requestInfo) :
  snd (request now uuid r s) = Ok info ->
  let wid := generateWithdrawalId uuid in
  let fee :=
    (Js.Math_round (q_amount r * num (q_withdrawalMethod r) processingFees * 100)
     / 100)%float in
  ∃ w q,
    fst (request now uuid r s)
    = mkState (heap s ++ [w; q])%list (<[wid := length (heap s)]> (withdrawalRequests s))
        (<[wid := S (length (heap s))]> (processingQueue s))
        (completedWithdrawals s) (timers s)
    ∧ info = mkRequestInfo wid pending_approval (q_amount r) (q_amount r - fee)%float fee
    ∧ request_valid r = true
    ∧ id w = wid ∧ userId w = q_userId r ∧ timestamp w = now
    ∧ wstatus w = pending_approval ∧ queuePosition w = None
    ∧ amount w = q_amount r ∧ netAmount w = (q_amount r - fee)%float
    ∧ queuePosition q = Some (size (processingQueue s) + 1)%nat.
Proof.
  unfold request.
  destruct (request_valid r); cbn [negb]; [|done].
  destruct (_ || _); [done|].
  destruct (_ && negb _); [done|].
  destruct (negb (q_detailsValid r)); [done|].
  destruct (2 <=? _)%nat; [done|].
  cbn [snd fst]. intros [= <-]. cbv zeta.
  eexists _, _. split; [reflexivity|]. by split_and!.
Qed.

Lemma at_least_one_positive (x : float) :
  Js.isFloat_min 1 x = true -> ∃ m e, Prim2SF x = S754_finite false m e.
Proof.
  unfold Js.isFloat_min, Js.isFinite. rewrite FloatAxioms.leb_spec.
  destruct (Prim2SF x) as [sg|sg| |sg m e]; try (cbn; discriminate).
  destruct sg; [|by eauto].
  cbn [andb]. intros H. vm_compute in H. discriminate.
Qed.

Lemma zero_rate_fee (x : float) :
  Js.isFloat_min 1 x = true ->
  (Js.Math_round (x * 0 * 100) / 100 = 0)%float ∧ (x - 0 = x)%float.
Proof.
  intros (m & e & Hx)%at_least_one_positive.
  assert (x * 0 = 0)%float as ->.
  { apply Prim2SF_inj. rewrite FloatAxioms.mul_spec, Hx. reflexivity. }
  split; [reflexivity|].
  apply Prim2SF_inj. rewrite FloatAxioms.sub_spec, Hx. reflexivity.
Qed.

(** X23.  UPI and bank transfers are free: an accepted request by one of
    these methods has processing fee 0 and a net amount equal to the amount,
    for every amount. *)
Theorem upi_and_bank_transfer_are_free (now : Z) (uuid : string) (r : requestReq)
    (s : state) (info : requestInfo) :
  snd (request now uuid r s) = Ok info ->
  q_withdrawalMethod r = "UPI" ∨ q_withdrawalMethod r = "BankTransfer" ->
  ri_processingFee info = 0%float ∧ ri_netAmount info = ri_amount info.
Proof.
  intros (w & q & _ & -> & Hv & _)%request_ok Hm.
  cbn [ri_processingFee ri_netAmount ri_amount].
  assert (num (q_withdrawalMethod r) processingFees = 0%float) as ->
    by (by destruct Hm as [-> | ->]).
  unfold request_valid in Hv.
  do 3 (apply andb_prop in Hv as [Hv _]).
  apply andb_prop in Hv as [_ Hv].
  destruct (zero_rate_fee _ Hv) as [-> ->]. done.
Qed.

Lemma upi_and_bank_transfer_are_free_witness :
  ri_processingFee (mkRequestInfo "wd_1234567890ab" pending_approval 500 500 0) = 0%float
  ∧ 500%float = 500%float.
Proof.
  exact (upi_and_bank_transfer_are_free 1 "1234567890abcdef" sample_request initial
           (mkRequestInfo "wd_1234567890ab" pending_approval 500 500 0)
           eq_refl (or_introl eq_refl)).
Defined.

(** X24.  An accepted request can be read back at once under the id it was
    given, whatever the id looks like: the status route reports it pending
    approval with its amounts, and without a queue position, which only the
    copy in the processing queue carries. *)
Theorem requested_withdrawal_is_reported (now : Z) (uuid : string) (r : requestReq)
    (s : state) (info : requestInfo) :
  snd (request now uuid r s) = Ok info ->
  (∃ si, withdrawalStatus (ri_withdrawalId info) (fst (request now uuid r s)) = Ok si
     ∧ si_id si = ri_withdrawalId info
     ∧ si_status si = pending_approval
     ∧ si_amount si = ri_amount info
     ∧ si_netAmount si = ri_netAmount info
     ∧ si_queuePosition si = None)
  ∧ ∃ a q, processingQueue (fst (request now uuid r s)) !! ri_withdrawalId info = Some a
      ∧ heap (fst (request now uuid r s)) !! a = Some q
      ∧ queuePosition q = Some (size (processingQueue s) + 1)%nat.
Proof.
  intros (w & q & -> & -> & _ & Hid & _ & _ & Hst & Hqp & Ham & Hnet & Hq)%request_ok.
  cbn [ri_withdrawalId ri_amount ri_netAmount processingQueue heap]. split.
  - unfold withdrawalStatus, findForStatus. cbn [withdrawalRequests heap].
    rewrite lookup_insert_eq. cbv beta iota.
    exists (statusResponse w). unfold addr.
    rewrite (list_lookup_middle (heap s) [q] w _ eq_refl). split; [done|].
    unfold statusResponse. rewrite Hst. cbn. by split_and!.
  - exists (S (length (heap s))), q. rewrite lookup_insert_eq. split_and!; [done| |done].
    change (heap s ++ [w; q])%list with (heap s ++ [w] ++ [q])%list.
    rewrite app_assoc.
    apply list_lookup_middle. rewrite length_app. cbn. lia.
Qed.

Lemma requested_withdrawal_is_reported_witness :
  ∃ si, withdrawalStatus "wd_12345678-90a"
          (fst (request 1 "12345678-90ab-4cde-8f01-234567890abc" sample_request initial))
        = Ok si
    ∧ si_status si = pending_approval ∧ si_queuePosition si = None.
Proof.
  destruct (proj1 (requested_withdrawal_is_reported 1
                     "12345678-90ab-4cde-8f01-234567890abc" sample_request initial
                     (mkRequestInfo "wd_12345678-90a" pending_approval 500 500 0)
                     eq_refl))
    as (si & Hsi & _ & Hst & _ & _ & Hqp).
  exists si. split_and!; [exact Hsi | exact Hst | exact Hqp].
Defined.

(** *** The hourly limit *)

Lemma two_counted (P : withdrawal -> Prop) `{∀ w, Decision (P w)}
    (M : gmap string addr) (h : list withdrawal) (k1 k2 : string) (a1 a2 : addr)
    (w1 w2 : withdrawal) :
  k1 ≠ k2 -> M !! k1 = Some a1 -> M !! k2 = Some a2 ->
  h !! a1 = Some w1 -> h !! a2 = Some w2 -> P w1 -> P w2 ->
  (2 <= length (filter P (omap (fun '(_, a) => h !! a) (map_to_list M))))%nat.
Proof.
  intros Hne H1 H2 Hw1 Hw2 HP1 HP2.
  rewrite <- (map_to_list_delete M k1 a1 H1).
  rewrite <- (map_to_list_delete (delete k1 M) k2 a2)
    by (by rewrite lookup_delete_ne).
  cbn [omap list_omap]. cbv beta iota. unfold addr in *. rewrite Hw1, Hw2.
  rewrite !filter_cons, !decide_True by done. cbn. lia.
Qed.

Lemma step_keeps_request (wid : string) (e : event) (s : state) (a : addr) :
  Pending s -> keeps wid e = true ->
  withdrawalRequests s !! wid = Some a ->
  withdrawalRequests (step e s) !! wid = Some a.
Proof.
  intros HP Hk Hr.
  destruct e as [now uuid r|now k uid why|now uuid k admin notes|now k rnd];
    try (by rewrite step_idle).
  cbn [step keeps] in *. apply negb_true_iff, String.eqb_neq in Hk.
  destruct (request_effect now uuid r s)
    as [-> | (w1 & q & _ & _ & _ & _ & ->)]; [done|].
  cbn [withdrawalRequests]. by rewrite lookup_insert_ne.
Qed.

Lemma run_keeps_request (wid : string) (es : list event) (s : state) (a : addr)
    (w : withdrawal) :
  forallb genuine es = true -> forallb (keeps wid) es = true -> Pending s ->
  withdrawalRequests s !! wid = Some a -> heap s !! a = Some w ->
  withdrawalRequests (run es s) !! wid = Some a ∧ heap (run es s) !! a = Some w.
Proof.
  revert s. induction es as [|e es IH]; intros s Hg Hk HP Hr Ha; [done|].
  cbn in Hg, Hk. apply andb_prop in Hg as [He Hes]. apply andb_prop in Hk as [Hke Hkes].
  apply IH; auto using step_pending, step_keeps_request, step_keeps_objects.
Qed.

(** X27.  In the running program at most two requests of a user are
    accepted within an hour: once two requests of a user have been accepted,
    a further request of that user less than an hour after the earlier one is
    refused, whatever was requested in between, as long as the ids of the two
    are not generated again. *)
Theorem third_request_within_the_hour_is_refused (es1 es2 es3 : list event)
    (now1 now2 now3 : Z) (uuid1 uuid2 uuid3 : string) (r1 r2 r3 : requestReq)
    (i1 i2 : requestInfo) :
  let first := (es1 ++ [Request now1 uuid1 r1])%list in
  let second := (es2 ++ [Request now2 uuid2 r2])%list in
  forallb genuine (first ++ second ++ es3) = true ->
  snd (request now1 uuid1 r1 (run es1 initial)) = Ok i1 ->
  snd (request now2 uuid2 r2 (run (first ++ es2) initial)) = Ok i2 ->
  forallb (keeps (generateWithdrawalId uuid1)) (second ++ es3) = true ->
  forallb (keeps (generateWithdrawalId uuid2)) es3 = true ->
  q_userId r1 = q_userId r3 -> q_userId r2 = q_userId r3 ->
  now3 - 60 * 60 * 1000 < now1 -> now3 - 60 * 60 * 1000 < now2 ->
  ∃ st code,
    snd (request now3 uuid3 r3 (run (first ++ second ++ es3) initial)) = Err st code.
Proof.
  intros first second Hg H1 H2 Hk1 Hk2 Hu1 Hu2 Ht1 Ht2. subst first second.
  rewrite !forallb_app in Hg. rewrite !forallb_app in Hk1.
  apply andb_prop in Hg as [[Hg1 Hgr1]%andb_prop [[Hg2 Hgr2]%andb_prop Hg3]%andb_prop].
  apply andb_prop in Hk1 as [[Hk12 Hk1r]%andb_prop Hk13].
  cbn [forallb keeps andb] in Hk1r. rewrite andb_true_r in Hk1r.
  apply negb_true_iff, String.eqb_neq in Hk1r.
  (* the state after the first request *)
  pose proof (run_pending es1 initial Hg1 Pending_initial) as HP1.
  destruct (request_ok _ _ _ _ _ H1)
    as (w1 & q1 & E1 & _ & _ & _ & Hus1 & Hts1 & Hst1 & _).
  set (sa := run (es1 ++ [Request now1 uuid1 r1]) initial).
  assert (HPa : Pending sa) by (subst sa; rewrite run_app; by apply run_pending).
  assert (Ea : withdrawalRequests sa !! generateWithdrawalId uuid1
               = Some (length (heap (run es1 initial)))
               ∧ heap sa !! length (heap (run es1 initial)) = Some w1).
  { subst sa. rewrite run_app. cbn [run fold_left step]. rewrite E1.
    cbn [withdrawalRequests heap]. rewrite lookup_insert_eq. split; [done|].
    by apply list_lookup_middle. }
  destruct Ea as [Ra Ha].
  (* it is still there before the second request *)
  destruct (run_keeps_request _ es2 sa _ w1 Hg2 Hk12 HPa Ra Ha) as [Rb Hb].
  assert (HPb : Pending (run es2 sa)) by (by apply run_pending).
  replace (run ((es1 ++ [Request now1 uuid1 r1]) ++ es2) initial)
    with (run es2 sa) in H2 by (subst sa; by rewrite !run_app).
  destruct (request_ok _ _ _ _ _ H2)
    as (w2 & q2 & E2 & _ & _ & _ & Hus2 & Hts2 & Hst2 & _).
  set (sc := run [Request now2 uuid2 r2] (run es2 sa)).
  assert (HPc : Pending sc) by (subst sc; by apply run_pending).
  assert (Ec : withdrawalRequests sc !! generateWithdrawalId uuid1
               = Some (length (heap (run es1 initial)))
               ∧ heap sc !! length (heap (run es1 initial)) = Some w1
               ∧ withdrawalRequests sc !! generateWithdrawalId uuid2
                 = Some (length (heap (run es2 sa)))
               ∧ heap sc !! length (heap (run es2 sa)) = Some w2).
  { subst sc. cbn [run fold_left step]. rewrite E2.
    cbn [withdrawalRequests heap].
    rewrite lookup_insert_ne by done. rewrite lookup_insert_eq.
    split_and!; [done | by apply lookup_app_l_Some | done | by apply list_lookup_middle]. }
  destruct Ec as (Rc1 & Hc1 & Rc2 & Hc2).
  destruct (run_keeps_request _ es3 sc _ w1 Hg3 Hk13 HPc Rc1 Hc1) as [Rd1 Hd1].
  destruct (run_keeps_request _ es3 sc _ w2 Hg3 Hk2 HPc Rc2 Hc2) as [Rd2 Hd2].
  replace (run ((es1 ++ [Request now1 uuid1 r1]) ++ (es2 ++ [Request now2 uuid2 r2]) ++ es3)
             initial)
    with (run es3 sc) by (subst sc sa; by rewrite !run_app).
  generalize dependent (run es3 sc). intros s Rd1 Hd1 Rd2 Hd2.
  unfold request.
  destruct (negb (request_valid r3)); [by eauto|].
  destruct (_ || _); [by eauto|].
  destruct (_ && negb _); [by eauto|].
  destruct (negb (q_detailsValid r3)); [by eauto|].
  assert (Hc : (2 <= length (recentRequests now3 (q_userId r3) s))%nat).
  { unfold recentRequests, requestObjects.
    apply (two_counted _ _ _ (generateWithdrawalId uuid1) (generateWithdrawalId uuid2)
             _ _ w1 w2 (not_eq_sym Hk1r) Rd1 Rd2 Hd1 Hd2).
    - rewrite Hus1, Hu1, Hts1, Hst1, String.eqb_refl.
      cbn. apply Is_true_true, andb_true_intro.
      split; [by apply Z.ltb_lt | done].
    - rewrite Hus2, Hu2, Hts2, Hst2, String.eqb_refl.
      cbn. apply Is_true_true, andb_true_intro.
      split; [by apply Z.ltb_lt | done]. }
  apply Nat.leb_le in Hc. rewrite Hc. eauto.
Qed.

Lemma third_request_within_the_hour_is_refused_witness :
  ∃ st code,
    snd (request 9 "fedcba09-8765-4321-8fed-cba098765432" sample_request
           (run (([] ++ [Request 1 sample_uuid sample_request])
                 ++ ([Cancel 2 "wd_12345678-90a" "user_001" None]
                     ++ [Request 3 "abcdef12-3456-4890-abcd-ef1234567890" sample_request])
                 ++ tail sample_run) initial))
    = Err st code.
Proof.
  apply (third_request_within_the_hour_is_refused []
           [Cancel 2 "wd_12345678-90a" "user_001" None] (tail sample_run) 1 3 9
           sample_uuid "abcdef12-3456-4890-abcd-ef1234567890"
           "fedcba09-8765-4321-8fed-cba098765432"
           sample_request sample_request sample_request
           (mkRequestInfo "wd_12345678-90a" pending_approval 500 500 0)
           (mkRequestInfo "wd_abcdef12-345" pending_approval 500 500 0));
    first [reflexivity | lia].
Defined.

(** *** Generated ids *)

Lemma generated_ids_with_uuid_hyphen_witness :
  cancel 2 (generateWithdrawalId "12345678-90ab-4cde-8f01-234567890abc") "user_001" None
    (run [Request 1 "12345678-90ab-4cde-8f01-234567890abc" sample_request] initial)
  = (run [Request 1 "12345678-90ab-4cde-8f01-234567890abc" sample_request] initial,
     Err 400 "Validation failed").
Proof.
  exact (proj1 (hyphenated_id_not_served 2 "12345678-90ab-4cde-8f01-234567890abc"
                  "9f8e7d6c5b4a3210" "user_001" "admin" None None
                  (run [Request 1 "12345678-90ab-4cde-8f01-234567890abc" sample_request]
                     initial) eq_refl)).
Defined.

End WithdrawalFacts.

(** ** index.js: the withdrawal processing script *)

Module ProcessorProofs.
Import Processor.

Lemma failed_with_facts (d : draw) (message : string) (trace : list string)
    (w : withdrawal) :
  let r := failed_with d message trace w in
  let n := default 0 (retryCount w) + 1 in
  o_success r = false
  ∧ o_error r = Some message
  ∧ retryCount (o_withdrawal r) = Some n
  ∧ failedAt (o_withdrawal r) = Some (d_settled d)
  ∧ failureReason (o_withdrawal r) = Some message
  ∧ status (o_withdrawal r) = (if n <? 3 then "retry_scheduled" else "failed")
  ∧ nextRetryAt (o_withdrawal r)
    = (if n <? 3 then Some (d_scheduled d + n * 60 * 60 * 1000) else nextRetryAt w)
  ∧ o_trace r
    = (trace ++ (if n <? 3 then ["failed"; "retry_scheduled"] else ["failed"]))%list.
Proof.
  cbv zeta. unfold failed_with, maxRetries.
  by destruct (default 0 (retryCount w) + 1 <? 3).
Qed.

(** The five ways a call ends. *)
Lemma processWithdrawal_cases (d : draw) (w : withdrawal) :
  (∃ txid time settlement,
     processWithdrawal d w
     = mkOutcome true (settled d txid time settlement (started d w)) None
         ["processing"; "completed"])
  ∨ (∃ message, processWithdrawal d w = failed_with d message [] w)
  ∨ (∃ message, processWithdrawal d w = failed_with d message ["processing"] (started d w)).
Proof.
  unfold processWithdrawal.
  destruct (_ || _ || _); [right; left; eauto|].
  destruct (_ || _); [right; left; eauto|].
  destruct (Js.omap_get _ _) as [g|].
  - destruct (gatewayRun g d); [left; eauto | right; right; eauto].
  - destruct (Js.includes _ _); [right; right; eauto | right; left; eauto].
Qed.

Lemma attempt_never_reenters (d : draw) (w : withdrawal) :
  reenters false (o_trace (processWithdrawal d w)) = false.
Proof.
  destruct (processWithdrawal_cases d w)
    as [(txid & time & settlement & ->) | [(message & ->) | (message & ->)]];
    [done|..];
    destruct (failed_with_facts d message [] w) as (_ & _ & _ & _ & _ & _ & _ & H0);
    destruct (failed_with_facts d message ["processing"] (started d w))
      as (_ & _ & _ & _ & _ & _ & _ & H1);
    rewrite ?H0, ?H1; by destruct (_ <? 3).
Qed.

Lemma attempt_leaves_queue (d : draw) (w : withdrawal) :
  isApproved (o_withdrawal (processWithdrawal d w)) = false.
Proof.
  unfold isApproved.
  destruct (processWithdrawal_cases d w)
    as [(txid & time & settlement & ->) | [(message & ->) | (message & ->)]];
    [done|..].
  - destruct (failed_with_facts d message [] w) as (_ & _ & _ & _ & _ & -> & _).
    by destruct (_ <? 3).
  - destruct (failed_with_facts d message ["processing"] (started d w))
      as (_ & _ & _ & _ & _ & -> & _).
    by destruct (_ <? 3).
Qed.



Lemma paid_attempt_example :
  let r := processWithdrawal paying_draw
             (mkWithdrawal "wd_3456789012cd" "user_003" 1000 "INR" "BankTransfer"
                "approved" 0 "razorpay" (Some 1)
                None None None None None None None None) in
  o_success r = true
  ∧ status (o_withdrawal r) = "completed"
  ∧ gatewayTransactionId (o_withdrawal r) = Some "rzp_00112233aabbccdd"
  ∧ o_trace r = ["processing"; "completed"].
Proof. by vm_compute. Qed.

End ProcessorProofs.
